(** * AgenticDataQuality: the quality-assessment tools of [src/tools/data_tools.py]

    A shallow embedding of the five tools ([DataLoaderTool], [CDELoaderTool],
    [ProfilerTool], [ValidatorTool], [AnomalyDetectorTool]) and of the
    constants of [src/config/settings.py] they relate to.

    Modelling conventions.
    - A pandas [DataFrame] is a list of labelled columns; a cell is missing,
      a number, a text or a timestamp.  Booleans are not modelled, nor the
      lists and dicts that the cells of a JSON table can hold: what is
      proved of a run that succeeds holds of such tables as well, but
      nothing is claimed of the runs that succeed on them.
    - A Python [str] is held as its UTF-8 bytes; its length, its white
      space and its decimal digits are those of its characters.
    - Python and numpy floats are idealised as exact rationals ([Q]); the
      non-finite results numpy produces instead of raising ([nan], [inf])
      are explicit constructors of [pyfloat].  The code computes in binary
      floating point: where its result hangs on the last bit (a value
      half-way between two decimals under [round], a standardised value of
      exactly 3) model and code can differ, and the theorems about these
      results leave those cases open.
    - A Python exception is an explicit [Raise]; [try ... except Exception]
      is [try_except].
    - What lives outside the repository (the file system, the pandas readers
      and date parser, the clock) is gathered in the record [Env]. *)

From Stdlib Require Import List String Ascii Bool Arith ZArith QArith Qround Qabs.
From Stdlib Require Import Lia Reals Lra Qreals Lqa DecimalString.
Import ListNotations.

Set Warnings "-register-all".

Local Open Scope string_scope.
Local Open Scope Z_scope.
Local Open Scope Q_scope.

(* ================================================================== *)
(** ** Python values and control *)
(* ================================================================== *)

Module Py.

(** Exceptions: the class and [str(e)]. *)
Inductive exn_class :=
| FileNotFoundError | ParserError | UnicodeDecodeError | JSONDecodeError
| KeyError | TypeError | AttributeError | ZeroDivisionError | ValueError.

Record exn := Exn { exn_cls : exn_class; exn_str : string }.

Inductive result (A : Type) :=
| Ok (a : A)
| Raise (e : exn).
Arguments Ok {A} a.
Arguments Raise {A} e.

Definition bind {A B} (m : result A) (k : A -> result B) : result B :=
  match m with
  | Ok a => k a
  | Raise e => Raise e
  end.

(** [try: body  except Exception as e: handler(e)] *)
Definition try_except {A} (body : result A) (handler : exn -> A) : A :=
  match body with
  | Ok a => a
  | Raise e => handler e
  end.

(** What a tool hands back: [json.dumps] of a structure, or a plain text. *)
Inductive output (A : Type) :=
| Json (a : A)
| Text (s : string).
Arguments Json {A} a.
Arguments Text {A} s.

(** The caller receives a [str] in both cases: the text [json.dumps]
    writes of the structure, or the plain text. *)
Definition returned {A} (dumps : A -> string) (o : output A) : string :=
  match o with
  | Json a => dumps a
  | Text t => t
  end.

(** Floats as numpy produces them. *)
Inductive pyfloat :=
| Fin (q : Q)
| NaN
| PInf
| NInf.

(** [str(n)] for a non-negative integer. *)
Definition str_nat (n : nat) : string := NilZero.string_of_uint (Nat.to_uint n).

Fixpoint pow10 (n : nat) : positive :=
  match n with
  | O => 1%positive
  | S n' => (10 * pow10 n')%positive
  end.

(** [round(x, ndigits)] on an exact value: to the nearest multiple of
    [10^-ndigits], ties to the even one.  Python rounds the binary float,
    which stands a little above or below a decimal tie, so there it can
    return the other neighbour. *)
Definition round_half_even (q : Q) : Z :=
  let f := Qfloor q in
  match Qcompare (q - inject_Z f) (1 # 2) with
  | Lt => f
  | Gt => (f + 1)%Z
  | Eq => if Z.even f then f else (f + 1)%Z
  end.

Definition round (q : Q) (ndigits : nat) : Q :=
  let scale := pow10 ndigits in
  Qmake (round_half_even (q * inject_Z (Zpos scale))) scale.

(** [round(sqrt(v), ndigits)] for [v >= 0].  With [y = v * 100^ndigits]
    the answer is the integer nearest to [sqrt y]: [Z.sqrt] gives its
    floor [f], and [sqrt y] is compared with [f + 1/2] on the squares. *)
Definition round_sqrt (v : Q) (ndigits : nat) : Q :=
  let scale := pow10 ndigits in
  let y := v * inject_Z (Zpos (scale * scale)) in
  let f := Z.sqrt (Qfloor y) in
  let n := match Qcompare (4 * y) (inject_Z ((2 * f + 1) * (2 * f + 1))) with
           | Lt => f
           | Gt => (f + 1)%Z
           | Eq => if Z.even f then f else (f + 1)%Z
           end in
  Qmake n scale.

Definition round_float (x : pyfloat) (ndigits : nat) : pyfloat :=
  match x with
  | Fin q => Fin (round q ndigits)
  | _ => x
  end.

(** [a / b] on Python ints: raises on a zero divisor. *)
Definition int_truediv (a b : nat) : result Q :=
  match b with
  | O => Raise (Exn ZeroDivisionError "division by zero")
  | S _ => Ok (inject_Z (Z.of_nat a) / inject_Z (Z.of_nat b))
  end.

(** [a / b] when [a] is a numpy integer scalar: a zero divisor gives
    [nan] or [inf] (and a warning), it does not raise. *)
Definition np_truediv (a b : nat) : pyfloat :=
  match b, a with
  | O, O => NaN
  | O, S _ => PInf
  | S _, _ => Fin (inject_Z (Z.of_nat a) / inject_Z (Z.of_nat b))
  end.

Definition float_add (x y : pyfloat) : pyfloat :=
  match x, y with
  | Fin a, Fin b => Fin (a + b)
  | NaN, _ | _, NaN => NaN
  | PInf, NInf | NInf, PInf => NaN
  | PInf, _ | _, PInf => PInf
  | NInf, _ | _, NInf => NInf
  end.

(** [x / n] for a float [x] that is already a numpy scalar, [n] a
    positive Python int. *)
Definition float_div_nat (x : pyfloat) (n : nat) : pyfloat :=
  match x with
  | Fin a => Fin (a / inject_Z (Z.of_nat n))
  | _ => x
  end.

(** [a / b] on numpy floats: a zero divisor gives [nan] for 0 / 0 and an
    infinity of the sign of [a] otherwise, with a warning and no
    exception. *)
Definition np_divide (a b : Q) : pyfloat :=
  if Qeq_bool b 0 then
    match Qcompare a 0 with
    | Eq => NaN
    | Gt => PInf
    | Lt => NInf
    end
  else Fin (a / b).

(** [x > k]: false on [nan] *)
Definition float_gt (x : pyfloat) (k : Q) : bool :=
  match x with
  | Fin q => negb (Qle_bool q k)
  | PInf => true
  | NaN | NInf => false
  end.

(** [lo <= x <= hi] as Python evaluates it: false on [nan]. *)
Definition float_between (lo hi : Q) (x : pyfloat) : Prop :=
  match x with
  | Fin q => lo <= q /\ q <= hi
  | NaN | PInf | NInf => False
  end.

End Py.
Export Py.

Declare Scope py_scope.
Delimit Scope py_scope with py.
Notation "x <- m ;; k" := (Py.bind m (fun x => k))
  (at level 61, m at next level, right associativity) : py_scope.
Notation "m ;;; k" := (Py.bind m (fun _ => k))
  (at level 61, right associativity) : py_scope.

(* ================================================================== *)
(** ** Strings *)
(* ================================================================== *)

Module Str.

Fixpoint rev_string (s : string) (acc : string) : string :=
  match s with
  | EmptyString => acc
  | String c s' => rev_string s' (String c acc)
  end.

(** [s.endswith(suffix)] *)
Definition endswith (s suffix : string) : bool :=
  String.prefix (rev_string suffix EmptyString) (rev_string s EmptyString).

(** [needle in s] *)
Fixpoint contains (needle s : string) : bool :=
  String.prefix needle s ||
  match s with
  | EmptyString => false
  | String _ s' => contains needle s'
  end.

Definition lower_ascii (c : ascii) : ascii :=
  let n := nat_of_ascii c in
  if (65 <=? n)%nat && (n <=? 90)%nat then ascii_of_nat (n + 32) else c.

(** [s.lower()] on ASCII text *)
Fixpoint lower (s : string) : string :=
  match s with
  | EmptyString => EmptyString
  | String c s' => String (lower_ascii c) (lower s')
  end.

(** A text from the numbers of its bytes *)
Definition bytes (l : list nat) : string :=
  fold_right (fun n s => String (ascii_of_nat n) s) EmptyString l.

(** The characters [str.isspace] holds of, each as its UTF-8 text: the
    ASCII ones (tab, line feed, vertical tab, form feed, carriage return,
    the separators 28 to 31 and the space), then U+0085, U+00A0, U+1680,
    U+2000 to U+200A, U+2028, U+2029, U+202F, U+205F and U+3000. *)
Definition whitespace : list string :=
  map bytes
    [ [9]; [10]; [11]; [12]; [13]; [28]; [29]; [30]; [31]; [32];
      [194; 133]; [194; 160]; [225; 154; 128];
      [226; 128; 128]; [226; 128; 129]; [226; 128; 130]; [226; 128; 131];
      [226; 128; 132]; [226; 128; 133]; [226; 128; 134]; [226; 128; 135];
      [226; 128; 136]; [226; 128; 137]; [226; 128; 138];
      [226; 128; 168]; [226; 128; 169]; [226; 128; 175];
      [226; 129; 159]; [227; 128; 128] ]%nat.

(** [s] without its prefix [w], when it has it *)
Fixpoint drop_prefix (w s : string) : option string :=
  match w, s with
  | EmptyString, _ => Some s
  | String a w', String b s' => if Ascii.eqb a b then drop_prefix w' s' else None
  | String _ _, EmptyString => None
  end.

(** [s] without the first of [ws] it begins with *)
Fixpoint drop_any (ws : list string) (s : string) : option string :=
  match ws with
  | [] => None
  | w :: ws' =>
      match drop_prefix w s with
      | Some rest => Some rest
      | None => drop_any ws' s
      end
  end.

(** Leading members of [ws] removed, one at each step; a text has no more
    of them than it has bytes. *)
Fixpoint lstrip_of (ws : list string) (steps : nat) (s : string) : string :=
  match steps with
  | O => s
  | S steps' =>
      match drop_any ws s with
      | Some rest => lstrip_of ws steps' rest
      | None => s
      end
  end.

(** [s.lstrip()] *)
Definition lstrip (s : string) : string := lstrip_of whitespace (String.length s) s.

(** [s.rstrip()]: on the reversed text, the reversed characters lead. *)
Definition rstrip (s : string) : string :=
  rev_string
    (lstrip_of (map (fun w => rev_string w EmptyString) whitespace)
       (String.length s) (rev_string s EmptyString))
    EmptyString.

(** [s.strip()] *)
Definition strip (s : string) : string := rstrip (lstrip s).

(** [len(s)]: a text is held as its UTF-8 bytes, and has one character
    for each byte that does not continue one (those from 128 to 191 do). *)
Definition is_continuation (c : ascii) : bool :=
  let n := nat_of_ascii c in (128 <=? n)%nat && (n <=? 191)%nat.

Fixpoint len (s : string) : nat :=
  match s with
  | EmptyString => O
  | String c s' => if is_continuation c then len s' else S (len s')
  end.

(** [s.split(sep)] for a one-character separator: the pieces, the current
    one accumulated in reverse. *)
Fixpoint split_acc (sep : ascii) (s : string) (cur : string) : list string :=
  match s with
  | EmptyString => [rev_string cur EmptyString]
  | String c s' =>
      if Ascii.eqb c sep then rev_string cur EmptyString :: split_acc sep s' EmptyString
      else split_acc sep s' (String c cur)
  end.

Definition split (sep : ascii) (s : string) : list string := split_acc sep s EmptyString.

(** [os.path.basename(p)] on a POSIX path: what follows the last slash. *)
Definition basename (p : string) : string := last (split "/"%char p) EmptyString.

(** [x in l] for a list of strings *)
Definition mem (x : string) (l : list string) : bool := existsb (String.eqb x) l.

End Str.

(* ================================================================== *)
(** ** Regular expressions, as [re.match] decides them *)
(* ================================================================== *)

Module Re.

Inductive regex :=
| Void
| Eps
| Class (p : ascii -> bool)
| Cat (r1 r2 : regex)
| Alt (r1 r2 : regex)
| Star (r : regex).

Definition Plus (r : regex) : regex := Cat r (Star r).

Fixpoint Times (n : nat) (r : regex) : regex :=
  match n with
  | O => Eps
  | S n' => Cat r (Times n' r)
  end.

Fixpoint nullable (r : regex) : bool :=
  match r with
  | Void => false
  | Eps => true
  | Class _ => false
  | Cat r1 r2 => nullable r1 && nullable r2
  | Alt r1 r2 => nullable r1 || nullable r2
  | Star _ => true
  end.

(** Brzozowski derivative *)
Fixpoint deriv (c : ascii) (r : regex) : regex :=
  match r with
  | Void => Void
  | Eps => Void
  | Class p => if p c then Eps else Void
  | Cat r1 r2 =>
      if nullable r1 then Alt (Cat (deriv c r1) r2) (deriv c r2)
      else Cat (deriv c r1) r2
  | Alt r1 r2 => Alt (deriv c r1) (deriv c r2)
  | Star r1 => Cat (deriv c r1) (Star r1)
  end.

Fixpoint fullmatch (r : regex) (s : string) : bool :=
  match s with
  | EmptyString => nullable r
  | String c s' => fullmatch (deriv c r) s'
  end.

Definition newline : ascii := ascii_of_nat 10.

(** [re.match('^' + r + '$', s)]: the body must cover the whole text, up
    to one final line feed, which [$] lets through. *)
Definition match_anchored (r : regex) (s : string) : bool :=
  fullmatch (Cat r (Alt Eps (Class (Ascii.eqb newline)))) s.

Definition in_range (lo hi : nat) (c : ascii) : bool :=
  let n := nat_of_ascii c in (lo <=? n)%nat && (n <=? hi)%nat.

Definition is_digit : ascii -> bool := in_range 48 57.
Definition is_alnum (c : ascii) : bool :=
  in_range 97 122 c || in_range 65 90 c || is_digit c.
Definition one_of (l : list ascii) (c : ascii) : bool := existsb (Ascii.eqb c) l.

(** The text [w] and no other *)
Fixpoint literal (w : string) : regex :=
  match w with
  | EmptyString => Eps
  | String c w' => Cat (Class (Ascii.eqb c)) (literal w')
  end.

(** One of the texts [ws] *)
Fixpoint any_of (ws : list string) : regex :=
  match ws with
  | [] => Void
  | w :: ws' => Alt (literal w) (any_of ws')
  end.

(** [\d] in a pattern for [str]: a digit of ASCII, or one of the other
    decimal digits of Unicode, [more], each a text of several bytes *)
Definition digit (more : list string) : regex := Alt (Class is_digit) (any_of more).

End Re.

(* ================================================================== *)
(** ** Tables *)
(* ================================================================== *)

Module Pd.

(** A cell.  [NA] is numpy's [nan], Python's [None] and pandas's [NaT]
    alike; a timestamp is held in nanoseconds since the epoch.  The lists
    and dicts of a nested JSON document have no constructor. *)
Inductive cell :=
| NA
| Num (q : Q)
| Txt (s : string)
| Tm (ns : Z).

Inductive dtype := int64 | float64 | object | datetime64.

Definition str_dtype (d : dtype) : string :=
  match d with
  | int64 => "int64"
  | float64 => "float64"
  | object => "object"
  | datetime64 => "datetime64[ns]"
  end.

Record Series := mkSeries { label : string; dt : dtype; values : list cell }.

(** Columns in file order.  In every frame pandas builds all columns have
    one length; the definitions below do not rely on it. *)
Definition DataFrame := list Series.

Definition columns (df : DataFrame) : list string := map label df.

(** [len(df)] *)
Definition len (df : DataFrame) : nat :=
  match df with
  | [] => O
  | s :: _ => List.length (values s)
  end.

(** [df[name]] *)
Fixpoint getitem (df : DataFrame) (name : string) : option Series :=
  match df with
  | [] => None
  | s :: df' => if String.eqb (label s) name then Some s else getitem df' name
  end.

(** [df[name] = column]: overwrite in place, or append as the last column *)
Fixpoint setitem (df : DataFrame) (s : Series) : DataFrame :=
  match df with
  | [] => [s]
  | s0 :: df' =>
      if String.eqb (label s0) (label s) then s :: df' else s0 :: setitem df' s
  end.

Definition notna (c : cell) : bool :=
  match c with
  | NA => false
  | _ => true
  end.

Definition isna (c : cell) : bool := negb (notna c).

Definition dropna (l : list cell) : list cell := filter notna l.

(** [==] on cell values *)
Definition cell_eqb (a b : cell) : bool :=
  match a, b with
  | Num p, Num q => Qeq_bool p q
  | Txt s, Txt t => String.eqb s t
  | Tm m, Tm n => Z.eqb m n
  | _, _ => false
  end.

(** [Series.duplicated()]: a value is a duplicate when it occurred before. *)
Fixpoint duplicated_from (seen : list cell) (l : list cell) : list bool :=
  match l with
  | [] => []
  | c :: l' => existsb (cell_eqb c) seen :: duplicated_from (c :: seen) l'
  end.

Definition duplicated (l : list cell) : list bool := duplicated_from [] l.

(** [mask.sum()] *)
Definition count_true (mask : list bool) : nat := List.length (filter (fun b => b) mask).

(** [Series.nunique()]: distinct values, missing ones left out *)
Definition nunique (l : list cell) : nat :=
  count_true (map negb (duplicated (dropna l))).

(** [column[mask]] *)
Fixpoint select (l : list cell) (mask : list bool) : list cell :=
  match l, mask with
  | c :: l', b :: mask' => if b then c :: select l' mask' else select l' mask'
  | _, _ => []
  end.

(** [.head(n)] *)
Definition head (n : nat) (l : list cell) : list cell := firstn n l.

Definition is_numeric_dtype (d : dtype) : bool :=
  match d with
  | int64 | float64 => true
  | _ => false
  end.

(** The numbers of a column, missing cells dropped.  A column of numeric
    dtype holds nothing else. *)
Fixpoint numbers (l : list cell) : list Q :=
  match l with
  | [] => []
  | Num q :: l' => q :: numbers l'
  | _ :: l' => numbers l'
  end.

(** [column < k] and [column > k] for a number [k]: false on a missing
    cell, a [TypeError] on a text or a timestamp. *)
Definition compare_cell (test : Q -> bool) (c : cell) : result bool :=
  match c with
  | NA => Ok false
  | Num q => Ok (test q)
  | Txt _ => Raise (Exn TypeError "'<' not supported between instances of 'str' and 'int'")
  | Tm _ => Raise (Exn TypeError "Invalid comparison between dtype=datetime64[ns] and int")
  end.

Fixpoint compare_column (test : Q -> bool) (l : list cell) : result (list bool) :=
  match l with
  | [] => Ok []
  | c :: l' =>
      (b <- compare_cell test c ;; bs <- compare_column test l' ;; Ok (b :: bs))%py
  end.

Definition Qltb (a b : Q) : bool := negb (Qle_bool b a).

End Pd.
Export Pd.

(* ================================================================== *)
(** ** JSON documents, as [json.load] returns them *)
(* ================================================================== *)

Module Js.

Inductive json :=
| JNull
| JBool (b : bool)
| JNum (q : Q)
| JStr (s : string)
| JArr (l : list json)
| JObj (kv : list (string * json)).

(** [d.get(key)] on a dict, whose keys are distinct *)
Fixpoint lookup (kv : list (string * json)) (key : string) : option json :=
  match kv with
  | [] => None
  | (k, v) :: kv' => if String.eqb k key then Some v else lookup kv' key
  end.

(** [type(obj).__name__]; a number is taken for an [int] when it is whole *)
Definition type_name (obj : json) : string :=
  match obj with
  | JNull => "NoneType"
  | JBool _ => "bool"
  | JNum q => if Pos.eqb (Qden (Qred q)) 1 then "int" else "float"
  | JStr _ => "str"
  | JArr _ => "list"
  | JObj _ => "dict"
  end.

(** [obj.get(key, default)]: only a dict has [get]. *)
Definition get (obj : json) (key : string) (default : json) : result json :=
  match obj with
  | JObj kv => Ok (match lookup kv key with Some v => v | None => default end)
  | _ => Raise (Exn AttributeError
                  ("'" ++ type_name obj ++ "' object has no attribute 'get'"))
  end.

(** [obj[key]] for a text key *)
Definition getitem (obj : json) (key : string) : result json :=
  match obj with
  | JObj kv =>
      match lookup kv key with
      | Some v => Ok v
      | None => Raise (Exn KeyError ("'" ++ key ++ "'"))
      end
  | JStr _ => Raise (Exn TypeError "string indices must be integers")
  | JArr _ => Raise (Exn TypeError "list indices must be integers or slices, not str")
  | _ => Raise (Exn TypeError "object is not subscriptable")
  end.

Definition chars (s : string) : list json :=
  map (fun c => JStr (String c EmptyString)) (list_ascii_of_string s).

(** [for x in obj]: a list gives its items, a dict its keys, a text its
    characters; nothing else can be iterated. *)
Definition iter (obj : json) : result (list json) :=
  match obj with
  | JArr l => Ok l
  | JObj kv => Ok (map (fun p => JStr (fst p)) kv)
  | JStr s => Ok (chars s)
  | _ => Raise (Exn TypeError "object is not iterable")
  end.

(** [len(obj)] *)
Definition len (obj : json) : result nat :=
  match obj with
  | JArr l => Ok (List.length l)
  | JObj kv => Ok (List.length kv)
  | JStr s => Ok (String.length s)
  | _ => Raise (Exn TypeError "object has no len()")
  end.

(** [a == b] on scalars; [True] and [False] are the numbers 1 and 0.
    A list or a dict is never equal to a scalar. *)
Definition as_number (a : json) : option Q :=
  match a with
  | JBool true => Some 1
  | JBool false => Some 0
  | JNum q => Some q
  | _ => None
  end.

Definition scalar_eqb (a b : json) : bool :=
  match a, b with
  | JNull, JNull => true
  | JStr s, JStr t => String.eqb s t
  | _, _ =>
      match as_number a, as_number b with
      | Some p, Some q => Qeq_bool p q
      | _, _ => false
      end
  end.

Definition hashable (a : json) : bool :=
  match a with
  | JArr _ | JObj _ => false
  | _ => true
  end.

(** A dict keyed by JSON scalars, in insertion order.  [d[k] = v] keeps
    the place of a key already present. *)
Definition dict := list (json * json).

Fixpoint dict_set (d : dict) (k v : json) : dict :=
  match d with
  | [] => [(k, v)]
  | (k0, v0) :: d' =>
      if scalar_eqb k0 k then (k0, v) :: d' else (k0, v0) :: dict_set d' k v
  end.

Definition setitem (d : dict) (k v : json) : result dict :=
  if hashable k then Ok (dict_set d k v)
  else Raise (Exn TypeError "unhashable type").

End Js.
Export Js.

(* ================================================================== *)
(** ** The world outside the repository *)
(* ================================================================== *)

Record Env := mkEnv {
  (** [pd.read_csv(path)], [pd.read_json(path)] *)
  read_csv : string -> result DataFrame;
  read_json : string -> result DataFrame;
  (** [os.path.exists(path)] *)
  path_exists : string -> bool;
  (** [with open(path) as f: json.load(f)] *)
  json_load : string -> result json;
  (** [datetime.now().date()], in days since the epoch *)
  today : Z;
  (** [pd.to_datetime(column, errors='coerce')]: every cell becomes a
      timestamp or [NA] *)
  to_datetime : list cell -> list cell;
  (** [str(value)] of a cell that is not a text *)
  render : cell -> string;
  (** the characters other than [0] to [9] that [\d] matches, those of the
      Unicode category Nd in the running interpreter, each as its UTF-8
      text *)
  decimal_digits : list string;
  (** [round(df.memory_usage(deep=True).sum() / 1024 / 1024, 2)] *)
  memory_usage_mb : DataFrame -> Q
}.

Definition set_today (d : Z) (env : Env) : Env :=
  {| read_csv := read_csv env; read_json := read_json env;
     path_exists := path_exists env; json_load := json_load env;
     today := d; to_datetime := to_datetime env; render := render env;
     decimal_digits := decimal_digits env;
     memory_usage_mb := memory_usage_mb env |}.

(** [pd.read_csv(p) if p.endswith('.csv') else pd.read_json(p)], the first
    line of the profiler, the validator and the anomaly detector. *)
Definition read_table (env : Env) (file_path : string) : result DataFrame :=
  if Str.endswith file_path ".csv" then read_csv env file_path
  else read_json env file_path.

(** [column.astype(str)], cell by cell *)
Definition astype_str (env : Env) (c : cell) : string :=
  match c with
  | Txt s => s
  | _ => render env c
  end.

Fixpoint mapM {A B} (f : A -> result B) (l : list A) : result (list B) :=
  match l with
  | [] => Ok []
  | a :: l' => (b <- f a ;; bs <- mapM f l' ;; Ok (b :: bs))%py
  end.

(** A [for] loop that updates one variable and stops at the first
    exception. *)
Fixpoint for_each {A S} (body : S -> A -> result S) (l : list A) (s : S) : result S :=
  match l with
  | [] => Ok s
  | a :: l' => (s' <- body s a ;; for_each body l' s')%py
  end.

(* ================================================================== *)
(** ** [DataLoaderTool] *)
(* ================================================================== *)

Record LoadInfo := mkLoadInfo {
  li_file : string;
  li_rows : nat;
  li_columns : nat;
  li_column_names : list string;
  li_sample_rows : list (list (string * cell));
  li_memory_usage_mb : Q
}.

(** [df.head(n).to_dict(orient='records')] *)
Definition record_at (df : DataFrame) (i : nat) : list (string * cell) :=
  map (fun s => (label s, nth i (values s) NA)) df.

Definition head_records (n : nat) (df : DataFrame) : list (list (string * cell)) :=
  map (record_at df) (seq 0 (Nat.min n (Pd.len df))).

Definition unsupported_format : string := "Error: Unsupported file format. Use CSV or JSON.".

Definition load_info (env : Env) (file_path : string) (df : DataFrame) : LoadInfo :=
  {| li_file := Str.basename file_path;
     li_rows := Pd.len df;
     li_columns := List.length (columns df);
     li_column_names := columns df;
     li_sample_rows := head_records 3 df;
     li_memory_usage_mb := memory_usage_mb env df |}.

Definition DataLoaderTool_run (env : Env) (file_path : string) : output LoadInfo :=
  try_except
    (if Str.endswith file_path ".csv" then
       (df <- read_csv env file_path ;; Ok (Json (load_info env file_path df)))%py
     else if Str.endswith file_path ".json" then
       (df <- read_json env file_path ;; Ok (Json (load_info env file_path df)))%py
     else Ok (Text unsupported_format))
    (fun e => Text ("Error loading file: " ++ exn_str e)).

(** [DataLoaderTool._run(file_path) -> str], with [dumps] for
    [json.dumps(info, indent=2, default=str)] *)
Definition DataLoaderTool_text (dumps : LoadInfo -> string) (env : Env)
    (file_path : string) : string :=
  returned dumps (DataLoaderTool_run env file_path).

(* ================================================================== *)
(** ** [CDELoaderTool] *)
(* ================================================================== *)

Record CDESummary := mkCDESummary {
  cs_dataset : json;
  cs_description : json;
  cs_cde_count : nat;
  cs_cde_fields : list json;
  cs_thresholds : json;
  cs_cde_details : json
}.

Definition cde_summary (config : json) : result CDESummary :=
  (dataset <- Js.get config "dataset" JNull ;;
   description <- Js.get config "description" JNull ;;
   cdes <- Js.get config "critical_data_elements" (JArr []) ;;
   count <- Js.len cdes ;;
   cdes' <- Js.get config "critical_data_elements" (JArr []) ;;
   items <- Js.iter cdes' ;;
   fields <- mapM (fun cde => Js.getitem cde "field") items ;;
   thresholds <- Js.get config "quality_thresholds" (JObj []) ;;
   details <- Js.get config "critical_data_elements" (JArr []) ;;
   Ok {| cs_dataset := dataset; cs_description := description;
         cs_cde_count := count; cs_cde_fields := fields;
         cs_thresholds := thresholds; cs_cde_details := details |})%py.

Definition CDELoaderTool_run (env : Env) (config_path : string) : output CDESummary :=
  try_except
    (config <- json_load env config_path ;;
     summary <- cde_summary config ;;
     Ok (Json summary))%py
    (fun e => Text ("Error loading CDE config: " ++ exn_str e)).

(* ================================================================== *)
(** ** Statistics of a numeric column *)
(* ================================================================== *)

Module Stats.

Definition sum (xs : list Q) : Q := fold_right Qplus 0 xs.

Definition size (xs : list Q) : Q := inject_Z (Z.of_nat (List.length xs)).

Definition mean (xs : list Q) : Q := sum xs / size xs.

(** The variance [scipy.stats.zscore] standardises with: its [ddof]
    defaults to 0, the sum of squares is divided by [n]. *)
Definition pvar (xs : list Q) : Q :=
  sum (map (fun x => (x - mean xs) * (x - mean xs)) xs) / size xs.

(** The variance behind [Series.std()], whose [ddof] is 1. *)
Definition svar (xs : list Q) : Q :=
  sum (map (fun x => (x - mean xs) * (x - mean xs)) xs) / (size xs - 1).

(** The square of [(x - mean) / std], for a standard deviation whose
    square is [var].  The standard deviation itself is a square root and
    has no exact value here; the quotient is [nan] or infinite with it. *)
Definition zscore_sq (m var x : Q) : pyfloat :=
  np_divide ((x - m) * (x - m)) var.

(** [abs((x - mean) / std) > 3], decided on the square *)
Definition beyond_3_sigma (m var x : Q) : bool :=
  float_gt (zscore_sq m var x) 9.

(** [(abs(stats.zscore(col_data)) > 3).sum()], on exact values: a value
    at exactly three standard deviations is not counted here, while in
    floating point its standardised value can come out just above 3. *)
Definition outliers_z (xs : list Q) : nat :=
  count_true (map (beyond_3_sigma (mean xs) (pvar xs)) xs).

Fixpoint insert (x : Q) (l : list Q) : list Q :=
  match l with
  | [] => [x]
  | y :: l' => if Qle_bool x y then x :: l else y :: insert x l'
  end.

Definition sort (l : list Q) : list Q := fold_right insert [] l.

(** [Series.min()], [Series.max()] of a column that starts with [x] *)
Definition min_from (x : Q) (l : list Q) : Q :=
  fold_left (fun a b => if Qle_bool b a then b else a) l x.

Definition max_from (x : Q) (l : list Q) : Q :=
  fold_left (fun a b => if Qle_bool a b then b else a) l x.

(** [Series.quantile(p)], linear interpolation between the two closest
    ranks *)
Definition quantile (xs : list Q) (p : Q) : Q :=
  let s := sort xs in
  let h := inject_Z (Z.of_nat (List.length s - 1)) * p in
  let lo := Z.to_nat (Qfloor h) in
  let a := nth lo s 0 in
  let b := nth (S lo) s a in
  a + (h - inject_Z (Qfloor h)) * (b - a).

(** [((col < Q1 - 1.5 * IQR) | (col > Q3 + 1.5 * IQR)).sum()] *)
Definition outliers_iqr (xs : list Q) : nat :=
  let Q1 := quantile xs (1 # 4) in
  let Q3 := quantile xs (3 # 4) in
  let IQR := Q3 - Q1 in
  count_true (map (fun x => Qltb x (Q1 - (3 # 2) * IQR) || Qltb (Q3 + (3 # 2) * IQR) x) xs).

End Stats.

(* ================================================================== *)
(** ** [ProfilerTool] *)
(* ================================================================== *)

(** The keys a numeric column adds; each is [None] when every value is
    missing. *)
Record NumericStats := mkNumericStats {
  ns_min : option Q;
  ns_max : option Q;
  ns_mean : option Q;
  ns_std : option pyfloat
}.

(** The keys a column of dtype [object] adds *)
Record TextStats := mkTextStats {
  min_length : option nat;
  max_length : option nat;
  sample_values : list string
}.

Record ColumnProfile := mkColumnProfile {
  cp_column : string;
  is_cde : bool;
  data_type : string;
  total_rows : nat;
  non_null_count : nat;
  null_count : nat;
  completeness : pyfloat;
  unique_count : nat;
  uniqueness : pyfloat;
  duplicate_count : Z;
  numeric_stats : option NumericStats;
  text_stats : option TextStats
}.

Record ProfileSummary := mkProfileSummary {
  total_columns : nat;
  cde_columns : nat;
  overall_completeness : pyfloat;
  cde_completeness : option pyfloat;
  columns_with_nulls : nat;
  columns_with_duplicates : nat;
  column_profiles : list ColumnProfile
}.

(** [[f.strip() for f in cde_fields.split(',')] if cde_fields else []] *)
Definition parse_cde_fields (cde_fields : string) : list string :=
  match cde_fields with
  | EmptyString => []
  | _ => map Str.strip (Str.split ","%char cde_fields)
  end.

(** [min], [max], rounded [mean] and [std] of the present numbers.
    [Series.std()] divides by [n - 1] and is [nan] for a single value.
    The mean is rounded from its exact value, the code rounds the float. *)
Definition numeric_stats_of (l : list cell) : NumericStats :=
  match numbers l with
  | [] => {| ns_min := None; ns_max := None; ns_mean := None; ns_std := None |}
  | x :: xs =>
      {| ns_min := Some (Stats.min_from x xs);
         ns_max := Some (Stats.max_from x xs);
         ns_mean := Some (round (Stats.mean (x :: xs)) 2);
         ns_std := Some (match xs with
                         | [] => NaN
                         | _ => Fin (round_sqrt (Stats.svar (x :: xs)) 2)
                         end) |}
  end.

(** Lengths, in characters, and first values of the present cells, as
    texts *)
Definition text_stats_of (env : Env) (l : list cell) : TextStats :=
  let texts := map (astype_str env) (dropna l) in
  match map Str.len texts with
  | [] => {| min_length := None; max_length := None; sample_values := firstn 3 texts |}
  | n :: ns =>
      {| min_length := Some (fold_left Nat.min ns n);
         max_length := Some (fold_left Nat.max ns n);
         sample_values := firstn 3 texts |}
  end.

Definition is_object (d : dtype) : bool :=
  match d with
  | object => true
  | _ => false
  end.

(** The body of the loop over [df.columns] *)
Definition profile_column (env : Env) (cde_list : list string) (col_data : Series)
    : ColumnProfile :=
  let col := label col_data in
  let total := List.length (values col_data) in
  let non_null := count_true (map notna (values col_data)) in
  let nulls := count_true (map isna (values col_data)) in
  let unique := nunique (values col_data) in
  {| cp_column := col;
     is_cde := Str.mem col cde_list;
     data_type := str_dtype (dt col_data);
     total_rows := total;
     non_null_count := non_null;
     null_count := nulls;
     completeness := round_float (np_truediv non_null total) 4;
     unique_count := unique;
     uniqueness :=
       if (0 <? non_null)%nat then round_float (np_truediv unique non_null) 4 else Fin 0;
     duplicate_count := (Z.of_nat non_null - Z.of_nat unique)%Z;
     numeric_stats :=
       if is_numeric_dtype (dt col_data) then Some (numeric_stats_of (values col_data))
       else None;
     text_stats :=
       if is_object (dt col_data) then Some (text_stats_of env (values col_data))
       else None |}.

(** [sum(p["completeness"] for p in ps)]: starts from the int 0 *)
Definition sum_completeness (ps : list ColumnProfile) : pyfloat :=
  fold_left (fun acc p => float_add acc (completeness p)) ps (Fin 0).

(** [round(sum(...) / len(ps), 4)]: an empty [ps] divides the int 0 by the
    int 0, which raises. *)
Definition mean_completeness (ps : list ColumnProfile) : result pyfloat :=
  match ps with
  | [] => Raise (Exn ZeroDivisionError "division by zero")
  | _ => Ok (round_float (float_div_nat (sum_completeness ps) (List.length ps)) 4)
  end.

Definition profile_summary (profile : list ColumnProfile) : result ProfileSummary :=
  let cde_profiles := filter is_cde profile in
  (overall <- mean_completeness profile ;;
   cde <- match cde_profiles with
          | [] => Ok None
          | _ => (m <- mean_completeness cde_profiles ;; Ok (Some m))
          end ;;
   Ok {| total_columns := List.length profile;
         cde_columns := List.length cde_profiles;
         overall_completeness := overall;
         cde_completeness := cde;
         columns_with_nulls :=
           List.length (filter (fun p => (0 <? null_count p)%nat) profile);
         columns_with_duplicates :=
           List.length (filter (fun p => (0 <? duplicate_count p)%Z) profile);
         column_profiles := profile |})%py.

Definition ProfilerTool_run (env : Env) (file_path cde_fields : string) : output ProfileSummary :=
  try_except
    (df <- read_table env file_path ;;
     let cde_list := parse_cde_fields cde_fields in
     let profile := map (profile_column env cde_list) df in
     summary <- profile_summary profile ;;
     Ok (Json summary))%py
    (fun e => Text ("Error profiling data: " ++ exn_str e)).

(* ================================================================== *)
(** ** [ValidatorTool] *)
(* ================================================================== *)

Inductive severity := CRITICAL | HIGH | MEDIUM | LOW.

Definition severity_eqb (a b : severity) : bool :=
  match a, b with
  | CRITICAL, CRITICAL | HIGH, HIGH | MEDIUM, MEDIUM | LOW, LOW => true
  | _, _ => false
  end.

(** An issue dict.  [sample_invalid] is [None] when the dict has no such
    key. *)
Record Issue := mkIssue {
  field : string;
  rule : string;
  sev : severity;
  invalid_count : nat;
  sample_invalid : option (list cell);
  message : string
}.

Record ValidationResult := mkValidationResult {
  total_records : nat;
  total_issues : nat;
  critical_issues : nat;
  high_issues : nat;
  medium_issues : nat;
  validity_score : Q;
  issues : list Issue
}.

(** [r'^[a-zA-Z0-9_.+-]+@[a-zA-Z0-9-]+\.[a-zA-Z0-9-.]+$'] *)
Definition email_pattern : Re.regex :=
  let local := Re.Class (fun c => Re.is_alnum c || Re.one_of ["_"; "."; "+"; "-"]%char c) in
  let host := Re.Class (fun c => Re.is_alnum c || Re.one_of ["-"]%char c) in
  let tail := Re.Class (fun c => Re.is_alnum c || Re.one_of ["-"; "."]%char c) in
  Re.Cat (Re.Plus local)
    (Re.Cat (Re.Class (Ascii.eqb "@"%char))
       (Re.Cat (Re.Plus host)
          (Re.Cat (Re.Class (Ascii.eqb "."%char)) (Re.Plus tail)))).

(** [r'^\d{3}-\d{3}-\d{4}$'] *)
Definition phone_pattern (env : Env) : Re.regex :=
  let d := Re.digit (decimal_digits env) in
  let dash := Re.Class (Ascii.eqb "-"%char) in
  Re.Cat (Re.Times 3 d) (Re.Cat dash (Re.Cat (Re.Times 3 d) (Re.Cat dash (Re.Times 4 d)))).

(** [col.notna() & ~col.astype(str).str.match(pattern)] *)
Definition format_mask (env : Env) (pattern : Re.regex) (l : list cell) : list bool :=
  map (fun c => notna c && negb (Re.match_anchored pattern (astype_str env c))) l.

Definition check_format (env : Env) (df : DataFrame) (name : string)
    (pattern : Re.regex) (s : severity) (what : string) : list Issue :=
  match Pd.getitem df name with
  | None => []
  | Some col =>
      let invalid := select (values col) (format_mask env pattern (values col)) in
      if (0 <? List.length invalid)%nat then
        [ {| field := name; rule := "format_validation"; sev := s;
             invalid_count := List.length invalid;
             sample_invalid := Some (head 3 invalid);
             message := str_nat (List.length invalid) ++ " records have invalid "
                        ++ what ++ " format" |} ]
      else []
  end.

Definition ns_per_day : Z := 86400000000000.

(** [parsed.dt.date > today]: [NaT] compares false; [.dt] exists on
    timestamps only. *)
Definition after_today (today : Z) (c : cell) : result bool :=
  match c with
  | Tm ns => Ok (today <? ns / ns_per_day)%Z
  | NA => Ok false
  | _ => Raise (Exn AttributeError "Can only use .dt accessor with datetimelike values")
  end.

(** The date rule.  It stores the parsed dates in the frame, as column
    [dob_parsed], and the frame stays so for what follows. *)
Definition check_dob (env : Env) (df : DataFrame) : result (DataFrame * list Issue) :=
  match Pd.getitem df "date_of_birth" with
  | None => Ok (df, [])
  | Some col =>
      let parsed := to_datetime env (values col) in
      let df' := Pd.setitem df (mkSeries "dob_parsed" datetime64 parsed) in
      (mask <- mapM (after_today (today env)) parsed ;;
       let future_dob := select (values col) mask in
       Ok (df',
           if (0 <? List.length future_dob)%nat then
             [ {| field := "date_of_birth"; rule := "future_date"; sev := CRITICAL;
                  invalid_count := List.length future_dob;
                  sample_invalid :=
                    Some (map (fun c => Txt (astype_str env c)) (head 3 future_dob));
                  message := str_nat (List.length future_dob)
                             ++ " records have future date of birth" |} ]
           else []))%py
  end.

(** A rule on the numbers of one column *)
Definition check_numeric (df : DataFrame) (name rule_id : string)
    (test : Q -> bool) (what : string) : result (list Issue) :=
  match Pd.getitem df name with
  | None => Ok []
  | Some col =>
      (mask <- compare_column test (values col) ;;
       let bad := select (values col) mask in
       Ok (if (0 <? List.length bad)%nat then
             [ {| field := name; rule := rule_id; sev := HIGH;
                  invalid_count := List.length bad;
                  sample_invalid := Some (head 3 bad);
                  message := str_nat (List.length bad) ++ what |} ]
           else []))%py
  end.

Definition negative (q : Q) : bool := Qltb q 0.
Definition outside_score_range (q : Q) : bool := Qltb q 300 || Qltb 850 q.

(** [field in df.columns], for a key of [cde_rules] *)
Definition in_columns (key : json) (df : DataFrame) : option string :=
  match key with
  | JStr s => if Str.mem s (columns df) then Some s else None
  | _ => None
  end.

Definition column_values (df : DataFrame) (name : string) : list cell :=
  match Pd.getitem df name with
  | Some col => values col
  | None => []
  end.

(** One turn of the loop of null checks *)
Definition check_not_nullable (df : DataFrame) (entry : json * json) : result (list Issue) :=
  match in_columns (fst entry) df with
  | None => Ok []
  | Some name =>
      (nullable <- Js.get (snd entry) "nullable" JNull ;;
       if scalar_eqb nullable (JBool false) then
         let n := count_true (map isna (column_values df name)) in
         Ok (if (0 <? n)%nat then
               [ {| field := name; rule := "cde_not_nullable"; sev := CRITICAL;
                    invalid_count := n;
                    sample_invalid := None;
                    message := "CDE field '" ++ name ++ "' has " ++ str_nat n
                               ++ " null values but is marked as non-nullable" |} ]
             else [])
       else Ok [])%py
  end.

(** One turn of the loop of duplicate checks *)
Definition check_unique (df : DataFrame) (entry : json * json) : result (list Issue) :=
  match in_columns (fst entry) df with
  | None => Ok []
  | Some name =>
      (unique <- Js.get (snd entry) "unique" JNull ;;
       if scalar_eqb unique (JBool true) then
         let n := count_true (duplicated (dropna (column_values df name))) in
         Ok (if (0 <? n)%nat then
               [ {| field := name; rule := "cde_uniqueness"; sev := CRITICAL;
                    invalid_count := n;
                    sample_invalid := None;
                    message := "CDE field '" ++ name ++ "' has " ++ str_nat n
                               ++ " duplicate values but is marked as unique" |} ]
             else [])
       else Ok [])%py
  end.

(** [cde_rules]: empty unless a path is given and exists *)
Definition load_cde_rules (env : Env) (cde_config_path : string) : result dict :=
  if negb (String.eqb cde_config_path EmptyString) && path_exists env cde_config_path then
    (config <- json_load env cde_config_path ;;
     cdes <- Js.get config "critical_data_elements" (JArr []) ;;
     items <- Js.iter cdes ;;
     for_each (fun rules cde => key <- Js.getitem cde "field" ;; Js.setitem rules key cde)
              items [])%py
  else Ok [].

Definition concatM {A B} (f : A -> result (list B)) (l : list A) : result (list B) :=
  (ls <- mapM f l ;; Ok (List.concat ls))%py.

Definition count_severity (s : severity) (l : list Issue) : nat :=
  List.length (filter (fun i => severity_eqb (sev i) s) l).

Definition sum_invalid (l : list Issue) : nat :=
  fold_right (fun i acc => (invalid_count i + acc)%nat) O l.

(** The rules in the order of the source; [df'] is the frame once the date
    rule has run. *)
Definition run_rules (env : Env) (df : DataFrame) (cde_rules : dict)
    : result (DataFrame * list Issue) :=
  (let email := check_format env df "email" email_pattern HIGH "email" in
   let phone := check_format env df "phone" (phone_pattern env) MEDIUM "phone" in
   r <- check_dob env df ;;
   let (df', dob) := (r : DataFrame * list Issue) in
   balance <- check_numeric df' "account_balance" "negative_value" negative
                " records have negative account balance" ;;
   score <- check_numeric df' "credit_score" "range_validation" outside_score_range
                " records have credit score outside valid range (300-850)" ;;
   nulls <- concatM (check_not_nullable df') cde_rules ;;
   dups <- concatM (check_unique df') cde_rules ;;
   Ok (df', (email ++ phone ++ dob ++ balance ++ score ++ nulls ++ dups)%list))%py.

Definition validation_result (df : DataFrame) (l : list Issue) : result ValidationResult :=
  (density <- int_truediv (sum_invalid l) (Pd.len df * List.length (columns df)) ;;
   Ok {| total_records := Pd.len df;
         total_issues := List.length l;
         critical_issues := count_severity CRITICAL l;
         high_issues := count_severity HIGH l;
         medium_issues := count_severity MEDIUM l;
         validity_score := round (1 - density) 4;
         issues := l |})%py.

Definition ValidatorTool_run (env : Env) (file_path cde_config_path : string)
    : output ValidationResult :=
  try_except
    (df <- read_table env file_path ;;
     cde_rules <- load_cde_rules env cde_config_path ;;
     r <- run_rules env df cde_rules ;;
     res <- validation_result (fst r) (snd r) ;;
     Ok (Json res))%py
    (fun e => Text ("Error validating data: " ++ exn_str e)).

(* ================================================================== *)
(** ** [AnomalyDetectorTool] *)
(* ================================================================== *)


(** The [stats] block of a report, every figure rounded to two decimals *)
Record AnomalyStats := mkAnomalyStats {
  st_mean : Q;
  st_std : Q;
  st_Q1 : Q;
  st_Q3 : Q;
  st_IQR : Q
}.

(** An entry of [anomalies] *)
Record AnomalyReport := mkAnomalyReport {
  ar_column : string;
  outliers_zscore : nat;
  outliers_iqr : nat;
  stats : AnomalyStats
}.

Record AnomalyResult := mkAnomalyResult {
  numeric_columns_analyzed : nat;
  columns_with_anomalies : nat;
  anomalies : list AnomalyReport
}.

(** [df.select_dtypes(include=['number'])] *)
Definition numeric_cols (df : DataFrame) : list Series :=
  filter (fun s => is_numeric_dtype (dt s)) df.

(** The body of the loop over the numeric columns: [None] is [continue] or
    a column with no outlier, [Some] what is appended. *)
Definition analyze_column (col : Series) : option AnomalyReport :=
  let col_data := numbers (values col) in
  if (List.length col_data <? 3)%nat then None
  else
    let outliers_z := Stats.outliers_z col_data in
    let outliers_iqr := Stats.outliers_iqr col_data in
    if (0 <? outliers_z)%nat || (0 <? outliers_iqr)%nat then
      let Q1 := Stats.quantile col_data (1 # 4) in
      let Q3 := Stats.quantile col_data (3 # 4) in
      Some {| ar_column := label col;
              outliers_zscore := outliers_z;
              outliers_iqr := outliers_iqr;
              stats := {| st_mean := round (Stats.mean col_data) 2;
                          st_std := round_sqrt (Stats.svar col_data) 2;
                          st_Q1 := round Q1 2;
                          st_Q3 := round Q3 2;
                          st_IQR := round (Q3 - Q1) 2 |} |}
    else None.

Fixpoint collect {A B} (f : A -> option B) (l : list A) : list B :=
  match l with
  | [] => []
  | a :: l' =>
      match f a with
      | Some b => b :: collect f l'
      | None => collect f l'
      end
  end.

Definition AnomalyDetectorTool_run (env : Env) (file_path : string) : output AnomalyResult :=
  try_except
    (df <- read_table env file_path ;;
     let found := collect analyze_column (numeric_cols df) in
     Ok (Json {| numeric_columns_analyzed := List.length (numeric_cols df);
                 columns_with_anomalies := List.length found;
                 anomalies := found |}))%py
    (fun e => Text ("Error detecting anomalies: " ++ exn_str e)).

(* ================================================================== *)
(** ** [settings.py] *)
(* ================================================================== *)

(** Fields matching these patterns are auto-flagged as CDEs *)
Definition CDE_PATTERNS : list string :=
  [ "customer_id"; "account_id"; "transaction_id";
    "ssn"; "tax_id"; "ein";
    "email"; "phone"; "address";
    "balance"; "amount"; "revenue";
    "date_of_birth"; "dob";
    "name"; "first_name"; "last_name" ].

(* ================================================================== *)
(** * Vocabulary of the statements *)
(* ================================================================== *)

(** ** Loader *)

Definition load_error (e : exn) : string := "Error loading file: " ++ exn_str e.

(** The reader the extension selects, if any. *)
Definition reader_for (env : Env) (file_path : string) : option (result DataFrame) :=
  if Str.endswith file_path ".csv" then Some (read_csv env file_path)
  else if Str.endswith file_path ".json" then Some (read_json env file_path)
  else None.

(** ** CDE configuration *)

Definition cde_error (e : exn) : string := "Error loading CDE config: " ++ exn_str e.

(** [obj[key]] when [obj] is a dict holding [key], [default] otherwise *)
Definition field_or (obj : json) (key : string) (default : json) : json :=
  match obj with
  | JObj kv =>
      match Js.lookup kv key with
      | Some v => v
      | None => default
      end
  | _ => default
  end.

Definition has_field (cde : json) : bool :=
  match cde with
  | JObj kv =>
      match Js.lookup kv "field" with
      | Some _ => true
      | None => false
      end
  | _ => false
  end.

(** What the loader can walk as a list of CDE entries: a list of dicts that
    all have a ["field"], or something empty that has a length. *)
Definition readable_entries (cdes : json) : bool :=
  match cdes with
  | JArr l => forallb has_field l
  | JObj [] => true
  | JStr EmptyString => true
  | _ => false
  end.

Definition is_dict (config : json) : bool :=
  match config with
  | JObj _ => true
  | _ => false
  end.

Definition accepted_config (config : json) : bool :=
  is_dict config && readable_entries (field_or config "critical_data_elements" (JArr [])).

Definition entries_of (cdes : json) : list json :=
  match cdes with
  | JArr l => l
  | _ => []
  end.

(** The keys the specification lists for a configuration document. *)
Definition documented_keys : list string :=
  ["dataset"; "description"; "critical_data_elements"; "quality_thresholds"].

Definition lacks_key (config : json) (key : string) : bool :=
  match config with
  | JObj kv =>
      match Js.lookup kv key with
      | Some _ => false
      | None => true
      end
  | _ => true
  end.

(** ** Sample inputs *)

Definition digit_value (c : ascii) : option Z :=
  if Re.is_digit c then Some (Z.of_nat (nat_of_ascii c) - 48)%Z else None.

Fixpoint number_of (s : list ascii) (acc : Z) : option Z :=
  match s with
  | [] => Some acc
  | c :: s' =>
      match digit_value c with
      | Some d => number_of s' (10 * acc + d)%Z
      | None => None
      end
  end.

(** Days since 1970-01-01 of a civil date *)
Definition days_from_civil (y m d : Z) : Z :=
  let y' := if (m <=? 2)%Z then (y - 1)%Z else y in
  let era := (y' / 400)%Z in
  let yoe := (y' - era * 400)%Z in
  let mp := if (2 <? m)%Z then (m - 3)%Z else (m + 9)%Z in
  let doy := ((153 * mp + 2) / 5 + d - 1)%Z in
  let doe := (yoe * 365 + yoe / 4 - yoe / 100 + doy)%Z in
  (era * 146097 + doe - 719468)%Z.

(** [YYYY-MM-DD] *)
Definition iso_date (s : string) : option Z :=
  match list_ascii_of_string s with
  | [y1; y2; y3; y4; "-"%char; m1; m2; "-"%char; d1; d2] =>
      match number_of [y1; y2; y3; y4] 0, number_of [m1; m2] 0, number_of [d1; d2] 0 with
      | Some y, Some m, Some d => Some (days_from_civil y m d)
      | _, _, _ => None
      end
  | _ => None
  end.

(** A date parser for the sample inputs: ISO dates at midnight, every other
    text missing. *)
Definition iso_to_datetime (l : list cell) : list cell :=
  map (fun c =>
         match c with
         | Txt s =>
             match iso_date s with
             | Some d => Tm (d * ns_per_day)
             | None => NA
             end
         | Tm ns => Tm ns
         | _ => NA
         end) l.

(** [str] of the cells the sample inputs hold besides texts *)
Definition render_sample (c : cell) : string :=
  match c with
  | NA => "nan"
  | Num q => if (Qnum q <? 0)%Z then "-" ++ str_nat (Z.to_nat (- Qfloor q)) else str_nat (Z.to_nat (Qfloor q))
  | Txt s => s
  | Tm _ => "NaT"
  end.

Definition no_such_file : exn := Exn FileNotFoundError "[Errno 2] No such file or directory".

(** A world with one data file and at most one configuration document,
    on 2026-11-03. *)
(** The digits U+0660 to U+0669, the only ones of the sample world beyond
    those of ASCII *)
Definition arabic_indic_digits : list string :=
  map (fun k => Str.bytes [217; 160 + k]%nat) (seq 0 10).

Definition sample_env (table : result DataFrame) (config : option (result json)) : Env :=
  {| read_csv := fun _ => table;
     read_json := fun _ => table;
     path_exists := fun _ => match config with Some _ => true | None => false end;
     json_load := fun _ => match config with Some c => c | None => Raise no_such_file end;
     today := days_from_civil 2026 11 3;
     to_datetime := iso_to_datetime;
     render := render_sample;
     decimal_digits := arabic_indic_digits;
     memory_usage_mb := fun _ => 0 |}.

(** ** CDE vocabulary *)

(** The fallback the specification describes: a column is critical when
    its name contains an entry of [CDE_PATTERNS], letter case ignored. *)
Definition matches_cde_vocabulary (name : string) : bool :=
  existsb (fun p => Str.contains (Str.lower p) (Str.lower name)) CDE_PATTERNS.

(** ** Sample tables *)

(** Three customers: one malformed e-mail address, one missing. *)
Definition customers : DataFrame :=
  [ mkSeries "customer_id" int64 [Num 1; Num 2; Num 3];
    mkSeries "email" object [Txt "ann@example.com"; Txt "not-an-email"; NA];
    mkSeries "account_balance" float64 [Num 120; Num (-35); NA] ].

(** A delimited file that has a header line and no row *)
Definition header_only : DataFrame :=
  [ mkSeries "customer_id" object []; mkSeries "email" object [] ].

(** Two customers, the second born a week after the day of [sample_env] *)
Definition newborns : DataFrame :=
  [ mkSeries "customer_id" int64 [Num 1; Num 2];
    mkSeries "date_of_birth" object [Txt "1990-04-12"; Txt "2026-11-10"] ].

(** Two rows that break the e-mail format with one and the same text *)
Definition bad_emails : DataFrame :=
  [ mkSeries "email" object [Txt "nobody"; Txt "nobody"] ].

(** A configuration that declares [email] non-nullable and unique *)
Definition email_is_cde : json :=
  JObj [ ("dataset", JStr "customers");
         ("critical_data_elements",
          JArr [ JObj [ ("field", JStr "email");
                        ("nullable", JBool false);
                        ("unique", JBool true) ] ]) ].

(** ** Validator *)

(** The present numbers of a column that satisfy [test] *)
Definition count_numbers (test : Q -> bool) (l : list cell) : nat :=
  List.length
    (filter (fun c => match c with Num q => test q | _ => false end) l).

(** The rules of the fixed catalog, and the two rules a configuration adds *)
Definition catalog_rules : list string :=
  ["format_validation"; "future_date"; "negative_value"; "range_validation"].

Definition cde_rule_ids : list string := ["cde_not_nullable"; "cde_uniqueness"].

(** What an issue carries as a sample: for a catalog rule the first
    offending values, three at most; for a CDE rule no such key. *)
Definition sample_shape (i : Issue) : Prop :=
  (Str.mem (rule i) catalog_rules = true
   /\ exists l, sample_invalid i = Some l
                /\ List.length l = Nat.min 3 (invalid_count i))
  \/ (Str.mem (rule i) cde_rule_ids = true /\ sample_invalid i = None).

(** The values a rule of the catalog holds against a table, in the order
    of the rows: the present cells whose text is not of the pattern, *)
Definition mismatching (env : Env) (pattern : Re.regex) (l : list cell) : list cell :=
  filter (fun c => notna c && negb (Re.match_anchored pattern (astype_str env c))) l.

(** the numbers that fail the test, *)
Definition failing_numbers (test : Q -> bool) (l : list cell) : list cell :=
  filter (fun c => match c with Num q => test q | _ => false end) l.

(** the dates of birth, as texts, that are parsed to a day after today. *)
Definition future_births (env : Env) (l : list cell) : list cell :=
  map (fun p => Txt (astype_str env (fst p)))
    (filter (fun p => match snd p with
                      | Tm ns => (today env <? ns / ns_per_day)%Z
                      | _ => false
                      end)
            (combine l (to_datetime env l))).

Definition offending (env : Env) (df : DataFrame) (i : Issue) : list cell :=
  if String.eqb (rule i) "format_validation" then
    mismatching env
      (if String.eqb (field i) "email" then email_pattern else phone_pattern env)
      (column_values df (field i))
  else if String.eqb (rule i) "future_date" then
    future_births env (column_values df "date_of_birth")
  else if String.eqb (rule i) "negative_value" then
    failing_numbers negative (column_values df "account_balance")
  else if String.eqb (rule i) "range_validation" then
    failing_numbers outside_score_range (column_values df "credit_score")
  else [].

(** The claim that every issue has a sample of at most three values *)
Definition has_bounded_sample (i : Issue) : Prop :=
  exists l, sample_invalid i = Some l /\ (List.length l <= 3)%nat.

(** [x] is a number of [ndigits] decimals, and no other is nearer to [q].
    Half-way between two of them both are nearest: there the code, which
    rounds a binary float, returns one or the other. *)
Definition nearest_decimal (ndigits : nat) (q x : Q) : Prop :=
  exists k : Z,
    x = Qmake k (pow10 ndigits)
    /\ forall j : Z, Qabs (x - q) <= Qabs (Qmake j (pow10 ndigits) - q).

(** Violations over cells, as a rational *)
Definition defect_density (violations cells : nat) : Q :=
  inject_Z (Z.of_nat violations) / inject_Z (Z.of_nat cells).

(** Where an issue of a successful run comes from *)
Inductive origin (env : Env) (df df' : DataFrame) (rules : dict) (i : Issue) : Prop :=
| from_email :
    In i (check_format env df "email" email_pattern HIGH "email") -> origin env df df' rules i
| from_phone :
    In i (check_format env df "phone" (phone_pattern env) MEDIUM "phone") -> origin env df df' rules i
| from_dob dob :
    check_dob env df = Ok (df', dob) -> In i dob -> origin env df df' rules i
| from_balance l :
    check_numeric df' "account_balance" "negative_value" negative
      " records have negative account balance" = Ok l ->
    In i l -> origin env df df' rules i
| from_score l :
    check_numeric df' "credit_score" "range_validation" outside_score_range
      " records have credit score outside valid range (300-850)" = Ok l ->
    In i l -> origin env df df' rules i
| from_nullable entry l :
    check_not_nullable df' entry = Ok l -> In i l -> origin env df df' rules i
| from_unique entry l :
    check_unique df' entry = Ok l -> In i l -> origin env df df' rules i.


(** The issues the sample tables give rise to *)
Definition negative_balance_issue : Issue :=
  {| field := "account_balance"; rule := "negative_value"; sev := HIGH;
     invalid_count := 1; sample_invalid := Some [Num (-35)];
     message := "1 records have negative account balance" |}.

(** ** Anomaly detector *)

(** All the numbers of a column are one and the same. *)
Definition constant (xs : list Q) : Prop :=
  forall x y, In x xs -> In y xs -> x == y.

(** The standardised value of [x], over the reals, for a mean [m] and a
    standard deviation whose square is [var] *)
Definition standardized (m var x : Q) : R :=
  ((Q2R x - Q2R m) / sqrt (Q2R var))%R.

(** What the z-score count says of one value: beyond three population
    standard deviations it is counted, within them it is not.  Of a value
    that stands at exactly three nothing is said: there the rounding of
    the float arithmetic decides. *)
Definition flagged_by_zscore (xs : list Q) (x : Q) (flagged : bool) : Prop :=
  let z := standardized (Stats.mean xs) (Stats.pvar xs) x in
  (0 < Stats.pvar xs -> (3 < Rabs z)%R -> flagged = true)
  /\ (flagged = true -> 0 < Stats.pvar xs /\ (3 <= Rabs z)%R).

(** The count the specification words describe: standardise with the
    sample standard deviation, the one that divides by [n - 1]. *)
Definition outliers_z_sample_std (xs : list Q) : nat :=
  count_true (map (Stats.beyond_3_sigma (Stats.mean xs) (Stats.svar xs)) xs).

(** Eleven amounts with one high value *)
Definition skewed_amounts : list Q := [0; 0; 0; 0; 0; 0; 0; 0; 0; 1; 4].

Definition amounts : Series := mkSeries "amount" int64 (map Num skewed_amounts).

(** What the detector reports of them *)
Definition amounts_report : AnomalyReport :=
  {| ar_column := "amount"; outliers_zscore := 1; outliers_iqr := 2;
     stats := {| st_mean := 45 # 100; st_std := 121 # 100;
                 st_Q1 := 0 # 100; st_Q3 := 0 # 100; st_IQR := 0 # 100 |} |}.

(** Four rows: a score column with two present values, a constant branch
    column *)
Definition sparse_scores : DataFrame :=
  [ mkSeries "credit_score" float64 [Num 700; NA; NA; Num 900000];
    mkSeries "branch" int64 [Num 5; Num 5; Num 5; Num 5] ].

(* ================================================================== *)
(** * Vocabulary of the further properties *)
(* ================================================================== *)

(** ** Validator *)

(** The field, rule and severity an issue can have; a CDE rule bears on the
    field its configuration entry names. *)
Definition in_rule_table (i : Issue) : Prop :=
  (field i = "email" /\ rule i = "format_validation" /\ sev i = HIGH)
  \/ (field i = "phone" /\ rule i = "format_validation" /\ sev i = MEDIUM)
  \/ (field i = "date_of_birth" /\ rule i = "future_date" /\ sev i = CRITICAL)
  \/ (field i = "account_balance" /\ rule i = "negative_value" /\ sev i = HIGH)
  \/ (field i = "credit_score" /\ rule i = "range_validation" /\ sev i = HIGH)
  \/ (rule i = "cde_not_nullable" /\ sev i = CRITICAL)
  \/ (rule i = "cde_uniqueness" /\ sev i = CRITICAL).

(** What every emitted issue satisfies, whatever rule it comes from: it is
    a line of the rule table, it counts at least one row, and its field is
    a column of the frame the rules ran on, with at least as many rows as
    the issue counts. *)
Record sound_issue (df' : DataFrame) (i : Issue) : Prop := mkSound {
  sound_table : in_rule_table i;
  sound_positive : (1 <= invalid_count i)%nat;
  sound_column : exists col, Pd.getitem df' (field i) = Some col
                             /\ (invalid_count i <= List.length (values col))%nat
}.

(** The run of the validator over the sample customers with [email]
    declared critical, and what it returns *)
Definition cde_env : Env := sample_env (Ok customers) (Some (Ok email_is_cde)).

Definition missing_email_issue : Issue :=
  {| field := "email"; rule := "cde_not_nullable"; sev := CRITICAL;
     invalid_count := 1; sample_invalid := None;
     message := "CDE field 'email' has 1 null values but is marked as non-nullable" |}.

Definition customers_result : ValidationResult :=
  {| total_records := 3; total_issues := 3; critical_issues := 1;
     high_issues := 2; medium_issues := 0;
     validity_score := 6667 # 10000;
     issues :=
       [ {| field := "email"; rule := "format_validation"; sev := HIGH;
            invalid_count := 1; sample_invalid := Some [Txt "not-an-email"];
            message := "1 records have invalid email format" |};
         negative_balance_issue;
         missing_email_issue ] |}.

(** A cell a comparison with a number rejects *)
Definition not_comparable (c : cell) : Prop :=
  match c with
  | Txt _ | Tm _ => True
  | NA | Num _ => False
  end.

(** A table whose balances were read as texts *)
Definition text_balances : DataFrame :=
  [ mkSeries "email" object [Txt "nobody"; Txt "ann@example.com"];
    mkSeries "account_balance" object [Txt "12,50"; Txt "7"] ].

(** A configuration about a field the sample customers do not have *)
Definition iban_is_cde : json :=
  JObj [ ("critical_data_elements",
          JArr [ JObj [ ("field", JStr "iban");
                        ("nullable", JBool false);
                        ("unique", JBool true) ] ]) ].

(** [l] is [m] with some elements left out, the order kept. *)
Inductive subseq {A : Type} : list A -> list A -> Prop :=
| subseq_nil : subseq [] []
| subseq_skip x l m : subseq l m -> subseq l (x :: m)
| subseq_take x l m : subseq l m -> subseq (x :: l) (x :: m).

(** The field and rule of the catalog, in the order the validator runs
    them *)
Definition catalog_order : list (string * string) :=
  [ ("email", "format_validation");
    ("phone", "format_validation");
    ("date_of_birth", "future_date");
    ("account_balance", "negative_value");
    ("credit_score", "range_validation") ].

Definition issue_key (i : Issue) : string * string := (field i, rule i).

(** No key of a dict equals a later one. *)
Fixpoint distinct_keys (d : dict) : Prop :=
  match d with
  | [] => True
  | (k, _) :: d' =>
      (forall k', In k' (map fst d') -> scalar_eqb k k' = false) /\ distinct_keys d'
  end.

(** A configuration that declares [email] twice *)
Definition email_twice : json :=
  JObj [ ("critical_data_elements",
          JArr [ JObj [ ("field", JStr "email"); ("nullable", JBool false) ];
                 JObj [ ("field", JStr "email"); ("nullable", JBool false);
                        ("unique", JBool true) ] ]) ].

(** ** Profiler *)

(** The result of profiling the sample customers with [email] and a field
    they do not have declared critical *)
Definition customers_profile : output ProfileSummary :=
  ProfilerTool_run (sample_env (Ok customers) None) "customers.csv" "email, iban".

(** [s] begins, ends, with a white-space character. *)
Definition starts_blank (s : string) : bool :=
  existsb (fun w => String.prefix w s) Str.whitespace.

Definition ends_blank (s : string) : bool :=
  existsb (fun w => Str.endswith s w) Str.whitespace.

Fixpoint no_comma (s : string) : bool :=
  match s with
  | EmptyString => true
  | String c s' => negb (Ascii.eqb c ","%char) && no_comma s'
  end.

(** A name that can stand in a comma-separated list: not empty, no comma,
    no white space at either end *)
Definition plain_name (s : string) : bool :=
  negb (String.eqb s EmptyString) && negb (starts_blank s) && negb (ends_blank s)
  && no_comma s.

(** ** Anomaly detector *)

(** The six figures of the specification's scenario *)
Definition scenario_amounts : Series :=
  mkSeries "amount" int64 [Num 10; Num 12; Num 11; Num 13; Num 12; Num 1000].

(** A table with a text column, a short numeric column and the scenario's
    amounts *)
Definition mixed_table : DataFrame :=
  [ mkSeries "name" object [Txt "a"; Txt "b"; Txt "c"; Txt "d"; Txt "e"; Txt "f"];
    mkSeries "score" float64 [Num 1; NA; NA; NA; NA; Num 500];
    scenario_amounts ].

(** Each element is at most every later one. *)
Fixpoint ascending (l : list Q) : Prop :=
  match l with
  | [] => True
  | x :: l' => (forall y, In y l' -> x <= y) /\ ascending l'
  end.

(** The value at the fractional rank [h] of the ordered values [s], as
    [Stats.quantile] interpolates it *)
Definition rank_value (s : list Q) (h : Q) : Q :=
  let lo := Z.to_nat (Qfloor h) in
  let a := nth lo s 0 in
  let b := nth (S lo) s a in
  a + (h - inject_Z (Qfloor h)) * (b - a).

(** ** Patterns *)

(** The texts a pattern denotes *)
Inductive matches : Re.regex -> string -> Prop :=
| matches_eps : matches Re.Eps EmptyString
| matches_class p c : p c = true -> matches (Re.Class p) (String c EmptyString)
| matches_cat r1 r2 s1 s2 :
    matches r1 s1 -> matches r2 s2 -> matches (Re.Cat r1 r2) (s1 ++ s2)
| matches_alt_l r1 r2 s : matches r1 s -> matches (Re.Alt r1 r2) s
| matches_alt_r r1 r2 s : matches r2 s -> matches (Re.Alt r1 r2) s
| matches_star_nil r : matches (Re.Star r) EmptyString
| matches_star_cons r s1 s2 :
    matches r s1 -> matches (Re.Star r) s2 -> matches (Re.Star r) (s1 ++ s2).

(** Every character of a text satisfies [p]. *)
Fixpoint all_chars (p : ascii -> bool) (s : string) : bool :=
  match s with
  | EmptyString => true
  | String c s' => p c && all_chars p s'
  end.

(** [c in s] *)
Fixpoint has_char (c : ascii) (s : string) : bool :=
  match s with
  | EmptyString => false
  | String c' s' => Ascii.eqb c' c || has_char c s'
  end.

(** Nothing, or the line feed that [$] lets through *)
Definition line_end (e : string) : Prop :=
  e = EmptyString \/ e = String Re.newline EmptyString.

(** The three classes of the e-mail pattern *)
Definition email_local (c : ascii) : bool :=
  Re.is_alnum c || Re.one_of ["_"; "."; "+"; "-"]%char c.

Definition email_host (c : ascii) : bool :=
  Re.is_alnum c || Re.one_of ["-"]%char c.

Definition email_tail (c : ascii) : bool :=
  Re.is_alnum c || Re.one_of ["-"; "."]%char c.

(** A run of [n] digits *)
Definition decimal_digit (env : Env) (d : string) : Prop :=
  (exists c, Re.is_digit c = true /\ d = String c EmptyString)
  \/ In d (decimal_digits env).

Definition digits (env : Env) (n : nat) (s : string) : Prop :=
  exists ds,
    List.length ds = n /\ Forall (decimal_digit env) ds
    /\ s = String.concat EmptyString ds.

(** The present cells of a column whose text is not of the pattern *)
Definition mismatches (env : Env) (pattern : Re.regex) (l : list cell) : nat :=
  count_true (format_mask env pattern l).

(** A configuration entry asks for the check a CDE rule stands for. *)
Definition asks_for (entry : json) (rule_id : string) : Prop :=
  (rule_id = "cde_not_nullable"
   -> scalar_eqb (field_or entry "nullable" JNull) (JBool false) = true)
  /\ (rule_id = "cde_uniqueness"
      -> scalar_eqb (field_or entry "unique" JNull) (JBool true) = true).

(** The columns the fixed rules of the validator look for *)
Definition catalog_columns : list string :=
  ["email"; "phone"; "date_of_birth"; "account_balance"; "credit_score"].

(** ** Profiler statistics *)

(** What the four numeric figures of a profile say of the numbers [xs] of
    its column *)
Definition describes_numbers (ns : NumericStats) (xs : list Q) : Prop :=
  match ns_min ns, ns_max ns, ns_mean ns, ns_std ns with
  | Some lo, Some hi, Some _, Some sd =>
      In lo xs /\ In hi xs
      /\ (forall x, In x xs -> lo <= x /\ x <= hi)
      /\ match sd with
         | NaN => List.length xs = 1%nat
         | Fin d => (2 <= List.length xs)%nat /\ 0 <= d
         | _ => False
         end
  | None, None, None, None => xs = []
  | _, _, _, _ => False
  end.

(** What the three text figures of a profile say of the texts [ts] of the
    present cells of its column *)
Definition describes_texts (st : TextStats) (ts : list string) : Prop :=
  sample_values st = firstn 3 ts
  /\ (List.length (sample_values st) <= 3)%nat
  /\ match min_length st, max_length st with
     | Some lo, Some hi =>
         (forall t, In t ts -> (lo <= Str.len t <= hi)%nat)
         /\ (exists t, In t ts /\ Str.len t = lo)
         /\ (exists t, In t ts /\ Str.len t = hi)
     | None, None => ts = []
     | _, _ => False
     end.

Definition customers_balance_stats : NumericStats :=
  {| ns_min := Some (-35); ns_max := Some 120;
     ns_mean := Some (4250 # 100); ns_std := Some (Fin (10960 # 100)) |}.

(** A column with at least one row and no missing cell *)
Definition complete (col : Series) : Prop :=
  values col <> [] /\ forallb notna (values col) = true.

(** ** Dataset loader *)

(** [json.dumps] writes a dict as a text that opens with a brace. *)
Definition writes_objects {A} (dumps : A -> string) : Prop :=
  forall a, exists rest, dumps a = String "{" rest.

(** [name] is what follows the last slash of [path], the whole of it when
    it has none. *)
Definition follows_last_slash (path name : string) : Prop :=
  has_char "/" name = false
  /\ exists dir,
       path = (dir ++ name)%string
       /\ (dir = EmptyString \/ exists d, dir = (d ++ "/")%string).

(** [rows] are the first three rows of [df], all of them when it has
    fewer: row [i] gives, in the order of the columns, each column name
    with the cell of that column at [i]. *)
Definition first_rows_of (df : DataFrame) (rows : list (list (string * cell))) : Prop :=
  List.length rows = Nat.min 3 (Pd.len df)
  /\ forall i row, nth_error rows i = Some row ->
       map fst row = map label df
       /\ forall j col, nth_error df j = Some col ->
            nth_error row j = Some (label col, nth i (values col) NA).

(** A stand-in for [json.dumps] in the sample world *)
Definition sample_dumps (info : LoadInfo) : string :=
  ("{" ++ li_file info ++ "}")%string.

(** Two worlds whose reader fails with the same message, for a missing
    file in one and for a malformed one in the other *)
Definition missing_file_env : Env :=
  sample_env (Raise (Exn FileNotFoundError "cannot read customers.csv")) None.

Definition malformed_file_env : Env :=
  sample_env (Raise (Exn ParserError "cannot read customers.csv")) None.

(** ** Texts beyond ASCII *)

(** Four callers: a well-formed number, one whose last digit is the
    Arabic-Indic zero U+0660, one without dashes, and none *)
Definition callers : DataFrame :=
  [ mkSeries "phone" object
      [ Txt "555-123-4567";
        Txt ("555-123-456" ++ Str.bytes [217; 160]%nat);
        Txt "5551234567";
        NA ] ].

Definition callers_env : Env := sample_env (Ok callers) None.

(** Two patrons; the first name is four characters, the last of them, e
    with an acute accent (U+00E9), held in two bytes *)
Definition patrons : DataFrame :=
  [ mkSeries "name" object [ Txt ("Jos" ++ Str.bytes [195; 169]%nat); Txt "Ann"; NA ] ].

Definition patrons_env : Env := sample_env (Ok patrons) None.

(** What a tool hands back, the structure when there is one *)
Definition structure_of {A} (default : A) (o : output A) : A :=
  match o with
  | Json a => a
  | Text _ => default
  end.
(* ================================================================== *)
(** * Properties *)
(* ================================================================== *)

(** ** Control *)

Lemma bind_Ok {A B} (m : result A) (k : A -> result B) (b : B) :
  Py.bind m k = Ok b -> exists a, m = Ok a /\ k a = Ok b.
Proof.
  destruct m as [a | e]; simpl; intros H.
  - exists a. split; [reflexivity | exact H].
  - discriminate H.
Qed.

Lemma try_except_Json {A} (body : result (output A)) (h : exn -> string) (a : A) :
  try_except body (fun e => Text (h e)) = Json a -> body = Ok (Json a).
Proof.
  destruct body as [o | e]; simpl; intros H.
  - rewrite H. reflexivity.
  - discriminate H.
Qed.

(** Peel the binds of a computation known to succeed. *)
Ltac ok_inv H :=
  let a := fresh "v" in
  let Ha := fresh "E" in
  apply bind_Ok in H; destruct H as [a [Ha H]].

Tactic Notation "peel" hyp(H) "as" ident(a) ident(Ha) :=
  apply bind_Ok in H; destruct H as [a [Ha H]].

Lemma mapM_length {A B} (f : A -> result B) (l : list A) (bs : list B) :
  mapM f l = Ok bs -> List.length bs = List.length l.
Proof.
  revert bs. induction l as [| a l IH]; simpl; intros bs H.
  - injection H as <-. reflexivity.
  - ok_inv H. ok_inv H. injection H as <-. simpl. f_equal. apply IH. assumption.
Qed.

(* ------------------------------------------------------------------ *)
(** ** The dataset loader *)
(* ------------------------------------------------------------------ *)

Lemma load_error_not_unsupported (e : exn) : load_error e <> unsupported_format.
Proof. unfold load_error, unsupported_format. simpl. intros H. discriminate H. Qed.

Lemma head_records_length (n : nat) (df : DataFrame) :
  List.length (head_records n df) = Nat.min n (Pd.len df).
Proof. unfold head_records. rewrite length_map, length_seq. reflexivity. Qed.

Lemma rev_string_twice (s acc acc' : string) :
  Str.rev_string (Str.rev_string s acc) acc' = Str.rev_string acc (s ++ acc').
Proof.
  revert acc acc'. induction s as [| c s IH]; intros acc acc'; simpl.
  - reflexivity.
  - rewrite IH. reflexivity.
Qed.

Lemma append_empty (s : string) : s ++ EmptyString = s.
Proof. induction s as [| c s IH]; simpl; [reflexivity | rewrite IH; reflexivity]. Qed.

Lemma rev_string_involutive (s : string) :
  Str.rev_string (Str.rev_string s EmptyString) EmptyString = s.
Proof. rewrite rev_string_twice. simpl. apply append_empty. Qed.

Lemma append_assoc_string (a b c : string) : ((a ++ b) ++ c = a ++ (b ++ c))%string.
Proof. induction a as [| x a IH]; simpl; [reflexivity | rewrite IH; reflexivity]. Qed.

Lemma rev_string_acc (s acc : string) :
  Str.rev_string s acc = (Str.rev_string s EmptyString ++ acc)%string.
Proof.
  revert acc. induction s as [| c s IH]; intros acc; simpl; [reflexivity |].
  rewrite (IH (String c acc)), (IH (String c EmptyString)).
  rewrite append_assoc_string. reflexivity.
Qed.

Lemma has_char_rev (c : ascii) (s acc : string) :
  has_char c (Str.rev_string s acc) = has_char c s || has_char c acc.
Proof.
  revert acc. induction s as [| x s IH]; intros acc; simpl; [reflexivity |].
  rewrite IH. simpl. destruct (Ascii.eqb x c), (has_char c s); reflexivity.
Qed.

Lemma split_acc_nonempty (sep : ascii) (s cur : string) : Str.split_acc sep s cur <> [].
Proof.
  revert cur. induction s as [| c s IH]; intros cur; simpl; [discriminate |].
  destruct (Ascii.eqb c sep); [discriminate | apply IH].
Qed.

(** The last piece of a split has no separator, and what stands before it
    is empty or ends with one. *)
Lemma split_acc_last (sep : ascii) (s cur : string) :
  has_char sep cur = false ->
  has_char sep (last (Str.split_acc sep s cur) EmptyString) = false
  /\ exists dir,
       (Str.rev_string cur EmptyString ++ s
        = dir ++ last (Str.split_acc sep s cur) EmptyString)%string
       /\ (dir = EmptyString \/ exists d, dir = (d ++ String sep EmptyString)%string).
Proof.
  revert cur. induction s as [| c s IH]; intros cur Hcur; simpl.
  - split; [rewrite has_char_rev, Hcur; reflexivity |].
    exists EmptyString. split; [apply append_empty | left; reflexivity].
  - destruct (Ascii.eqb c sep) eqn:Ec.
    + apply Ascii.eqb_eq in Ec. subst c.
      destruct (IH EmptyString eq_refl) as (Hname & dir & Hdir & Hend).
      simpl in Hdir.
      destruct (Str.split_acc sep s EmptyString) as [| piece pieces] eqn:Es;
        [exfalso; exact (split_acc_nonempty sep s EmptyString Es) |].
      change (last (Str.rev_string cur EmptyString :: piece :: pieces) EmptyString)
        with (last (piece :: pieces) EmptyString).
      split; [exact Hname |].
      exists (Str.rev_string cur EmptyString ++ String sep dir)%string. split.
      * rewrite Hdir, append_assoc_string. reflexivity.
      * right. destruct Hend as [-> | (d & ->)].
        -- exists (Str.rev_string cur EmptyString). reflexivity.
        -- exists (Str.rev_string cur EmptyString ++ String sep d)%string.
           rewrite append_assoc_string. reflexivity.
    + destruct (IH (String c cur)) as (Hname & dir & Hdir & Hend).
      { simpl. rewrite Ec, Hcur. reflexivity. }
      split; [exact Hname |]. exists dir. split; [| exact Hend].
      rewrite <- Hdir. simpl. rewrite (rev_string_acc cur (String c EmptyString)).
      rewrite append_assoc_string. reflexivity.
Qed.

Lemma basename_follows_last_slash (path : string) :
  follows_last_slash path (Str.basename path).
Proof.
  unfold follows_last_slash, Str.basename, Str.split.
  destruct (split_acc_last "/" path EmptyString eq_refl) as (Hname & dir & Hdir & Hend).
  split; [exact Hname |]. exists dir. split; [exact Hdir | exact Hend].
Qed.

Lemma head_records_rows (n : nat) (df : DataFrame) (i : nat)
    (row : list (string * cell)) :
  nth_error (head_records n df) i = Some row ->
  map fst row = map label df
  /\ forall j col, nth_error df j = Some col ->
       nth_error row j = Some (label col, nth i (values col) NA).
Proof.
  unfold head_records. intros H.
  assert (Hi : (i < Nat.min n (Pd.len df))%nat).
  { assert (Hs : nth_error (map (record_at df) (seq 0 (Nat.min n (Pd.len df)))) i <> None)
      by (rewrite H; discriminate).
    apply nth_error_Some in Hs. rewrite length_map, length_seq in Hs. exact Hs. }
  rewrite nth_error_map in H.
  rewrite (nth_error_nth' _ O) in H by (rewrite length_seq; exact Hi).
  rewrite seq_nth in H by exact Hi. simpl in H. injection H as <-.
  unfold record_at. split.
  - rewrite map_map. reflexivity.
  - intros j col Hcol. rewrite nth_error_map, Hcol. reflexivity.
Qed.

(** C8, as the code has it.  The loader hands back a text for every path
    and raises nothing.  The text is the fixed unsupported-format message
    when the path ends in neither [.csv] nor [.json]; ["Error loading
    file: "] followed by [str(e)] when the reader of the extension raises
    [e]; and otherwise what [json.dumps] writes of the structure: what
    follows the last slash of the path, the numbers of rows and of
    columns, the column names in order, the first three rows (all of them
    when there are fewer), each a dict from the column names to the cells
    of the row, and the memory usage.  The three kinds of text are told
    apart by how they begin, a JSON text opening with a brace. *)
Theorem data_loader_contract (dumps : LoadInfo -> string) (env : Env)
    (file_path : string) :
  writes_objects dumps ->
  let answer := DataLoaderTool_text dumps env file_path in
  match reader_for env file_path with
  | None =>
      Str.endswith file_path ".csv" = false
      /\ Str.endswith file_path ".json" = false
      /\ answer = unsupported_format
  | Some (Raise e) => answer = ("Error loading file: " ++ exn_str e)%string
  | Some (Ok df) =>
      exists info,
        answer = dumps info
        /\ follows_last_slash file_path (li_file info)
        /\ li_rows info = Pd.len df
        /\ li_columns info = List.length df
        /\ li_column_names info = map label df
        /\ first_rows_of df (li_sample_rows info)
        /\ li_memory_usage_mb info = memory_usage_mb env df
  end
  /\ (forall info e,
        dumps info <> unsupported_format
        /\ dumps info <> ("Error loading file: " ++ exn_str e)%string
        /\ ("Error loading file: " ++ exn_str e)%string <> unsupported_format).
Proof.
  intros Hdumps. cbn zeta. split.
  - assert (Hinfo : forall df,
              follows_last_slash file_path (li_file (load_info env file_path df))
              /\ li_rows (load_info env file_path df) = Pd.len df
              /\ li_columns (load_info env file_path df) = List.length df
              /\ li_column_names (load_info env file_path df) = map label df
              /\ first_rows_of df (li_sample_rows (load_info env file_path df))
              /\ li_memory_usage_mb (load_info env file_path df)
                 = memory_usage_mb env df).
    { intros df. unfold load_info. cbn [li_file li_rows li_columns li_column_names
                                         li_sample_rows li_memory_usage_mb].
      split; [apply basename_follows_last_slash |].
      split; [reflexivity |].
      split; [unfold columns; apply length_map |].
      split; [reflexivity |].
      split; [| reflexivity].
      split; [apply head_records_length | apply head_records_rows]. }
    unfold reader_for, DataLoaderTool_text, DataLoaderTool_run.
    destruct (Str.endswith file_path ".csv").
    + destruct (read_csv env file_path) as [df | e]; simpl; [| reflexivity].
      exists (load_info env file_path df). split; [reflexivity | apply Hinfo].
    + destruct (Str.endswith file_path ".json").
      * destruct (read_json env file_path) as [df | e]; simpl; [| reflexivity].
        exists (load_info env file_path df). split; [reflexivity | apply Hinfo].
      * simpl. repeat split.
  - intros info e. destruct (Hdumps info) as [rest ->].
    unfold unsupported_format. simpl. repeat split; discriminate.
Qed.

Lemma data_loader_contract_witness :
  Str.basename "data/customers.csv" = "customers.csv"
  /\ exists info,
       DataLoaderTool_text sample_dumps (sample_env (Ok customers) None)
         "data/customers.csv"
       = sample_dumps info
       /\ follows_last_slash "data/customers.csv" (li_file info)
       /\ li_rows info = 3%nat
       /\ first_rows_of customers (li_sample_rows info).
Proof.
  split; [reflexivity |].
  destruct (data_loader_contract sample_dumps (sample_env (Ok customers) None)
              "data/customers.csv") as [H _].
  - intros info. eexists. reflexivity.
  - simpl in H. destruct H as (info & Hanswer & Hfile & Hlen & _ & _ & Hrows & _).
    exists info. split; [exact Hanswer |]. split; [exact Hfile |].
    split; [exact Hlen | exact Hrows].
Defined.

(** C8 as stated fails: what the caller receives of a failure is a text
    like any other, made of [str(e)] alone.  A missing file and a
    malformed one whose exceptions have the same message are answered
    alike, so the answer tells neither the kind of failure nor its cause;
    and an unsupported extension is answered, not failed on. *)
Lemma loader_failure_is_untyped :
  read_csv missing_file_env "customers.csv"
  = Raise (Exn FileNotFoundError "cannot read customers.csv")
  /\ read_csv malformed_file_env "customers.csv"
     = Raise (Exn ParserError "cannot read customers.csv")
  /\ FileNotFoundError <> ParserError
  /\ forall dumps,
       DataLoaderTool_text dumps missing_file_env "customers.csv"
       = DataLoaderTool_text dumps malformed_file_env "customers.csv"
       /\ DataLoaderTool_text dumps missing_file_env "customers.csv"
          = "Error loading file: cannot read customers.csv"
       /\ DataLoaderTool_text dumps missing_file_env "customers.txt"
          = "Error: Unsupported file format. Use CSV or JSON.".
Proof.
  split; [reflexivity |]. split; [reflexivity |]. split; [discriminate |].
  intros dumps. repeat split.
Qed.

(* ------------------------------------------------------------------ *)
(** ** The CDE loader *)
(* ------------------------------------------------------------------ *)

Lemma fields_of_entries (l : list json) :
  forallb has_field l = true ->
  mapM (fun cde => Js.getitem cde "field") l
  = Ok (map (fun cde => field_or cde "field" JNull) l).
Proof.
  induction l as [| cde l IH]; simpl; intros H.
  - reflexivity.
  - apply andb_prop in H. destruct H as [Hc Hl].
    rewrite (IH Hl).
    destruct cde as [| b | q | s | l0 | kv]; simpl in Hc; try discriminate Hc.
    simpl. destruct (Js.lookup kv "field"); [reflexivity | discriminate Hc].
Qed.

Lemma fields_of_entries_raise (l : list json) :
  forallb has_field l = false ->
  exists e, mapM (fun cde => Js.getitem cde "field") l = Raise e.
Proof.
  induction l as [| cde l IH]; simpl; intros H.
  - discriminate H.
  - destruct (Js.getitem cde "field") as [v | e] eqn:Ecde; simpl.
    + assert (Hc : has_field cde = true).
      { destruct cde as [| b | q | s | l0 | kv]; simpl in Ecde; try discriminate Ecde.
        simpl. destruct (Js.lookup kv "field"); [reflexivity | discriminate Ecde]. }
      rewrite Hc in H. simpl in H. destruct (IH H) as [e He].
      rewrite He. simpl. exists e. reflexivity.
    + exists e. reflexivity.
Qed.

(** C7, as the code has it.  The loader answers with the error text exactly
    when the file cannot be read as JSON, the document is not a dict, or
    its [critical_data_elements] is not a list of dicts that each have a
    ["field"] (an empty dict or text passes too).  No top-level key is
    required: on every other document it returns the dataset label and the
    description ([null] when absent), the number of entries, their field
    names, the threshold overrides (an empty dict when absent) and the
    entries themselves (an empty list when absent). *)
Theorem cde_loader_contract (env : Env) (config_path : string) :
  match json_load env config_path with
  | Raise e => CDELoaderTool_run env config_path = Text (cde_error e)
  | Ok config =>
      if accepted_config config then
        let cdes := field_or config "critical_data_elements" (JArr []) in
        CDELoaderTool_run env config_path
        = Json {| cs_dataset := field_or config "dataset" JNull;
                  cs_description := field_or config "description" JNull;
                  cs_cde_count := List.length (entries_of cdes);
                  cs_cde_fields :=
                    map (fun cde => field_or cde "field" JNull) (entries_of cdes);
                  cs_thresholds := field_or config "quality_thresholds" (JObj []);
                  cs_cde_details := cdes |}
      else exists e, CDELoaderTool_run env config_path = Text (cde_error e)
  end.
Proof.
  unfold CDELoaderTool_run.
  destruct (json_load env config_path) as [config | e]; [| reflexivity].
  unfold accepted_config.
  destruct config as [| b | q | s | l | kv]; simpl;
    try (eexists (Exn TypeError _); reflexivity).
  unfold cde_summary. simpl.
  destruct (Js.lookup kv "critical_data_elements") as [cdes |]; [| reflexivity].
  destruct cdes as [| b | q | s | l | kv']; simpl;
    try (eexists (Exn TypeError _); reflexivity).
  - destruct s as [| c s]; simpl; [reflexivity | eexists (Exn TypeError _); reflexivity].
  - destruct (forallb has_field l) eqn:Hl.
    + rewrite (fields_of_entries l Hl). reflexivity.
    + destruct (fields_of_entries_raise l Hl) as [e He]. rewrite He.
      exists e. reflexivity.
  - destruct kv' as [| [k v] kv']; simpl; [reflexivity | eexists (Exn TypeError _); reflexivity].
Qed.

(** C7 as stated fails both ways.  The document [{}] lacks every
    documented key and is answered with a summary; the document [[]] is
    proper JSON with no key to miss and is answered with the error text. *)
Lemma cde_loader_required_keys_counterexample :
  forallb (lacks_key (JObj [])) documented_keys = true
  /\ CDELoaderTool_run (sample_env (Ok []) (Some (Ok (JObj [])))) "cde_config.json"
     = Json {| cs_dataset := JNull; cs_description := JNull; cs_cde_count := 0;
               cs_cde_fields := []; cs_thresholds := JObj []; cs_cde_details := JArr [] |}
  /\ CDELoaderTool_run (sample_env (Ok []) (Some (Ok (JArr [])))) "cde_config.json"
     = Text "Error loading CDE config: 'list' object has no attribute 'get'".
Proof. repeat split. Qed.

(* ------------------------------------------------------------------ *)
(** ** Rounding and quotients *)
(* ------------------------------------------------------------------ *)

Lemma round_half_even_between (a b : Z) (y : Q) :
  inject_Z a <= y -> y <= inject_Z b ->
  (a <= round_half_even y <= b)%Z.
Proof.
  intros Ha Hb. unfold round_half_even.
  pose proof (Qfloor_le y) as Hf.
  pose proof (Qlt_floor y) as Hc.
  rewrite inject_Z_plus in Hc.
  assert (Hlo : (a <= Qfloor y)%Z).
  { apply Z.lt_succ_r. rewrite Zlt_Qlt. unfold Z.succ. rewrite inject_Z_plus.
    change (inject_Z 1) with 1 in *. lra. }
  assert (Hhi : (Qfloor y <= b)%Z).
  { rewrite Zle_Qle. lra. }
  assert (Hstep : 0 < y - inject_Z (Qfloor y) -> (Qfloor y + 1 <= b)%Z).
  { intros Hpos. apply Z.lt_succ_r. unfold Z.succ. apply Z.add_lt_mono_r.
    rewrite Zlt_Qlt. lra. }
  change (inject_Z 1) with 1 in Hc.
  destruct (Qcompare_spec (y - inject_Z (Qfloor y)) (1 # 2)) as [He | Hl | Hg].
  - destruct (Z.even (Qfloor y)); [lia |].
    assert (0 < y - inject_Z (Qfloor y)) by (rewrite He; reflexivity).
    specialize (Hstep H). lia.
  - lia.
  - assert (0 < y - inject_Z (Qfloor y)) by lra.
    specialize (Hstep H). lia.
Qed.

Lemma round4_unfold (q : Q) :
  Py.round q 4 = Qmake (round_half_even (q * inject_Z 10000)) 10000.
Proof. reflexivity. Qed.

Lemma round4_unit_interval (q : Q) : 0 <= q -> q <= 1 -> 0 <= Py.round q 4 /\ Py.round q 4 <= 1.
Proof.
  intros H0 H1. rewrite round4_unfold.
  destruct (round_half_even_between 0 10000 (q * inject_Z 10000)) as [Hlo Hhi].
  - change (inject_Z 0) with 0. change (inject_Z 10000) with 10000. lra.
  - change (inject_Z 10000) with 10000. lra.
  - unfold Qle; simpl. lia.
Qed.

Lemma ratio_unit_interval (a b : nat) :
  (a <= b)%nat -> (0 < b)%nat ->
  0 <= inject_Z (Z.of_nat a) / inject_Z (Z.of_nat b)
  /\ inject_Z (Z.of_nat a) / inject_Z (Z.of_nat b) <= 1.
Proof.
  intros Hab Hb.
  assert (Hpos : 0 < inject_Z (Z.of_nat b)).
  { change 0 with (inject_Z 0). rewrite <- Zlt_Qlt. lia. }
  split.
  - apply Qle_shift_div_l; [exact Hpos |]. rewrite Qmult_0_l.
    change 0 with (inject_Z 0). rewrite <- Zle_Qle. lia.
  - apply Qle_shift_div_r; [exact Hpos |]. rewrite Qmult_1_l.
    rewrite <- Zle_Qle. lia.
Qed.

(* ------------------------------------------------------------------ *)
(** ** Counting in a column *)
(* ------------------------------------------------------------------ *)

Lemma count_true_map {A} (f : A -> bool) (l : list A) :
  count_true (map f l) = List.length (filter f l).
Proof.
  unfold count_true. induction l as [| a l IH]; simpl; [reflexivity |].
  destruct (f a); simpl; rewrite IH; reflexivity.
Qed.

Lemma count_true_le (mask : list bool) : (count_true mask <= List.length mask)%nat.
Proof. unfold count_true. apply filter_length_le. Qed.

Lemma duplicated_from_length (seen l : list cell) :
  List.length (duplicated_from seen l) = List.length l.
Proof.
  revert seen. induction l as [| c l IH]; simpl; intros seen; [reflexivity |].
  rewrite IH. reflexivity.
Qed.

Lemma nunique_le_non_null (l : list cell) :
  (nunique l <= count_true (map notna l))%nat.
Proof.
  unfold nunique. rewrite (count_true_map notna).
  eapply Nat.le_trans; [apply count_true_le |].
  rewrite length_map. unfold duplicated. rewrite duplicated_from_length.
  unfold dropna. apply Nat.le_refl.
Qed.

Lemma non_null_le_total (l : list cell) :
  (count_true (map notna l) <= List.length l)%nat.
Proof. rewrite count_true_map. apply filter_length_le. Qed.

(* ------------------------------------------------------------------ *)
(** ** The profiler *)
(* ------------------------------------------------------------------ *)

Lemma rounded_ratio_between (a b : nat) :
  (a <= b)%nat -> (0 < b)%nat ->
  float_between 0 1 (round_float (np_truediv a b) 4).
Proof.
  intros Hab Hb. destruct b as [| b']; [lia |].
  unfold np_truediv. cbn [round_float float_between].
  destruct (ratio_unit_interval a (S b') Hab Hb) as [H0 H1].
  apply round4_unit_interval; assumption.
Qed.

(** What holds of every profile: uniqueness lies in the unit interval and
    is 0 when nothing is present; completeness lies there too as soon as
    the column has a row. *)
Lemma profile_column_bounds (env : Env) (cde_list : list string) (col : Series) :
  let p := profile_column env cde_list col in
  float_between 0 1 (uniqueness p)
  /\ (non_null_count p = O -> uniqueness p = Fin 0)
  /\ (values col <> [] -> float_between 0 1 (completeness p)).
Proof.
  cbn zeta. unfold profile_column.
  cbn [uniqueness completeness non_null_count].
  split; [| split].
  - destruct (0 <? count_true (map notna (values col)))%nat eqn:Hnn.
    + apply Nat.ltb_lt in Hnn.
      apply rounded_ratio_between; [apply nunique_le_non_null | exact Hnn].
    + cbn [float_between]. split; lra.
  - intros H. rewrite H. reflexivity.
  - intros Hne. apply rounded_ratio_between; [apply non_null_le_total |].
    destruct (values col); [congruence | simpl; lia].
Qed.

(** C2, at a failing input.  Profiled with no list of critical fields, the
    sample table gets no critical column, though each of its three column
    names contains an entry of [CDE_PATTERNS]; and so it is for every table:
    with an empty list the flag is false in every profile the tool returns.
    The vocabulary of [settings.py] is read nowhere. *)
Theorem profiler_ignores_cde_patterns :
  map matches_cde_vocabulary (columns customers) = [true; true; true]
  /\ (exists summary,
        ProfilerTool_run (sample_env (Ok customers) None) "customers.csv" EmptyString
        = Json summary
        /\ map is_cde (column_profiles summary) = [false; false; false]
        /\ cde_columns summary = O)
  /\ (forall env file_path,
        match ProfilerTool_run env file_path EmptyString with
        | Json summary => forallb (fun p => negb (is_cde p)) (column_profiles summary) = true
        | Text _ => True
        end).
Proof.
  split; [reflexivity |]. split.
  - eexists. split; [reflexivity |]. split; reflexivity.
  - intros env file_path. unfold ProfilerTool_run.
    destruct (read_table env file_path) as [df | e]; simpl; [| exact I].
    destruct (profile_summary (map (profile_column env []) df)) as [summary | e] eqn:Es;
      simpl; [| exact I].
    unfold profile_summary in Es.
    ok_inv Es. ok_inv Es. injection Es as <-. simpl.
    clear. induction df as [| col df IH]; simpl; [reflexivity | exact IH].
Qed.

(** C6, at a failing input.  A file with a header line and no row is
    profiled without error, and the completeness of each column is [nan]:
    the quotient [non_null / total] is taken with no guard on [total],
    unlike the uniqueness next to it.  [nan] is not between 0 and 1. *)
Theorem profiler_completeness_nan_without_rows :
  exists summary,
    ProfilerTool_run (sample_env (Ok header_only) None) "empty.csv" EmptyString
    = Json summary
    /\ map completeness (column_profiles summary) = [NaN; NaN]
    /\ map uniqueness (column_profiles summary) = [Fin 0; Fin 0]
    /\ overall_completeness summary = NaN
    /\ ~ float_between 0 1 NaN.
Proof.
  eexists. split; [reflexivity |].
  repeat split. intros H. exact H.
Qed.

(* ------------------------------------------------------------------ *)
(** ** The validator: structure of a successful run *)
(* ------------------------------------------------------------------ *)

Lemma validator_Json_inv (env : Env) (file_path cde_config_path : string)
    (res : ValidationResult) :
  ValidatorTool_run env file_path cde_config_path = Json res ->
  exists df rules df' l,
    read_table env file_path = Ok df
    /\ load_cde_rules env cde_config_path = Ok rules
    /\ run_rules env df rules = Ok (df', l)
    /\ validation_result df' l = Ok res.
Proof.
  unfold ValidatorTool_run. intros H. apply try_except_Json in H.
  peel H as df Edf. peel H as rules Erules. peel H as r Er.
  peel H as res' Eres. injection H as <-.
  destruct r as [df' l]. simpl in *.
  exists df, rules, df', l. repeat split; assumption.
Qed.

Lemma run_rules_inv (env : Env) (df df' : DataFrame) (rules : dict) (l : list Issue) :
  run_rules env df rules = Ok (df', l) ->
  exists dob balance score nulls dups,
    check_dob env df = Ok (df', dob)
    /\ check_numeric df' "account_balance" "negative_value" negative
         " records have negative account balance" = Ok balance
    /\ check_numeric df' "credit_score" "range_validation" outside_score_range
         " records have credit score outside valid range (300-850)" = Ok score
    /\ concatM (check_not_nullable df') rules = Ok nulls
    /\ concatM (check_unique df') rules = Ok dups
    /\ l = (check_format env df "email" email_pattern HIGH "email"
            ++ check_format env df "phone" (phone_pattern env) MEDIUM "phone"
            ++ dob ++ balance ++ score ++ nulls ++ dups)%list.
Proof.
  unfold run_rules. intros H.
  peel H as r Er. destruct r as [df1 dob].
  peel H as balance Eb. peel H as score Es.
  peel H as nulls En. peel H as dups Ed.
  injection H as <- <-.
  exists dob, balance, score, nulls, dups. repeat split; assumption.
Qed.

Lemma validation_result_inv (df : DataFrame) (l : list Issue) (res : ValidationResult) :
  validation_result df l = Ok res ->
  issues res = l
  /\ total_records res = Pd.len df
  /\ (0 < Pd.len df * List.length (columns df))%nat
  /\ validity_score res
     = Py.round (1 - defect_density (sum_invalid l)
                       (Pd.len df * List.length (columns df))) 4.
Proof.
  unfold validation_result, int_truediv. intros H.
  destruct (Pd.len df * List.length (columns df))%nat as [| n] eqn:En;
    simpl in H; [discriminate H |].
  injection H as <-. simpl. repeat split. lia.
Qed.

Lemma in_concatM {A B} (f : A -> result (list B)) (l : list A) (bs : list B) (b : B) :
  concatM f l = Ok bs -> In b bs -> exists a bs', In a l /\ f a = Ok bs' /\ In b bs'.
Proof.
  unfold concatM. intros H. ok_inv H. injection H as <-.
  revert v E. induction l as [| a l IH]; simpl; intros ls E Hb.
  - injection E as <-. destruct Hb.
  - peel E as bs0 Ea. peel E as ls' El. injection E as <-. simpl in Hb.
    apply in_app_or in Hb. destruct Hb as [Hb | Hb].
    + exists a, bs0. auto.
    + destruct (IH _ El Hb) as [a' [bs' [Ha' [Hf Hb']]]].
      exists a', bs'. auto.
Qed.

(* ------------------------------------------------------------------ *)
(** ** The validator: what each rule emits *)
(* ------------------------------------------------------------------ *)

Lemma head_length (n : nat) (l : list cell) :
  List.length (head n l) = Nat.min n (List.length l).
Proof. unfold head. apply length_firstn. Qed.

Lemma check_format_issue (env : Env) (df : DataFrame) (name : string)
    (pattern : Re.regex) (s : severity) (what : string) (i : Issue) :
  In i (check_format env df name pattern s what) ->
  rule i = "format_validation"
  /\ exists invalid,
       sample_invalid i = Some (head 3 invalid)
       /\ invalid_count i = List.length invalid.
Proof.
  unfold check_format.
  destruct (Pd.getitem df name) as [col |]; [| intros []].
  destruct (0 <? _)%nat; [| intros []].
  intros [<- | []]. cbn [rule sample_invalid invalid_count]. split; [reflexivity |].
  eexists. split; reflexivity.
Qed.

Lemma check_dob_issue (env : Env) (df df' : DataFrame) (dob : list Issue) (i : Issue) :
  check_dob env df = Ok (df', dob) -> In i dob ->
  rule i = "future_date"
  /\ exists l,
       sample_invalid i = Some l
       /\ List.length l = Nat.min 3 (invalid_count i).
Proof.
  unfold check_dob.
  destruct (Pd.getitem df "date_of_birth") as [col |].
  - intros H. peel H as mask Emask. injection H as <- <-.
    destruct (0 <? _)%nat; [| intros []].
    intros [<- | []]. cbn [rule sample_invalid invalid_count]. split; [reflexivity |].
    eexists. split; [reflexivity |].
    rewrite length_map. exact (head_length 3 (select (values col) mask)).
  - intros H. injection H as <- <-. intros [].
Qed.

Lemma check_dob_frame (env : Env) (df df' : DataFrame) (dob : list Issue) :
  check_dob env df = Ok (df', dob) ->
  match Pd.getitem df "date_of_birth" with
  | None => df' = df /\ dob = []
  | Some col =>
      df' = Pd.setitem df (mkSeries "dob_parsed" datetime64 (to_datetime env (values col)))
  end.
Proof.
  unfold check_dob.
  destruct (Pd.getitem df "date_of_birth") as [col |]; intros H.
  - peel H as mask Emask. injection H as <- _. reflexivity.
  - injection H as <- <-. split; reflexivity.
Qed.

Lemma check_numeric_issue (df : DataFrame) (name rule_id : string) (test : Q -> bool)
    (what : string) (l : list Issue) (i : Issue) :
  check_numeric df name rule_id test what = Ok l -> In i l ->
  rule i = rule_id
  /\ exists col mask,
       Pd.getitem df name = Some col
       /\ compare_column test (values col) = Ok mask
       /\ invalid_count i = List.length (select (values col) mask)
       /\ sample_invalid i = Some (head 3 (select (values col) mask)).
Proof.
  unfold check_numeric.
  destruct (Pd.getitem df name) as [col |]; intros H.
  - peel H as mask Emask. injection H as <-.
    destruct (0 <? _)%nat; [| intros []].
    intros [<- | []]. cbn [rule sample_invalid invalid_count]. split; [reflexivity |].
    exists col, mask. repeat split. exact Emask.
  - injection H as <-. intros [].
Qed.

Lemma check_not_nullable_issue (df : DataFrame) (entry : json * json)
    (l : list Issue) (i : Issue) :
  check_not_nullable df entry = Ok l -> In i l ->
  rule i = "cde_not_nullable" /\ sample_invalid i = None.
Proof.
  unfold check_not_nullable.
  destruct (in_columns (fst entry) df) as [name |]; intros H.
  - peel H as nullable En.
    destruct (scalar_eqb nullable (JBool false)).
    + destruct (0 <? _)%nat; injection H as <-; [| intros []].
      intros [<- | []]. split; reflexivity.
    + injection H as <-. intros [].
  - injection H as <-. intros [].
Qed.

Lemma check_unique_issue (df : DataFrame) (entry : json * json)
    (l : list Issue) (i : Issue) :
  check_unique df entry = Ok l -> In i l ->
  rule i = "cde_uniqueness" /\ sample_invalid i = None.
Proof.
  unfold check_unique.
  destruct (in_columns (fst entry) df) as [name |]; intros H.
  - peel H as unique En.
    destruct (scalar_eqb unique (JBool true)).
    + destruct (0 <? _)%nat; injection H as <-; [| intros []].
      intros [<- | []]. split; reflexivity.
    + injection H as <-. intros [].
  - injection H as <-. intros [].
Qed.

Lemma issue_origin (env : Env) (df df' : DataFrame) (rules : dict) (l : list Issue)
    (i : Issue) :
  run_rules env df rules = Ok (df', l) -> In i l -> origin env df df' rules i.
Proof.
  intros H Hi. apply run_rules_inv in H.
  destruct H as (dob & balance & score & nulls & dups & Hd & Hb & Hs & Hn & Hu & ->).
  repeat (apply in_app_or in Hi; destruct Hi as [Hi | Hi]).
  - apply from_email. exact Hi.
  - apply from_phone. exact Hi.
  - eapply from_dob; eassumption.
  - eapply from_balance; eassumption.
  - eapply from_score; eassumption.
  - destruct (in_concatM _ _ _ _ Hn Hi) as (entry & l' & _ & Hf & Hi').
    eapply from_nullable; eassumption.
  - destruct (in_concatM _ _ _ _ Hu Hi) as (entry & l' & _ & Hf & Hi').
    eapply from_unique; eassumption.
Qed.

Lemma getitem_setitem_other (df : DataFrame) (s : Series) (name : string) :
  label s <> name -> Pd.getitem (Pd.setitem df s) name = Pd.getitem df name.
Proof.
  intros Hne. induction df as [| s0 df IH]; simpl.
  - apply String.eqb_neq in Hne. rewrite Hne. reflexivity.
  - destruct (String.eqb (label s0) (label s)) eqn:E0; simpl.
    + apply String.eqb_eq in E0.
      assert (Hn0 : label s0 <> name) by congruence.
      apply String.eqb_neq in Hne. apply String.eqb_neq in Hn0.
      rewrite Hne, Hn0. reflexivity.
    + destruct (String.eqb (label s0) name); [reflexivity | exact IH].
Qed.

Lemma check_dob_keeps_column (env : Env) (df df' : DataFrame) (dob : list Issue)
    (name : string) :
  check_dob env df = Ok (df', dob) -> name <> "dob_parsed" ->
  Pd.getitem df' name = Pd.getitem df name.
Proof.
  intros H Hne. apply check_dob_frame in H.
  destruct (Pd.getitem df "date_of_birth") as [col |].
  - rewrite H. apply getitem_setitem_other. simpl. congruence.
  - destruct H as [-> _]. reflexivity.
Qed.

Lemma select_map_filter (f : cell -> bool) (l : list cell) :
  select l (map f l) = filter f l.
Proof.
  induction l as [| c l IH]; simpl; [reflexivity |].
  destruct (f c); rewrite IH; reflexivity.
Qed.

Lemma select_compared (test : Q -> bool) (l : list cell) (mask : list bool) :
  compare_column test l = Ok mask -> select l mask = failing_numbers test l.
Proof.
  unfold failing_numbers. revert mask.
  induction l as [| c l IH]; simpl; intros mask H.
  - injection H as <-. reflexivity.
  - peel H as b Eb. peel H as bs Ebs. injection H as <-.
    destruct c as [| q | s | ns]; simpl in Eb; try discriminate Eb;
      injection Eb as <-.
    + apply IH. exact Ebs.
    + simpl. destruct (test q); rewrite (IH bs Ebs); reflexivity.
Qed.

Lemma select_after_today (today : Z) (l parsed : list cell) (mask : list bool) :
  mapM (after_today today) parsed = Ok mask ->
  select l mask
  = map fst (filter (fun p => match snd p with
                              | Tm ns => (today <? ns / ns_per_day)%Z
                              | _ => false
                              end)
                    (combine l parsed)).
Proof.
  revert l mask. induction parsed as [| d parsed IH]; simpl; intros l mask H.
  - injection H as <-. destruct l; reflexivity.
  - peel H as b Eb. peel H as bs Ebs. injection H as <-.
    destruct l as [| c l]; [reflexivity |]. simpl.
    destruct d as [| q | t | ns]; simpl in Eb; try discriminate Eb;
      injection Eb as <-.
    + apply IH. exact Ebs.
    + destruct (today <? ns / ns_per_day)%Z; simpl; rewrite (IH l bs Ebs); reflexivity.
Qed.

Lemma check_format_sample (env : Env) (df : DataFrame) (name : string)
    (pattern : Re.regex) (s : severity) (what : string) (i : Issue) :
  In i (check_format env df name pattern s what) ->
  field i = name /\ rule i = "format_validation"
  /\ sample_invalid i = Some (firstn 3 (mismatching env pattern (column_values df name)))
  /\ invalid_count i = List.length (mismatching env pattern (column_values df name)).
Proof.
  unfold check_format, column_values, mismatching, format_mask.
  destruct (Pd.getitem df name) as [col |]; [| intros []].
  rewrite select_map_filter.
  destruct (0 <? _)%nat; [| intros []].
  intros [<- | []]. repeat split.
Qed.

Lemma check_numeric_sample (df : DataFrame) (name rule_id : string) (test : Q -> bool)
    (what : string) (l : list Issue) (i : Issue) :
  check_numeric df name rule_id test what = Ok l -> In i l ->
  rule i = rule_id
  /\ sample_invalid i = Some (firstn 3 (failing_numbers test (column_values df name)))
  /\ invalid_count i = List.length (failing_numbers test (column_values df name)).
Proof.
  unfold check_numeric, column_values.
  destruct (Pd.getitem df name) as [col |]; intros H.
  - peel H as mask Emask. injection H as <-.
    rewrite (select_compared _ _ _ Emask).
    destruct (0 <? _)%nat; [| intros []].
    intros [<- | []]. repeat split.
  - injection H as <-. intros [].
Qed.

Lemma check_dob_sample (env : Env) (df df' : DataFrame) (dob : list Issue) (i : Issue) :
  check_dob env df = Ok (df', dob) -> In i dob ->
  rule i = "future_date"
  /\ sample_invalid i
     = Some (firstn 3 (future_births env (column_values df "date_of_birth")))
  /\ invalid_count i
     = List.length (future_births env (column_values df "date_of_birth")).
Proof.
  unfold check_dob, column_values, future_births.
  destruct (Pd.getitem df "date_of_birth") as [col |].
  - intros H. peel H as mask Emask. injection H as <- <-.
    rewrite (select_after_today _ (values col) _ _ Emask).
    set (found := filter _ (combine _ _)).
    destruct (0 <? _)%nat; [| intros []].
    intros [<- | []]. split; [reflexivity |]. split.
    + change (Some (map (fun c => Txt (astype_str env c)) (firstn 3 (map fst found)))
              = Some (firstn 3 (map (fun p => Txt (astype_str env (fst p))) found))).
      rewrite <- firstn_map, map_map. reflexivity.
    + cbn [invalid_count]. rewrite !length_map. reflexivity.
  - intros H. injection H as <- <-. intros [].
Qed.

(** C4, as the code has it.  In every successful run, an issue of the four
    catalog rules carries [sample_invalid], the first offending values of
    its column in the order of the rows, as many as there are up to three,
    and [invalid_count] is the number of all of them; an issue of
    [cde_not_nullable] or [cde_uniqueness] has no [sample_invalid] key. *)
Theorem issue_sample_shape (env : Env) (file_path cde_config_path : string)
    (df : DataFrame) (res : ValidationResult) (i : Issue) :
  read_table env file_path = Ok df ->
  ValidatorTool_run env file_path cde_config_path = Json res ->
  In i (issues res) ->
  sample_shape i
  /\ (Str.mem (rule i) catalog_rules = true ->
      sample_invalid i = Some (firstn 3 (offending env df i))
      /\ invalid_count i = List.length (offending env df i)).
Proof.
  intros Hread H Hi. apply validator_Json_inv in H.
  destruct H as (df0 & rules & df' & l & Hread' & _ & Hrun & Hres).
  rewrite Hread in Hread'. injection Hread' as <-.
  apply validation_result_inv in Hres. destruct Hres as [Hl _].
  rewrite Hl in Hi.
  assert (Hkeep : forall name, name <> "dob_parsed" ->
                    column_values df' name = column_values df name).
  { intros name Hne. apply run_rules_inv in Hrun.
    destruct Hrun as (dob & _ & _ & _ & _ & Hd & _).
    unfold column_values.
    rewrite (check_dob_keeps_column _ _ _ _ name Hd Hne). reflexivity. }
  assert (Hcatalog : forall found,
            Str.mem (rule i) catalog_rules = true ->
            sample_invalid i = Some (firstn 3 found) ->
            invalid_count i = List.length found ->
            sample_shape i).
  { intros found Hr Hs Hc. left. split; [exact Hr |].
    exists (firstn 3 found). split; [exact Hs |].
    rewrite Hc. apply length_firstn. }
  unfold offending.
  destruct (issue_origin _ _ _ _ _ _ Hrun Hi) as
    [Hin | Hin | dob Hd Hin | b Hb Hin | s Hs Hin | entry n Hn Hin | entry u Hu Hin].
  - apply check_format_sample in Hin. destruct Hin as (Hf & Hr & Hs & Hc).
    rewrite Hr, Hf. cbn [String.eqb Ascii.eqb Bool.eqb].
    split; [eapply Hcatalog; [rewrite Hr; reflexivity | exact Hs | exact Hc] |].
    intros _. split; assumption.
  - apply check_format_sample in Hin. destruct Hin as (Hf & Hr & Hs & Hc).
    rewrite Hr, Hf. cbn [String.eqb Ascii.eqb Bool.eqb].
    split; [eapply Hcatalog; [rewrite Hr; reflexivity | exact Hs | exact Hc] |].
    intros _. split; assumption.
  - destruct (check_dob_sample _ _ _ _ _ Hd Hin) as (Hr & Hs & Hc).
    rewrite Hr. cbn [String.eqb Ascii.eqb Bool.eqb].
    split; [eapply Hcatalog; [rewrite Hr; reflexivity | exact Hs | exact Hc] |].
    intros _. split; assumption.
  - destruct (check_numeric_sample _ _ _ _ _ _ _ Hb Hin) as (Hr & Hs & Hc).
    rewrite Hkeep in Hs, Hc by discriminate.
    rewrite Hr. cbn [String.eqb Ascii.eqb Bool.eqb].
    split; [eapply Hcatalog; [rewrite Hr; reflexivity | exact Hs | exact Hc] |].
    intros _. split; assumption.
  - destruct (check_numeric_sample _ _ _ _ _ _ _ Hs Hin) as (Hr & Hs' & Hc).
    rewrite Hkeep in Hs', Hc by discriminate.
    rewrite Hr. cbn [String.eqb Ascii.eqb Bool.eqb].
    split; [eapply Hcatalog; [rewrite Hr; reflexivity | exact Hs' | exact Hc] |].
    intros _. split; assumption.
  - destruct (check_not_nullable_issue _ _ _ _ Hn Hin) as (Hr & Hnone).
    rewrite Hr. split; [right; split; [rewrite Hr; reflexivity | exact Hnone] |].
    intros Hm. discriminate Hm.
  - destruct (check_unique_issue _ _ _ _ Hu Hin) as (Hr & Hnone).
    rewrite Hr. split; [right; split; [rewrite Hr; reflexivity | exact Hnone] |].
    intros Hm. discriminate Hm.
Qed.

Lemma issue_sample_shape_witness :
  sample_invalid negative_balance_issue
  = Some (firstn 3 (offending cde_env customers negative_balance_issue))
  /\ offending cde_env customers negative_balance_issue = [Num (-35)]
  /\ invalid_count negative_balance_issue = 1%nat.
Proof.
  destruct (issue_sample_shape cde_env "customers.csv" "cde_config.json"
              customers customers_result negative_balance_issue) as [_ H].
  - reflexivity.
  - vm_compute. reflexivity.
  - right. left. reflexivity.
  - destruct H as [Hs Hc]; [reflexivity |].
    split; [exact Hs |]. split; reflexivity.
Defined.

(** C4 as stated fails: with [email] declared non-nullable, the missing
    address of the sample table is reported by an issue that has no
    [sample_invalid]. *)
Lemma cde_issue_has_no_sample :
  exists res i,
    ValidatorTool_run (sample_env (Ok customers) (Some (Ok email_is_cde)))
      "customers.csv" "cde_config.json" = Json res
    /\ In i (issues res)
    /\ rule i = "cde_not_nullable"
    /\ ~ has_bounded_sample i.
Proof.
  eexists. eexists. split; [vm_compute; reflexivity |].
  split; [right; right; left; reflexivity |].
  split; [reflexivity |].
  intros [l [Hl _]]. discriminate Hl.
Qed.

(* ------------------------------------------------------------------ *)
(** ** The validator: numeric rules *)
(* ------------------------------------------------------------------ *)

Lemma compare_column_counts (test : Q -> bool) (l : list cell) (mask : list bool) :
  compare_column test l = Ok mask ->
  List.length (select l mask) = count_numbers test l.
Proof.
  unfold count_numbers. revert mask.
  induction l as [| c l IH]; simpl; intros mask H.
  - injection H as <-. reflexivity.
  - peel H as b Eb. peel H as bs Ebs. injection H as <-.
    destruct c as [| q | s | ns]; simpl in Eb; try discriminate Eb;
      injection Eb as <-.
    + apply IH. exact Ebs.
    + destruct (test q); simpl; rewrite (IH bs Ebs); reflexivity.
Qed.

Lemma count_numbers_dropna (test : Q -> bool) (l : list cell) :
  count_numbers test (dropna l) = count_numbers test l.
Proof.
  unfold count_numbers, dropna.
  induction l as [| c l IH]; simpl; [reflexivity |].
  destruct c as [| q | s | ns]; simpl; try exact IH.
  destruct (test q); simpl; rewrite IH; reflexivity.
Qed.

(** The date rule leaves every column but [dob_parsed] as it was. *)
Lemma negative_spec (q : Q) : negative q = true <-> q < 0.
Proof.
  unfold negative, Qltb. rewrite negb_true_iff.
  split; intros H.
  - apply Qnot_le_lt. intros Hle. apply Qle_bool_iff in Hle. congruence.
  - destruct (Qle_bool 0 q) eqn:E; [| reflexivity].
    apply Qle_bool_iff in E. apply Qle_not_lt in E. contradiction.
Qed.

Lemma Qltb_spec (a b : Q) : Qltb a b = true <-> a < b.
Proof.
  unfold Qltb. rewrite negb_true_iff.
  split; intros H.
  - apply Qnot_le_lt. intros Hle. apply Qle_bool_iff in Hle. congruence.
  - destruct (Qle_bool b a) eqn:E; [| reflexivity].
    apply Qle_bool_iff in E. apply Qle_not_lt in E. contradiction.
Qed.

Lemma outside_score_range_spec (q : Q) :
  outside_score_range q = true <-> q < 300 \/ 850 < q.
Proof.
  unfold outside_score_range. rewrite orb_true_iff, !Qltb_spec. reflexivity.
Qed.

(** C10.  In every successful run over a loaded table, the count of a
    [negative_value] issue is the number of present balances strictly
    below 0, and the count of a [range_validation] issue the number of
    present credit scores below 300 or above 850; a missing cell is never
    counted, the counts are those of the column with its missing cells
    dropped. *)
Theorem numeric_rules_skip_missing (env : Env) (file_path cde_config_path : string)
    (df : DataFrame) (res : ValidationResult) (i : Issue) :
  read_table env file_path = Ok df ->
  ValidatorTool_run env file_path cde_config_path = Json res ->
  In i (issues res) ->
  (rule i = "negative_value" ->
     invalid_count i = count_numbers negative (column_values df "account_balance")
     /\ invalid_count i
        = count_numbers negative (dropna (column_values df "account_balance")))
  /\ (rule i = "range_validation" ->
     invalid_count i = count_numbers outside_score_range (column_values df "credit_score")
     /\ invalid_count i
        = count_numbers outside_score_range (dropna (column_values df "credit_score")))
  /\ (forall q, negative q = true <-> q < 0)
  /\ (forall q, outside_score_range q = true <-> q < 300 \/ 850 < q)
  /\ count_numbers negative [NA] = O
  /\ count_numbers outside_score_range [NA] = O.
Proof.
  intros Hread H Hi. apply validator_Json_inv in H.
  destruct H as (df0 & rules & df' & l & Hread' & _ & Hrun & Hres).
  rewrite Hread in Hread'. injection Hread' as <-.
  apply validation_result_inv in Hres. destruct Hres as [Hl _].
  rewrite Hl in Hi.
  split; [| split; [| split; [exact negative_spec |
                      split; [exact outside_score_range_spec | split; reflexivity]]]].
  - intros Hrule. rewrite count_numbers_dropna.
    cut (invalid_count i = count_numbers negative (column_values df "account_balance")).
    { intros E. split; exact E. }
    destruct (issue_origin _ _ _ _ _ _ Hrun Hi) as
      [Hin | Hin | dob Hd Hin | b Hb Hin | s Hs Hin | entry n Hn Hin | entry u Hu Hin].
    + apply check_format_issue in Hin. destruct Hin as [E _]. congruence.
    + apply check_format_issue in Hin. destruct Hin as [E _]. congruence.
    + destruct (check_dob_issue _ _ _ _ _ Hd Hin) as [E _]. congruence.
    + destruct (check_numeric_issue _ _ _ _ _ _ _ Hb Hin)
        as (_ & col & mask & Hcol & Hmask & Hc & _).
      apply run_rules_inv in Hrun.
      destruct Hrun as (dob & _ & _ & _ & _ & Hd & _).
      rewrite (check_dob_keeps_column _ _ _ _ "account_balance" Hd) in Hcol
        by discriminate.
      unfold column_values. rewrite Hcol, Hc.
      apply compare_column_counts. exact Hmask.
    + destruct (check_numeric_issue _ _ _ _ _ _ _ Hs Hin) as [E _]. congruence.
    + destruct (check_not_nullable_issue _ _ _ _ Hn Hin) as [E _]. congruence.
    + destruct (check_unique_issue _ _ _ _ Hu Hin) as [E _]. congruence.
  - intros Hrule. rewrite count_numbers_dropna.
    cut (invalid_count i
         = count_numbers outside_score_range (column_values df "credit_score")).
    { intros E. split; exact E. }
    destruct (issue_origin _ _ _ _ _ _ Hrun Hi) as
      [Hin | Hin | dob Hd Hin | b Hb Hin | s Hs Hin | entry n Hn Hin | entry u Hu Hin].
    + apply check_format_issue in Hin. destruct Hin as [E _]. congruence.
    + apply check_format_issue in Hin. destruct Hin as [E _]. congruence.
    + destruct (check_dob_issue _ _ _ _ _ Hd Hin) as [E _]. congruence.
    + destruct (check_numeric_issue _ _ _ _ _ _ _ Hb Hin) as [E _]. congruence.
    + destruct (check_numeric_issue _ _ _ _ _ _ _ Hs Hin)
        as (_ & col & mask & Hcol & Hmask & Hc & _).
      apply run_rules_inv in Hrun.
      destruct Hrun as (dob & _ & _ & _ & _ & Hd & _).
      rewrite (check_dob_keeps_column _ _ _ _ "credit_score" Hd) in Hcol
        by discriminate.
      unfold column_values. rewrite Hcol, Hc.
      apply compare_column_counts. exact Hmask.
    + destruct (check_not_nullable_issue _ _ _ _ Hn Hin) as [E _]. congruence.
    + destruct (check_unique_issue _ _ _ _ Hu Hin) as [E _]. congruence.
Qed.

Lemma numeric_rules_skip_missing_witness :
  invalid_count negative_balance_issue
  = count_numbers negative (column_values customers "account_balance")
  /\ count_numbers negative (column_values customers "account_balance") = 1%nat.
Proof.
  split; [| reflexivity].
  destruct (numeric_rules_skip_missing
              (sample_env (Ok customers) None) "customers.csv" EmptyString
              customers
              {| total_records := 3; total_issues := 2; critical_issues := 0;
                 high_issues := 2; medium_issues := 0;
                 validity_score := 7778 # 10000;
                 issues :=
                   [ {| field := "email"; rule := "format_validation"; sev := HIGH;
                        invalid_count := 1;
                        sample_invalid := Some [Txt "not-an-email"];
                        message := "1 records have invalid email format" |};
                     negative_balance_issue ] |}
              negative_balance_issue) as [H _].
  - reflexivity.
  - vm_compute. reflexivity.
  - simpl. right. left. reflexivity.
  - apply H. reflexivity.
Defined.

(* ------------------------------------------------------------------ *)
(** ** The validator: the validity score *)
(* ------------------------------------------------------------------ *)

Lemma round_half_even_nonpos (y : Q) : y <= 0 -> (round_half_even y <= 0)%Z.
Proof.
  intros Hy.
  destruct (round_half_even_between (Qfloor y) 0 y) as [_ H].
  - apply Qfloor_le.
  - exact Hy.
  - exact H.
Qed.

Lemma round_half_even_negative (y : Q) : y < - (1 # 2) -> (round_half_even y < 0)%Z.
Proof.
  intros Hy. unfold round_half_even.
  pose proof (Qfloor_le y) as Hf.
  assert (Hneg : (Qfloor y < 0)%Z).
  { rewrite Zlt_Qlt. change (inject_Z 0) with 0. lra. }
  assert (Hstep : 1 # 2 <= y - inject_Z (Qfloor y) -> (Qfloor y + 1 < 0)%Z).
  { intros Hhalf. rewrite Zlt_Qlt. rewrite inject_Z_plus.
    change (inject_Z 0) with 0. change (inject_Z 1) with 1. lra. }
  destruct (Qcompare_spec (y - inject_Z (Qfloor y)) (1 # 2)) as [He | Hl | Hg].
  - assert (Hhalf : 1 # 2 <= y - inject_Z (Qfloor y)) by (rewrite He; apply Qle_refl).
    specialize (Hstep Hhalf). destruct (Z.even (Qfloor y)); lia.
  - exact Hneg.
  - apply Hstep. lra.
Qed.

Lemma density_above_one (violations cells : nat) :
  (0 < cells)%nat -> (cells < violations)%nat ->
  1 < defect_density violations cells.
Proof.
  intros Hc Hv. unfold defect_density.
  apply Qlt_shift_div_l.
  - change 0 with (inject_Z 0). rewrite <- Zlt_Qlt. lia.
  - rewrite Qmult_1_l. rewrite <- Zlt_Qlt. lia.
Qed.

Lemma density_well_above_one (violations cells : nat) :
  (0 < cells)%nat -> (20001 * Z.of_nat cells < 20000 * Z.of_nat violations)%Z ->
  20001 # 20000 < defect_density violations cells.
Proof.
  intros Hc Hv. unfold defect_density.
  apply Qlt_shift_div_l.
  - change 0 with (inject_Z 0). rewrite <- Zlt_Qlt. lia.
  - assert (H : inject_Z 20001 * inject_Z (Z.of_nat cells)
                < inject_Z 20000 * inject_Z (Z.of_nat violations)).
    { rewrite <- !inject_Z_mult. rewrite <- Zlt_Qlt. lia. }
    change (inject_Z 20001) with 20001 in H.
    change (inject_Z 20000) with 20000 in H.
    lra.
Qed.

Lemma round_half_even_error (y : Q) :
  y - (1 # 2) <= inject_Z (round_half_even y)
  /\ inject_Z (round_half_even y) <= y + (1 # 2).
Proof.
  unfold round_half_even.
  pose proof (Qfloor_le y) as Hf.
  pose proof (Qlt_floor y) as Hc.
  rewrite inject_Z_plus in Hc. change (inject_Z 1) with 1 in Hc.
  destruct (Qcompare_spec (y - inject_Z (Qfloor y)) (1 # 2)) as [He | Hl | Hg].
  - destruct (Z.even (Qfloor y)).
    + split; lra.
    + rewrite inject_Z_plus. change (inject_Z 1) with 1. split; lra.
  - split; lra.
  - rewrite inject_Z_plus. change (inject_Z 1) with 1. split; lra.
Qed.

Lemma round4_error (q : Q) :
  q - (1 # 20000) <= Py.round q 4 /\ Py.round q 4 <= q + (1 # 20000).
Proof.
  rewrite round4_unfold.
  destruct (round_half_even_error (q * inject_Z 10000)) as [Hlo Hhi].
  set (k := round_half_even (q * inject_Z 10000)) in *.
  assert (Hr : (k # 10000) * 10000 == inject_Z k).
  { rewrite (Qmake_Qdiv k 10000). change (inject_Z (Z.pos 10000)) with 10000. field. }
  change (inject_Z 10000) with 10000 in Hlo, Hhi.
  split; lra.
Qed.

Lemma round4_nearest (q : Q) : nearest_decimal 4 q (Py.round q 4).
Proof.
  unfold nearest_decimal. rewrite round4_unfold.
  pose proof (round4_error q) as Herr. rewrite round4_unfold in Herr.
  set (k := round_half_even (q * inject_Z 10000)) in *.
  exists k. split; [reflexivity |]. intros j.
  change (pow10 4) with 10000%positive.
  assert (Hk : (k # 10000) * 10000 == inject_Z k).
  { rewrite (Qmake_Qdiv k 10000). change (inject_Z (Z.pos 10000)) with 10000. field. }
  assert (Hj : (j # 10000) * 10000 == inject_Z j).
  { rewrite (Qmake_Qdiv j 10000). change (inject_Z (Z.pos 10000)) with 10000. field. }
  assert (Hnear : Qabs ((k # 10000) - q) <= 1 # 20000).
  { apply Qabs_Qle_condition. split; lra. }
  destruct (Z.lt_trichotomy j k) as [Hlt | [-> | Hgt]].
  - assert (Hz : inject_Z j + 1 <= inject_Z k).
    { change 1 with (inject_Z 1). rewrite <- inject_Z_plus, <- Zle_Qle. lia. }
    apply Qle_trans with (1 := Hnear).
    apply Qle_trans with (- ((j # 10000) - q)); [lra |].
    rewrite <- (Qabs_opp ((j # 10000) - q)). apply Qle_Qabs.
  - apply Qle_refl.
  - assert (Hz : inject_Z k + 1 <= inject_Z j).
    { change 1 with (inject_Z 1). rewrite <- inject_Z_plus, <- Zle_Qle. lia. }
    apply Qle_trans with (1 := Hnear).
    apply Qle_trans with ((j # 10000) - q); [lra | apply Qle_Qabs].
Qed.

(** C1, as the code has it.  For a table without a [date_of_birth] column
    on which the validator succeeds, the score is 1 minus the sum of the
    counts of the emitted issues over rows times columns, rounded to four
    decimals: a number of four decimals to which no other is nearer.  It
    is not clamped: it is at most 0 once the violations exceed the cells,
    and below 0 once they exceed them by more than one part in 20000. *)
Theorem validity_score_formula (env : Env) (file_path cde_config_path : string)
    (df : DataFrame) (res : ValidationResult) :
  read_table env file_path = Ok df ->
  Pd.getitem df "date_of_birth" = None ->
  ValidatorTool_run env file_path cde_config_path = Json res ->
  let violations := sum_invalid (issues res) in
  let cells := (Pd.len df * List.length (columns df))%nat in
  (0 < cells)%nat
  /\ nearest_decimal 4 (1 - defect_density violations cells) (validity_score res)
  /\ ((cells < violations)%nat -> validity_score res <= 0)
  /\ ((20001 * Z.of_nat cells < 20000 * Z.of_nat violations)%Z -> validity_score res < 0).
Proof.
  intros Hread Hdob H. apply validator_Json_inv in H.
  destruct H as (df0 & rules & df' & l & Hread' & _ & Hrun & Hres).
  rewrite Hread in Hread'. injection Hread' as <-.
  apply run_rules_inv in Hrun.
  destruct Hrun as (dob & _ & _ & _ & _ & Hd & _).
  apply check_dob_frame in Hd. rewrite Hdob in Hd. destruct Hd as [-> _].
  apply validation_result_inv in Hres.
  destruct Hres as (Hl & _ & Hcells & Hscore).
  cbn zeta. rewrite Hl.
  split; [exact Hcells |]. split; [rewrite Hscore; apply round4_nearest |].
  rewrite Hscore, round4_unfold. split; intros Hv.
  - pose proof (density_above_one _ _ Hcells Hv) as Hd.
    assert (Hr : (round_half_even
                    ((1 - defect_density (sum_invalid l)
                            (Pd.len df * List.length (columns df)))
                     * inject_Z 10000) <= 0)%Z).
    { apply round_half_even_nonpos. change (inject_Z 10000) with 10000. lra. }
    unfold Qle. simpl. lia.
  - pose proof (density_well_above_one _ _ Hcells Hv) as Hd.
    assert (Hr : (round_half_even
                    ((1 - defect_density (sum_invalid l)
                            (Pd.len df * List.length (columns df)))
                     * inject_Z 10000) < 0)%Z).
    { apply round_half_even_negative. change (inject_Z 10000) with 10000. lra. }
    unfold Qlt. simpl. lia.
Qed.

Lemma validity_score_formula_witness :
  nearest_decimal 4 (1 - defect_density 3 2) (Qmake (-5000) 10000)
  /\ Qmake (-5000) 10000 < 0.
Proof.
  destruct (validity_score_formula
              (sample_env (Ok bad_emails) (Some (Ok email_is_cde)))
              "customers.csv" "cde_config.json" bad_emails
              {| total_records := 2; total_issues := 2; critical_issues := 1;
                 high_issues := 1; medium_issues := 0;
                 validity_score := Qmake (-5000) 10000;
                 issues :=
                   [ {| field := "email"; rule := "format_validation"; sev := HIGH;
                        invalid_count := 2;
                        sample_invalid := Some [Txt "nobody"; Txt "nobody"];
                        message := "2 records have invalid email format" |};
                     {| field := "email"; rule := "cde_uniqueness"; sev := CRITICAL;
                        invalid_count := 1; sample_invalid := None;
                        message := "CDE field 'email' has 1 duplicate values but is marked as unique" |} ] |})
    as (_ & Hscore & _ & Hneg).
  - reflexivity.
  - reflexivity.
  - vm_compute. reflexivity.
  - split; [exact Hscore |]. apply Hneg. vm_compute. reflexivity.
Defined.

(** C1 as stated fails: the sample table has 9 cells and 2 violations, and
    its score is 0.7778, which is not 1 - 2/9. *)
Lemma validity_score_is_rounded :
  exists res,
    ValidatorTool_run (sample_env (Ok customers) None) "customers.csv" EmptyString
    = Json res
    /\ sum_invalid (issues res) = 2%nat
    /\ (Pd.len customers * List.length (columns customers))%nat = 9%nat
    /\ validity_score res = Qmake 7778 10000
    /\ ~ validity_score res == 1 - defect_density 2 9.
Proof.
  eexists. split; [vm_compute; reflexivity |].
  repeat split. simpl. intros H. vm_compute in H. discriminate H.
Qed.

(** The other way the stated formula fails.  The date rule stores its
    parsed dates in the frame, so a table with a [date_of_birth] column is
    scored against one column more than it was loaded with: 2 rows and 2
    columns, one violation, and the score is 1 - 1/6, not 1 - 1/4. *)
Lemma validity_score_counts_parsed_dates :
  exists res,
    ValidatorTool_run (sample_env (Ok newborns) None) "customers.csv" EmptyString
    = Json res
    /\ sum_invalid (issues res) = 1%nat
    /\ (Pd.len newborns * List.length (columns newborns))%nat = 4%nat
    /\ validity_score res = Py.round (1 - defect_density 1 6) 4
    /\ ~ validity_score res == Py.round (1 - defect_density 1 4) 4.
Proof.
  eexists. split; [vm_compute; reflexivity |].
  repeat split. simpl. intros H. vm_compute in H. discriminate H.
Qed.

(* ------------------------------------------------------------------ *)
(** ** Two runs *)
(* ------------------------------------------------------------------ *)

Lemma after_today_agree (d1 d2 : Z) (parsed : list cell) :
  (forall ns, In (Tm ns) parsed -> (d1 <? ns / ns_per_day)%Z = (d2 <? ns / ns_per_day)%Z) ->
  mapM (after_today d1) parsed = mapM (after_today d2) parsed.
Proof.
  induction parsed as [| c parsed IH]; simpl; intros H; [reflexivity |].
  rewrite IH by (intros ns Hns; apply H; right; exact Hns).
  destruct c as [| q | s | ns]; simpl; try reflexivity.
  rewrite (H ns) by (left; reflexivity). reflexivity.
Qed.

Lemma check_dob_agree (env : Env) (d1 d2 : Z) (df : DataFrame) :
  (forall ns, In (Tm ns) (to_datetime env (column_values df "date_of_birth")) ->
              (d1 <? ns / ns_per_day)%Z = (d2 <? ns / ns_per_day)%Z) ->
  check_dob (set_today d1 env) df = check_dob (set_today d2 env) df.
Proof.
  unfold check_dob, column_values. simpl.
  destruct (Pd.getitem df "date_of_birth") as [col |]; [| reflexivity].
  intros H. rewrite (after_today_agree d1 d2 _ H). reflexivity.
Qed.

(** C3, as the code has it.  Two runs over the same file and the same
    configuration give the same validator result when no parsed date of
    birth is in the future on the day of one run and not on the day of the
    other, in particular when both run on one day.  The profiler and the
    anomaly detector never look at the day. *)
Theorem runs_agree_when_dates_agree (env : Env) (d1 d2 : Z)
    (file_path cde_config_path cde_fields : string) :
  (forall df ns,
     read_table env file_path = Ok df ->
     In (Tm ns) (to_datetime env (column_values df "date_of_birth")) ->
     (d1 <? ns / ns_per_day)%Z = (d2 <? ns / ns_per_day)%Z) ->
  ValidatorTool_run (set_today d1 env) file_path cde_config_path
  = ValidatorTool_run (set_today d2 env) file_path cde_config_path
  /\ ProfilerTool_run (set_today d1 env) file_path cde_fields
     = ProfilerTool_run (set_today d2 env) file_path cde_fields
  /\ AnomalyDetectorTool_run (set_today d1 env) file_path
     = AnomalyDetectorTool_run (set_today d2 env) file_path.
Proof.
  intros H. split; [| split; reflexivity].
  unfold ValidatorTool_run.
  change (read_table (set_today d1 env) file_path) with (read_table env file_path).
  change (read_table (set_today d2 env) file_path) with (read_table env file_path).
  destruct (read_table env file_path) as [df | e] eqn:Eread; [| reflexivity].
  simpl.
  change (load_cde_rules (set_today d1 env) cde_config_path)
    with (load_cde_rules env cde_config_path).
  change (load_cde_rules (set_today d2 env) cde_config_path)
    with (load_cde_rules env cde_config_path).
  destruct (load_cde_rules env cde_config_path) as [rules | e]; [| reflexivity].
  simpl. unfold run_rules.
  rewrite (check_dob_agree env d1 d2 df (fun ns => H df ns eq_refl)).
  reflexivity.
Qed.

Lemma runs_agree_when_dates_agree_witness :
  ValidatorTool_run (set_today (days_from_civil 2026 11 3) (sample_env (Ok newborns) None))
    "customers.csv" EmptyString
  = ValidatorTool_run (set_today (days_from_civil 2026 11 4) (sample_env (Ok newborns) None))
      "customers.csv" EmptyString.
Proof.
  apply (runs_agree_when_dates_agree (sample_env (Ok newborns) None)
           (days_from_civil 2026 11 3) (days_from_civil 2026 11 4)
           "customers.csv" EmptyString EmptyString).
  intros df ns Hdf Hin. simpl in Hdf. injection Hdf as <-.
  simpl in Hin. destruct Hin as [E | [E | []]]; injection E as <-; reflexivity.
Defined.

(** C3 as stated fails: the sample table holds a birth date of 2026-11-10,
    which is reported on 2026-11-03 and no longer on 2026-11-20. *)
Lemma validator_depends_on_the_day :
  ValidatorTool_run (set_today (days_from_civil 2026 11 3) (sample_env (Ok newborns) None))
    "customers.csv" EmptyString
  <> ValidatorTool_run (set_today (days_from_civil 2026 11 20) (sample_env (Ok newborns) None))
       "customers.csv" EmptyString.
Proof. vm_compute. intros H. discriminate H. Qed.

(* ------------------------------------------------------------------ *)
(** ** The anomaly detector: sums, means, order statistics *)
(* ------------------------------------------------------------------ *)

Lemma size_pos (xs : list Q) : xs <> [] -> 0 < Stats.size xs.
Proof.
  intros H. unfold Stats.size. change 0 with (inject_Z 0). rewrite <- Zlt_Qlt.
  destruct xs; [congruence | simpl; lia].
Qed.

Lemma size_cons (x : Q) (xs : list Q) : Stats.size (x :: xs) == 1 + Stats.size xs.
Proof.
  unfold Stats.size. cbn [List.length]. rewrite Nat2Z.inj_succ.
  unfold Z.succ. rewrite inject_Z_plus. change (inject_Z 1) with 1. ring.
Qed.

Lemma sum_constant (c : Q) (xs : list Q) :
  (forall x, In x xs -> x == c) -> Stats.sum xs == Stats.size xs * c.
Proof.
  induction xs as [| x xs IH]; intros H.
  - unfold Stats.sum, Stats.size. simpl. ring.
  - rewrite size_cons. change (Stats.sum (x :: xs)) with (x + Stats.sum xs).
    rewrite IH by (intros y Hy; apply H; right; exact Hy).
    rewrite (H x) by (left; reflexivity). ring.
Qed.

Lemma mean_constant (c : Q) (xs : list Q) :
  xs <> [] -> (forall x, In x xs -> x == c) -> Stats.mean xs == c.
Proof.
  intros Hne H. unfold Stats.mean. rewrite (sum_constant c xs H).
  pose proof (size_pos xs Hne) as Hpos.
  field. intros Hz. rewrite Hz in Hpos. apply (Qlt_irrefl 0). exact Hpos.
Qed.

Lemma sum_nonneg (l : list Q) : (forall x, In x l -> 0 <= x) -> 0 <= Stats.sum l.
Proof.
  induction l as [| x l IH]; intros H.
  - apply Qle_refl.
  - change (Stats.sum (x :: l)) with (x + Stats.sum l).
    assert (0 <= x) by (apply H; left; reflexivity).
    assert (0 <= Stats.sum l) by (apply IH; intros y Hy; apply H; right; exact Hy).
    lra.
Qed.

Lemma sum_bounds_term (l : list Q) (x : Q) :
  (forall y, In y l -> 0 <= y) -> In x l -> x <= Stats.sum l.
Proof.
  induction l as [| y l IH]; intros H Hx; [destruct Hx |].
  change (Stats.sum (y :: l)) with (y + Stats.sum l).
  assert (Hy : 0 <= y) by (apply H; left; reflexivity).
  assert (Hl : forall z, In z l -> 0 <= z) by (intros z Hz; apply H; right; exact Hz).
  destruct Hx as [-> | Hx].
  - pose proof (sum_nonneg l Hl). lra.
  - specialize (IH Hl Hx). lra.
Qed.

Lemma square_nonneg (q : Q) : 0 <= q * q.
Proof. nra. Qed.

Lemma squares_nonneg (m : Q) (xs : list Q) (y : Q) :
  In y (map (fun x => (x - m) * (x - m)) xs) -> 0 <= y.
Proof.
  intros Hy. apply in_map_iff in Hy. destruct Hy as [x [<- _]]. apply square_nonneg.
Qed.

Lemma pvar_nonneg (xs : list Q) : 0 <= Stats.pvar xs.
Proof.
  unfold Stats.pvar.
  pose proof (sum_nonneg _ (squares_nonneg (Stats.mean xs) xs)) as Hs.
  destruct xs as [| x xs'] eqn:E.
  - unfold Stats.size, Qdiv. simpl. apply Qle_refl.
  - rewrite <- E in *.
    assert (Hpos : 0 < Stats.size xs) by (apply size_pos; rewrite E; discriminate).
    apply Qle_shift_div_l; [exact Hpos |]. lra.
Qed.

(** With a zero variance every value is the mean. *)
Lemma pvar_zero_all_mean (xs : list Q) (x : Q) :
  Stats.pvar xs == 0 -> In x xs -> x - Stats.mean xs == 0.
Proof.
  intros Hv Hx.
  assert (Hne : xs <> []) by (intros ->; destruct Hx).
  pose proof (size_pos xs Hne) as Hpos.
  set (sq := map (fun y => (y - Stats.mean xs) * (y - Stats.mean xs)) xs).
  assert (Hsum : Stats.sum sq == 0).
  { unfold Stats.pvar in Hv. fold sq in Hv.
    assert (Hm : Stats.sum sq / Stats.size xs * Stats.size xs == Stats.sum sq).
    { field. intros Hz. rewrite Hz in Hpos.
      apply (Qlt_irrefl 0). exact Hpos. }
    rewrite Hv in Hm. rewrite <- Hm. ring. }
  assert (Hterm : (x - Stats.mean xs) * (x - Stats.mean xs) <= Stats.sum sq).
  { apply sum_bounds_term.
    - apply squares_nonneg.
    - unfold sq. apply in_map_iff. exists x. split; [reflexivity | exact Hx]. }
  rewrite Hsum in Hterm.
  assert (Hsq : (x - Stats.mean xs) * (x - Stats.mean xs) == 0).
  { apply Qle_antisym; [exact Hterm | apply square_nonneg]. }
  apply Qmult_integral in Hsq. destruct Hsq; assumption.
Qed.

Lemma count_true_none {A} (f : A -> bool) (l : list A) :
  (forall a, In a l -> f a = false) -> count_true (map f l) = O.
Proof.
  intros H. rewrite count_true_map.
  induction l as [| a l IH]; simpl; [reflexivity |].
  rewrite (H a) by (left; reflexivity).
  apply IH. intros b Hb. apply H. right. exact Hb.
Qed.

Lemma Qltb_false (a b : Q) : b <= a -> Qltb a b = false.
Proof.
  intros H. destruct (Qltb a b) eqn:E; [| reflexivity].
  apply Qltb_spec in E. lra.
Qed.

(** On a variance that is not negative, the test on the standardised
    value is a comparison of squares: a zero variance with a zero deviation
    is the [nan] that compares false. *)
Lemma beyond_3_sigma_squares (m var x : Q) :
  0 <= var ->
  (Stats.beyond_3_sigma m var x = true <-> 9 * var < (x - m) * (x - m)).
Proof.
  intros Hvar. unfold Stats.beyond_3_sigma, Stats.zscore_sq, np_divide.
  set (d2 := (x - m) * (x - m)).
  destruct (Qeq_bool var 0) eqn:Ez.
  - apply Qeq_bool_iff in Ez.
    destruct (Qcompare_spec d2 0) as [He | Hl | Hg]; simpl.
    + split; [discriminate |]. intros H. rewrite Ez, He in H. lra.
    + split; [discriminate |]. intros H. rewrite Ez in H. lra.
    + split; [| reflexivity]. intros _. rewrite Ez. lra.
  - apply Qeq_bool_neq in Ez.
    assert (Hpos : 0 < var).
    { apply Qnot_le_lt. intros Hle. apply Ez. apply Qle_antisym; assumption. }
    simpl. fold (Qltb 9 (d2 / var)). rewrite Qltb_spec.
    split; intros H.
    + assert (Hm : d2 / var * var == d2) by (field; exact Ez).
      rewrite <- Hm. nra.
    + apply Qlt_shift_div_l; assumption.
Qed.

Lemma in_insert (x y : Q) (l : list Q) : In y (Stats.insert x l) -> y = x \/ In y l.
Proof.
  induction l as [| z l IH]; simpl.
  - intros [<- | []]. left. reflexivity.
  - destruct (Qle_bool x z); simpl.
    + intros [<- | H]; [left; reflexivity | right; exact H].
    + intros [<- | H]; [right; left; reflexivity |].
      destruct (IH H) as [-> | H']; [left; reflexivity | right; right; exact H'].
Qed.

Lemma in_sort (y : Q) (l : list Q) : In y (Stats.sort l) -> In y l.
Proof.
  unfold Stats.sort. induction l as [| x l IH]; simpl; [intros [] |].
  intros H. apply in_insert in H. destruct H as [-> | H].
  - left. reflexivity.
  - right. apply IH. exact H.
Qed.

Lemma insert_length (x : Q) (l : list Q) :
  List.length (Stats.insert x l) = S (List.length l).
Proof.
  induction l as [| z l IH]; simpl; [reflexivity |].
  destruct (Qle_bool x z); simpl; [reflexivity | rewrite IH; reflexivity].
Qed.

Lemma sort_length (l : list Q) : List.length (Stats.sort l) = List.length l.
Proof.
  unfold Stats.sort. induction l as [| x l IH]; simpl; [reflexivity |].
  rewrite insert_length, IH. reflexivity.
Qed.

Lemma nth_constant (c d : Q) (s : list Q) (i : nat) :
  (forall x, In x s -> x == c) -> d == c -> nth i s d == c.
Proof.
  intros H Hd. destruct (nth_in_or_default i s d) as [Hin | ->].
  - apply H. exact Hin.
  - exact Hd.
Qed.

Lemma quantile_constant (c p : Q) (xs : list Q) :
  xs <> [] -> 0 <= p -> p <= 1 ->
  (forall x, In x xs -> x == c) -> Stats.quantile xs p == c.
Proof.
  intros Hne Hp0 Hp1 H. unfold Stats.quantile.
  assert (Hs : forall x, In x (Stats.sort xs) -> x == c).
  { intros x Hx. apply H. apply in_sort. exact Hx. }
  set (h := inject_Z (Z.of_nat (List.length (Stats.sort xs) - 1)) * p).
  assert (Hlo : (Z.to_nat (Qfloor h) < List.length (Stats.sort xs))%nat).
  { assert (Hlen : (0 < List.length (Stats.sort xs))%nat).
    { rewrite sort_length. destruct xs; [congruence | simpl; lia]. }
    assert (Hh : h <= inject_Z (Z.of_nat (List.length (Stats.sort xs) - 1))).
    { unfold h.
      assert (0 <= inject_Z (Z.of_nat (List.length (Stats.sort xs) - 1))).
      { change 0 with (inject_Z 0). rewrite <- Zle_Qle. lia. }
      nra. }
    apply Qfloor_resp_le in Hh. rewrite Qfloor_Z in Hh. lia. }
  assert (Ha : nth (Z.to_nat (Qfloor h)) (Stats.sort xs) 0 == c).
  { apply Hs. apply nth_In. exact Hlo. }
  assert (Hb : nth (S (Z.to_nat (Qfloor h))) (Stats.sort xs)
                 (nth (Z.to_nat (Qfloor h)) (Stats.sort xs) 0) == c).
  { apply nth_constant; assumption. }
  rewrite Hb, Ha. ring.
Qed.

(* ------------------------------------------------------------------ *)
(** ** The anomaly detector: columns that are never reported *)
(* ------------------------------------------------------------------ *)

Lemma constant_value (xs : list Q) :
  xs <> [] -> constant xs -> exists c, forall x, In x xs -> x == c.
Proof.
  intros Hne Hc. destruct xs as [| c xs']; [congruence |].
  exists c. intros x Hx. apply Hc; [exact Hx | left; reflexivity].
Qed.

Lemma constant_no_z_outlier (xs : list Q) :
  xs <> [] -> constant xs -> Stats.outliers_z xs = O.
Proof.
  intros Hne Hc. destruct (constant_value xs Hne Hc) as [c H].
  unfold Stats.outliers_z. apply count_true_none. intros x Hx.
  pose proof (mean_constant c xs Hne H) as Hm.
  pose proof (pvar_nonneg xs) as Hv.
  assert (Hd : x - Stats.mean xs == 0) by (rewrite Hm, (H x Hx); ring).
  destruct (Stats.beyond_3_sigma (Stats.mean xs) (Stats.pvar xs) x) eqn:E;
    [| reflexivity].
  apply (beyond_3_sigma_squares _ _ _ Hv) in E. rewrite Hd in E. lra.
Qed.

Lemma constant_no_iqr_outlier (xs : list Q) :
  xs <> [] -> constant xs -> Stats.outliers_iqr xs = O.
Proof.
  intros Hne Hc. destruct (constant_value xs Hne Hc) as [c H].
  unfold Stats.outliers_iqr. apply count_true_none. intros x Hx.
  assert (H1 : Stats.quantile xs (1 # 4) == c)
    by (apply quantile_constant; [exact Hne | lra | lra | exact H]).
  assert (H3 : Stats.quantile xs (3 # 4) == c)
    by (apply quantile_constant; [exact Hne | lra | lra | exact H]).
  pose proof (H x Hx) as Hxc.
  apply orb_false_iff. split; apply Qltb_false; lra.
Qed.

Lemma numbers_le_dropna (l : list cell) :
  (List.length (numbers l) <= List.length (dropna l))%nat.
Proof.
  unfold dropna. induction l as [| c l IH]; simpl; [lia |].
  destruct c; simpl; lia.
Qed.

Lemma analyze_column_skips (col : Series) :
  (List.length (dropna (values col)) < 3)%nat \/ constant (numbers (values col)) ->
  analyze_column col = None.
Proof.
  intros H. unfold analyze_column.
  destruct (List.length (numbers (values col)) <? 3)%nat eqn:Elen; [reflexivity |].
  apply Nat.ltb_ge in Elen.
  destruct H as [Hshort | Hconst].
  - pose proof (numbers_le_dropna (values col)). lia.
  - assert (Hne : numbers (values col) <> []).
    { intros E. rewrite E in Elen. simpl in Elen. lia. }
    rewrite (constant_no_z_outlier _ Hne Hconst).
    rewrite (constant_no_iqr_outlier _ Hne Hconst).
    reflexivity.
Qed.

Lemma in_collect {A B} (f : A -> option B) (l : list A) (b : B) :
  In b (collect f l) -> exists a, In a l /\ f a = Some b.
Proof.
  induction l as [| a l IH]; simpl; [intros [] |].
  destruct (f a) as [b' |] eqn:Ea.
  - intros [<- | H].
    + exists a. split; [left; reflexivity | exact Ea].
    + destruct (IH H) as [a' [Ha' Hf]]. exists a'. split; [right; exact Ha' | exact Hf].
  - intros H. destruct (IH H) as [a' [Ha' Hf]].
    exists a'. split; [right; exact Ha' | exact Hf].
Qed.

Lemma analyze_column_label (col : Series) (r : AnomalyReport) :
  analyze_column col = Some r -> ar_column r = label col.
Proof.
  unfold analyze_column.
  destruct (_ <? 3)%nat; [discriminate |].
  destruct (_ || _); [| discriminate].
  intros H. injection H as <-. reflexivity.
Qed.

Lemma label_determines_column (df : DataFrame) (a b : Series) :
  NoDup (columns df) -> In a df -> In b df -> label a = label b -> a = b.
Proof.
  unfold columns. induction df as [| s df IH]; simpl; intros Hnd Ha Hb E.
  - destruct Ha.
  - inversion Hnd as [| x l Hnotin Hnd']; subst.
    destruct Ha as [-> | Ha]; destruct Hb as [-> | Hb].
    + reflexivity.
    + exfalso. apply Hnotin. rewrite E. apply in_map. exact Hb.
    + exfalso. apply Hnotin. rewrite <- E. apply in_map. exact Ha.
    + apply IH; assumption.
Qed.

(** C5.  Once the file is read the detector returns a result, never an
    error text.  A numeric column with fewer than three present values, or
    whose present values are all equal, adds nothing to the list of
    anomalies: the loop passes it over, and with distinct column labels no
    report bears its name.  With all values equal both counts of outliers
    are 0; the zero deviation over a zero standard deviation is a [nan],
    not an exception. *)
Theorem short_and_constant_columns_not_reported (env : Env) (file_path : string)
    (df : DataFrame) :
  read_table env file_path = Ok df ->
  exists res,
    AnomalyDetectorTool_run env file_path = Json res
    /\ forall col,
         In col (numeric_cols df) ->
         (List.length (dropna (values col)) < 3)%nat \/ constant (numbers (values col)) ->
         analyze_column col = None
         /\ (numbers (values col) <> [] -> constant (numbers (values col)) ->
             Stats.outliers_z (numbers (values col)) = O
             /\ Stats.outliers_iqr (numbers (values col)) = O)
         /\ (NoDup (columns df) -> ~ In (label col) (map ar_column (anomalies res))).
Proof.
  intros Hread. unfold AnomalyDetectorTool_run. rewrite Hread. simpl.
  eexists. split; [reflexivity |]. simpl.
  intros col Hcol Hskip.
  pose proof (analyze_column_skips col Hskip) as Hnone.
  split; [exact Hnone |]. split.
  - intros Hne Hconst. split.
    + apply constant_no_z_outlier; assumption.
    + apply constant_no_iqr_outlier; assumption.
  - intros Hnd Hin. apply in_map_iff in Hin. destruct Hin as [r [Hname Hr]].
    apply in_collect in Hr. destruct Hr as [col' [Hcol' Hsome]].
    apply analyze_column_label in Hsome as Hlabel.
    assert (col' = col).
    { apply (label_determines_column df); try assumption.
      - unfold numeric_cols in Hcol'. apply filter_In in Hcol'. tauto.
      - unfold numeric_cols in Hcol. apply filter_In in Hcol. tauto.
      - congruence. }
    subst col'. congruence.
Qed.

Lemma short_and_constant_columns_not_reported_witness :
  analyze_column (mkSeries "credit_score" float64 [Num 700; NA; NA; Num 900000]) = None
  /\ analyze_column (mkSeries "branch" int64 [Num 5; Num 5; Num 5; Num 5]) = None.
Proof.
  destruct (short_and_constant_columns_not_reported
              (sample_env (Ok sparse_scores) None) "scores.csv" sparse_scores eq_refl)
    as [res [_ H]].
  split.
  - apply H.
    + simpl. left. reflexivity.
    + left. simpl. lia.
  - apply H.
    + simpl. right. left. reflexivity.
    + right. intros x y Hx Hy. simpl in Hx, Hy.
      destruct Hx as [<- | [<- | [<- | [<- | []]]]];
        destruct Hy as [<- | [<- | [<- | [<- | []]]]]; reflexivity.
Defined.

(* ------------------------------------------------------------------ *)
(** ** The anomaly detector: the z-score count *)
(* ------------------------------------------------------------------ *)

Lemma real_threshold (d V : R) :
  (0 < V)%R -> ((9 * V < d * d)%R <-> (3 < Rabs (d / sqrt V))%R).
Proof.
  intros HV.
  assert (Hs : (0 < sqrt V)%R) by (apply sqrt_lt_R0; exact HV).
  assert (Hss : (sqrt V * sqrt V = V)%R) by (apply sqrt_sqrt; Lra.lra).
  set (s := sqrt V) in *.
  assert (Hinv : (0 < / s)%R) by (apply Rinv_0_lt_compat; exact Hs).
  assert (Habs : (Rabs (d / s) = Rabs d / s)%R).
  { unfold Rdiv. rewrite Rabs_mult. rewrite (Rabs_pos_eq (/ s)); [reflexivity |].
    left. exact Hinv. }
  rewrite Habs.
  set (a := Rabs d).
  assert (Ha : (0 <= a)%R) by apply Rabs_pos.
  assert (Haa : (a * a = d * d)%R).
  { unfold a. rewrite <- Rabs_mult. apply Rabs_pos_eq. Lra.nra. }
  rewrite <- Haa, <- Hss.
  set (q := (a / s)%R).
  assert (Hq : (a = q * s)%R) by (unfold q; field; Lra.lra).
  assert (Hq0 : (0 <= q)%R).
  { unfold q. apply Rmult_le_pos; [exact Ha | left; exact Hinv]. }
  rewrite Hq. split; intros H.
  - apply Rnot_le_lt. intros Hle.
    assert (Hqq : (q * q <= 9)%R) by Lra.nra.
    assert (Hprod : (q * s * (q * s) <= 9 * (s * s))%R).
    { replace (q * s * (q * s))%R with (q * q * (s * s))%R by ring.
      apply Rmult_le_compat_r; [Lra.nra | exact Hqq]. }
    Lra.lra.
  - assert (Hqq : (9 < q * q)%R) by Lra.nra.
    replace (q * s * (q * s))%R with (q * q * (s * s))%R by ring.
    apply Rmult_lt_compat_r; [Lra.nra | exact Hqq].
Qed.

Lemma Q2R_nine : Q2R 9 = 9%R.
Proof. unfold Q2R. simpl. Lra.lra. Qed.

Lemma Q2R_positive (q : Q) : 0 < q -> (0 < Q2R q)%R.
Proof.
  intros H. apply Qlt_Rlt in H.
  replace (Q2R 0) with 0%R in H by (unfold Q2R; simpl; Lra.lra). exact H.
Qed.

(** The test on squares is the test on the standardised value. *)
Lemma beyond_3_sigma_real (m var x : Q) :
  0 < var ->
  (Stats.beyond_3_sigma m var x = true <-> (3 < Rabs (standardized m var x))%R).
Proof.
  intros Hvar. unfold standardized.
  rewrite (beyond_3_sigma_squares m var x (Qlt_le_weak _ _ Hvar)).
  rewrite <- (real_threshold (Q2R x - Q2R m) (Q2R var) (Q2R_positive var Hvar)).
  split; intros H.
  - apply Qlt_Rlt in H. rewrite !Q2R_mult, !Q2R_minus, Q2R_nine in H. exact H.
  - apply Rlt_Qlt. rewrite !Q2R_mult, !Q2R_minus, Q2R_nine. exact H.
Qed.

Lemma Forall2_map_in {A B} (P : A -> B -> Prop) (f : A -> B) (l : list A) :
  (forall a, In a l -> P a (f a)) -> Forall2 P l (map f l).
Proof.
  induction l as [| a l IH]; simpl; intros H; constructor.
  - apply H. left. reflexivity.
  - apply IH. intros b Hb. apply H. right. exact Hb.
Qed.





(* ================================================================== *)
(** * Further properties *)
(* ================================================================== *)

(* ------------------------------------------------------------------ *)
(** ** The validator: every issue *)
(* ------------------------------------------------------------------ *)

Lemma select_length_le (l : list cell) (mask : list bool) :
  (List.length (select l mask) <= List.length l)%nat.
Proof.
  revert mask. induction l as [| c l IH]; intros mask; simpl; [lia |].
  destruct mask as [| b mask]; simpl; [lia |].
  specialize (IH mask). destruct b; simpl; lia.
Qed.

Lemma getitem_mem (df : DataFrame) (name : string) :
  Str.mem name (columns df) = true -> exists col, Pd.getitem df name = Some col.
Proof.
  unfold Str.mem, columns. induction df as [| s df IH]; simpl; [discriminate |].
  rewrite (String.eqb_sym name (label s)).
  destruct (String.eqb (label s) name); simpl.
  - intros _. exists s. reflexivity.
  - exact IH.
Qed.

Lemma getitem_setitem_same (df : DataFrame) (s : Series) :
  Pd.getitem (Pd.setitem df s) (label s) = Some s.
Proof.
  induction df as [| s0 df IH]; simpl.
  - rewrite String.eqb_refl. reflexivity.
  - destruct (String.eqb (label s0) (label s)) eqn:E; simpl.
    + rewrite String.eqb_refl. reflexivity.
    + rewrite E. exact IH.
Qed.

(** A column the date rule found before it ran is still there after. *)
Lemma check_dob_keeps_some (env : Env) (df df' : DataFrame) (dob : list Issue)
    (name : string) (col : Series) :
  check_dob env df = Ok (df', dob) -> name <> "dob_parsed" ->
  Pd.getitem df name = Some col -> Pd.getitem df' name = Some col.
Proof.
  intros H Hne Hcol. rewrite (check_dob_keeps_column _ _ _ _ name H Hne). exact Hcol.
Qed.

Lemma check_format_facts (env : Env) (df : DataFrame) (name : string)
    (pattern : Re.regex) (s : severity) (what : string) (i : Issue) :
  In i (check_format env df name pattern s what) ->
  field i = name /\ rule i = "format_validation" /\ sev i = s
  /\ (1 <= invalid_count i)%nat
  /\ exists col, Pd.getitem df name = Some col
                 /\ (invalid_count i <= List.length (values col))%nat.
Proof.
  unfold check_format.
  destruct (Pd.getitem df name) as [col |]; [| intros []].
  destruct (0 <? _)%nat eqn:Epos; [| intros []].
  apply Nat.ltb_lt in Epos.
  intros [<- | []]. cbn [field rule sev invalid_count].
  repeat split; try lia.
  exists col. split; [reflexivity | apply select_length_le].
Qed.

Lemma check_dob_facts (env : Env) (df df' : DataFrame) (dob : list Issue) (i : Issue) :
  check_dob env df = Ok (df', dob) -> In i dob ->
  field i = "date_of_birth" /\ rule i = "future_date" /\ sev i = CRITICAL
  /\ (1 <= invalid_count i)%nat
  /\ exists col, Pd.getitem df "date_of_birth" = Some col
                 /\ (invalid_count i <= List.length (values col))%nat.
Proof.
  unfold check_dob.
  destruct (Pd.getitem df "date_of_birth") as [col |].
  - intros H. peel H as mask Emask. injection H as _ <-.
    destruct (0 <? _)%nat eqn:Epos; [| intros []].
    apply Nat.ltb_lt in Epos.
    intros [<- | []]. cbn [field rule sev invalid_count].
    repeat split; try lia.
    exists col. split; [reflexivity | apply select_length_le].
  - intros H. injection H as _ <-. intros [].
Qed.

Lemma check_numeric_facts (df : DataFrame) (name rule_id : string) (test : Q -> bool)
    (what : string) (l : list Issue) (i : Issue) :
  check_numeric df name rule_id test what = Ok l -> In i l ->
  field i = name /\ rule i = rule_id /\ sev i = HIGH
  /\ (1 <= invalid_count i)%nat
  /\ exists col, Pd.getitem df name = Some col
                 /\ (invalid_count i <= List.length (values col))%nat.
Proof.
  unfold check_numeric.
  destruct (Pd.getitem df name) as [col |]; intros H.
  - peel H as mask Emask. injection H as <-.
    destruct (0 <? _)%nat eqn:Epos; [| intros []].
    apply Nat.ltb_lt in Epos.
    intros [<- | []]. cbn [field rule sev invalid_count].
    repeat split; try lia.
    exists col. split; [reflexivity | apply select_length_le].
  - injection H as <-. intros [].
Qed.

Lemma in_columns_getitem (key : json) (df : DataFrame) (name : string) :
  in_columns key df = Some name ->
  key = JStr name /\ exists col, Pd.getitem df name = Some col.
Proof.
  unfold in_columns. destruct key as [| b | q | s | l | kv]; try discriminate.
  destruct (Str.mem s (columns df)) eqn:E; [| discriminate].
  intros H. injection H as <-. split; [reflexivity | apply getitem_mem; exact E].
Qed.

Lemma check_not_nullable_facts (df : DataFrame) (entry : json * json)
    (l : list Issue) (i : Issue) :
  check_not_nullable df entry = Ok l -> In i l ->
  fst entry = JStr (field i) /\ rule i = "cde_not_nullable" /\ sev i = CRITICAL
  /\ (1 <= invalid_count i)%nat
  /\ exists col, Pd.getitem df (field i) = Some col
                 /\ (invalid_count i <= List.length (values col))%nat.
Proof.
  unfold check_not_nullable.
  destruct (in_columns (fst entry) df) as [name |] eqn:Ein; intros H.
  - apply in_columns_getitem in Ein. destruct Ein as [Ekey [col Hcol]].
    peel H as nullable En.
    destruct (scalar_eqb nullable (JBool false)).
    + destruct (0 <? _)%nat eqn:Epos; injection H as <-; [| intros []].
      apply Nat.ltb_lt in Epos.
      intros [<- | []]. cbn [field rule sev invalid_count].
      repeat split; try assumption; try lia.
      exists col. split; [exact Hcol |].
      unfold column_values. rewrite Hcol.
      eapply Nat.le_trans; [apply count_true_le |]. rewrite length_map. lia.
    + injection H as <-. intros [].
  - injection H as <-. intros [].
Qed.

Lemma dropna_length_le (l : list cell) : (List.length (dropna l) <= List.length l)%nat.
Proof. unfold dropna. apply filter_length_le. Qed.

Lemma check_unique_facts (df : DataFrame) (entry : json * json)
    (l : list Issue) (i : Issue) :
  check_unique df entry = Ok l -> In i l ->
  fst entry = JStr (field i) /\ rule i = "cde_uniqueness" /\ sev i = CRITICAL
  /\ (1 <= invalid_count i)%nat
  /\ exists col, Pd.getitem df (field i) = Some col
                 /\ (invalid_count i <= List.length (values col))%nat.
Proof.
  unfold check_unique.
  destruct (in_columns (fst entry) df) as [name |] eqn:Ein; intros H.
  - apply in_columns_getitem in Ein. destruct Ein as [Ekey [col Hcol]].
    peel H as unique En.
    destruct (scalar_eqb unique (JBool true)).
    + destruct (0 <? _)%nat eqn:Epos; injection H as <-; [| intros []].
      apply Nat.ltb_lt in Epos.
      intros [<- | []]. cbn [field rule sev invalid_count].
      repeat split; try assumption; try lia.
      exists col. split; [exact Hcol |].
      unfold column_values. rewrite Hcol.
      eapply Nat.le_trans; [apply count_true_le |].
      unfold duplicated. rewrite duplicated_from_length. apply dropna_length_le.
    + injection H as <-. intros [].
  - injection H as <-. intros [].
Qed.

(** Every issue of the rules is sound for the frame they leave. *)
Lemma run_rules_sound (env : Env) (df df' : DataFrame) (rules : dict) (l : list Issue)
    (i : Issue) :
  run_rules env df rules = Ok (df', l) -> In i l -> sound_issue df' i.
Proof.
  intros Hrun Hi.
  pose proof (run_rules_inv _ _ _ _ _ Hrun) as Hinv.
  destruct Hinv as (dob0 & _ & _ & _ & _ & Hdob & _).
  destruct (issue_origin _ _ _ _ _ _ Hrun Hi) as
    [Hin | Hin | dob Hd Hin | b Hb Hin | s Hs Hin | entry n Hn Hin | entry u Hu Hin].
  - apply check_format_facts in Hin.
    destruct Hin as (Hf & Hr & Hs & Hpos & col & Hcol & Hle).
    split; [left; auto | exact Hpos |].
    exists col. rewrite Hf. split; [| exact Hle].
    apply (check_dob_keeps_some _ _ _ _ _ _ Hdob); [discriminate | exact Hcol].
  - apply check_format_facts in Hin.
    destruct Hin as (Hf & Hr & Hs & Hpos & col & Hcol & Hle).
    split; [right; left; auto | exact Hpos |].
    exists col. rewrite Hf. split; [| exact Hle].
    apply (check_dob_keeps_some _ _ _ _ _ _ Hdob); [discriminate | exact Hcol].
  - destruct (check_dob_facts _ _ _ _ _ Hd Hin)
      as (Hf & Hr & Hs & Hpos & col & Hcol & Hle).
    split; [right; right; left; auto | exact Hpos |].
    exists col. rewrite Hf. split; [| exact Hle].
    apply (check_dob_keeps_some _ _ _ _ _ _ Hdob); [discriminate | exact Hcol].
  - destruct (check_numeric_facts _ _ _ _ _ _ _ Hb Hin)
      as (Hf & Hr & Hs & Hpos & col & Hcol & Hle).
    split; [right; right; right; left; auto | exact Hpos |].
    exists col. rewrite Hf. split; assumption.
  - destruct (check_numeric_facts _ _ _ _ _ _ _ Hs Hin)
      as (Hf & Hr & Hs' & Hpos & col & Hcol & Hle).
    split; [right; right; right; right; left; auto | exact Hpos |].
    exists col. rewrite Hf. split; assumption.
  - destruct (check_not_nullable_facts _ _ _ _ Hn Hin)
      as (_ & Hr & Hs & Hpos & col & Hcol & Hle).
    split; [right; right; right; right; right; left; auto | exact Hpos |].
    exists col. split; assumption.
  - destruct (check_unique_facts _ _ _ _ Hu Hin)
      as (_ & Hr & Hs & Hpos & col & Hcol & Hle).
    split; [right; right; right; right; right; right; auto | exact Hpos |].
    exists col. split; assumption.
Qed.

Lemma validator_sound (env : Env) (file_path cde_config_path : string)
    (res : ValidationResult) :
  ValidatorTool_run env file_path cde_config_path = Json res ->
  exists df rules df',
    read_table env file_path = Ok df
    /\ run_rules env df rules = Ok (df', issues res)
    /\ forall i, In i (issues res) -> sound_issue df' i.
Proof.
  intros H. apply validator_Json_inv in H.
  destruct H as (df & rules & df' & l & Hread & _ & Hrun & Hres).
  apply validation_result_inv in Hres. destruct Hres as [Hl _].
  exists df, rules, df'. rewrite Hl.
  split; [exact Hread |]. split; [exact Hrun |].
  intros i Hi. apply (run_rules_sound _ _ _ _ _ _ Hrun Hi).
Qed.

(** X1.  No issue without a violation: every issue of a successful run
    counts at least one row. *)
Theorem every_issue_counts_a_row (env : Env) (file_path cde_config_path : string)
    (res : ValidationResult) (i : Issue) :
  ValidatorTool_run env file_path cde_config_path = Json res ->
  In i (issues res) ->
  (1 <= invalid_count i)%nat.
Proof.
  intros H Hi. apply validator_sound in H.
  destruct H as (df & rules & df' & _ & _ & Hsound).
  apply (sound_positive df' i (Hsound i Hi)).
Qed.

Lemma every_issue_counts_a_row_witness : (1 <= invalid_count missing_email_issue)%nat.
Proof.
  apply (every_issue_counts_a_row cde_env "customers.csv" "cde_config.json"
           customers_result missing_email_issue).
  - vm_compute. reflexivity.
  - simpl. right. right. left. reflexivity.
Defined.

(** X2.  The rule table: an issue is the e-mail format rule at HIGH, the
    phone format rule at MEDIUM, the future-date rule on [date_of_birth] at
    CRITICAL, the negative-value rule on [account_balance] or the range
    rule on [credit_score] at HIGH, or one of the two CDE rules at
    CRITICAL.  No issue has severity LOW. *)
Theorem every_issue_is_a_table_line (env : Env) (file_path cde_config_path : string)
    (res : ValidationResult) (i : Issue) :
  ValidatorTool_run env file_path cde_config_path = Json res ->
  In i (issues res) ->
  in_rule_table i /\ sev i <> LOW.
Proof.
  intros H Hi. apply validator_sound in H.
  destruct H as (df & rules & df' & _ & _ & Hsound).
  pose proof (sound_table df' i (Hsound i Hi)) as Ht.
  split; [exact Ht |].
  unfold in_rule_table in Ht.
  intros Hlow. rewrite Hlow in Ht.
  repeat (destruct Ht as [Ht | Ht]; [decompose [and] Ht; discriminate |]).
  decompose [and] Ht; discriminate.
Qed.

Lemma every_issue_is_a_table_line_witness :
  in_rule_table missing_email_issue /\ sev missing_email_issue <> LOW.
Proof.
  apply (every_issue_is_a_table_line cde_env "customers.csv" "cde_config.json"
           customers_result missing_email_issue).
  - vm_compute. reflexivity.
  - simpl. right. right. left. reflexivity.
Defined.

(** X3.  An issue bears on a column and counts no more rows than it has:
    its field is a column of the loaded table, or it is [dob_parsed], the
    column of parsed dates the date rule adds to a table that has a
    [date_of_birth], which a configuration can name. *)
Theorem every_issue_names_a_column (env : Env) (file_path cde_config_path : string)
    (df : DataFrame) (res : ValidationResult) (i : Issue) :
  read_table env file_path = Ok df ->
  ValidatorTool_run env file_path cde_config_path = Json res ->
  In i (issues res) ->
  (exists col, Pd.getitem df (field i) = Some col
               /\ (invalid_count i <= List.length (values col))%nat)
  \/ (field i = "dob_parsed"
      /\ exists src, Pd.getitem df "date_of_birth" = Some src
                     /\ (invalid_count i
                         <= List.length (to_datetime env (values src)))%nat).
Proof.
  intros Hread H Hi. apply validator_sound in H.
  destruct H as (df0 & rules & df' & Hread' & Hrun & Hsound).
  rewrite Hread in Hread'. injection Hread' as <-.
  destruct (sound_column df' i (Hsound i Hi)) as (col & Hcol & Hle).
  apply run_rules_inv in Hrun.
  destruct Hrun as (dob & _ & _ & _ & _ & Hdob & _).
  destruct (String.eqb (field i) "dob_parsed") eqn:Ename.
  - apply String.eqb_eq in Ename.
    pose proof (check_dob_frame _ _ _ _ Hdob) as Hframe.
    destruct (Pd.getitem df "date_of_birth") as [src |] eqn:Esrc.
    + right. split; [exact Ename |]. exists src. split; [reflexivity |].
      rewrite Hframe, Ename in Hcol.
      change "dob_parsed"
        with (label (mkSeries "dob_parsed" datetime64 (to_datetime env (values src))))
        in Hcol at 2.
      rewrite getitem_setitem_same in Hcol. injection Hcol as <-. exact Hle.
    + left. destruct Hframe as [-> _]. exists col. split; assumption.
  - apply String.eqb_neq in Ename. left. exists col. split; [| exact Hle].
    rewrite <- (check_dob_keeps_column _ _ _ _ (field i) Hdob Ename). exact Hcol.
Qed.

Lemma every_issue_names_a_column_witness :
  (exists col, Pd.getitem customers (field missing_email_issue) = Some col
               /\ (invalid_count missing_email_issue <= List.length (values col))%nat)
  \/ (field missing_email_issue = "dob_parsed"
      /\ exists src, Pd.getitem customers "date_of_birth" = Some src
                     /\ (invalid_count missing_email_issue
                         <= List.length (to_datetime cde_env (values src)))%nat).
Proof.
  apply (every_issue_names_a_column cde_env "customers.csv" "cde_config.json"
           customers customers_result missing_email_issue).
  - reflexivity.
  - vm_compute. reflexivity.
  - simpl. right. right. left. reflexivity.
Defined.

(* ------------------------------------------------------------------ *)
(** ** The validator: the figures of a result *)
(* ------------------------------------------------------------------ *)

Lemma validation_result_fields (df : DataFrame) (l : list Issue) (res : ValidationResult) :
  validation_result df l = Ok res ->
  total_issues res = List.length l
  /\ critical_issues res = count_severity CRITICAL l
  /\ high_issues res = count_severity HIGH l
  /\ medium_issues res = count_severity MEDIUM l.
Proof.
  unfold validation_result. intros H. peel H as density Ed.
  injection H as <-. simpl. repeat split.
Qed.

Lemma count_severity_total (l : list Issue) :
  (forall i, In i l -> sev i <> LOW) ->
  (count_severity CRITICAL l + count_severity HIGH l + count_severity MEDIUM l
   = List.length l)%nat.
Proof.
  unfold count_severity. induction l as [| i l IH]; intros H; [reflexivity |].
  assert (Hi : sev i <> LOW) by (apply H; left; reflexivity).
  assert (Hl : forall j, In j l -> sev j <> LOW) by (intros j Hj; apply H; right; exact Hj).
  specialize (IH Hl). simpl.
  destruct (sev i); simpl; try lia. congruence.
Qed.

(** X4.  The severity figures partition the issues: [total_issues] is the
    length of the issue list, and the critical, high and medium figures add
    up to it. *)
Theorem severity_figures_add_up (env : Env) (file_path cde_config_path : string)
    (res : ValidationResult) :
  ValidatorTool_run env file_path cde_config_path = Json res ->
  total_issues res = List.length (issues res)
  /\ (critical_issues res + high_issues res + medium_issues res = total_issues res)%nat.
Proof.
  intros H. apply validator_Json_inv in H.
  destruct H as (df & rules & df' & l & _ & _ & Hrun & Hres).
  pose proof (validation_result_fields _ _ _ Hres) as (Ht & Hc & Hh & Hm).
  apply validation_result_inv in Hres. destruct Hres as [Hl _].
  rewrite Ht, Hc, Hh, Hm, Hl. split; [reflexivity |].
  apply count_severity_total. intros i Hi Hlow.
  pose proof (sound_table df' i (run_rules_sound _ _ _ _ _ _ Hrun Hi)) as Ht'.
  unfold in_rule_table in Ht'. rewrite Hlow in Ht'.
  repeat (destruct Ht' as [Ht' | Ht']; [decompose [and] Ht'; discriminate |]).
  decompose [and] Ht'; discriminate.
Qed.

Lemma severity_figures_add_up_witness :
  total_issues customers_result = List.length (issues customers_result)
  /\ (critical_issues customers_result + high_issues customers_result
      + medium_issues customers_result = total_issues customers_result)%nat.
Proof.
  apply (severity_figures_add_up cde_env "customers.csv" "cde_config.json").
  vm_compute. reflexivity.
Defined.

Lemma defect_density_nonneg (violations cells : nat) :
  (0 < cells)%nat -> 0 <= defect_density violations cells.
Proof.
  intros Hc. unfold defect_density. apply Qle_shift_div_l.
  - change 0 with (inject_Z 0). rewrite <- Zlt_Qlt. lia.
  - rewrite Qmult_0_l. change 0 with (inject_Z 0). rewrite <- Zle_Qle. lia.
Qed.

Lemma round4_at_most_one (q : Q) : q <= 1 -> Py.round q 4 <= 1.
Proof.
  intros H. rewrite round4_unfold.
  destruct (round_half_even_between (Qfloor (q * inject_Z 10000)) 10000
              (q * inject_Z 10000)) as [_ Hhi].
  - apply Qfloor_le.
  - change (inject_Z 10000) with 10000. lra.
  - unfold Qle. simpl. lia.
Qed.

(** X5.  A result always counts at least one record, its score is at most
    1, and it is 1 when no issue was found.  A table with no row or no
    column gets no result: the score's divisor would be 0. *)
Theorem score_at_most_one (env : Env) (file_path cde_config_path : string)
    (res : ValidationResult) :
  ValidatorTool_run env file_path cde_config_path = Json res ->
  (1 <= total_records res)%nat
  /\ validity_score res <= 1
  /\ (issues res = [] -> validity_score res == 1).
Proof.
  intros H. apply validator_Json_inv in H.
  destruct H as (df & rules & df' & l & _ & _ & _ & Hres).
  apply validation_result_inv in Hres.
  destruct Hres as (Hl & Hrec & Hcells & Hscore).
  split; [rewrite Hrec; lia |]. rewrite Hscore. split.
  - apply round4_at_most_one.
    pose proof (defect_density_nonneg (sum_invalid l) _ Hcells). lra.
  - rewrite Hl. intros ->. simpl sum_invalid.
    assert (Hd : 1 - defect_density 0 (Pd.len df' * List.length (columns df')) == 1).
    { unfold defect_density. simpl. unfold Qdiv. ring. }
    rewrite round4_unfold.
    assert (Hr : round_half_even
                   ((1 - defect_density 0 (Pd.len df' * List.length (columns df')))
                    * inject_Z 10000) = 10000%Z).
    { destruct (round_half_even_between 10000 10000
                  ((1 - defect_density 0 (Pd.len df' * List.length (columns df')))
                   * inject_Z 10000)) as [Hlo Hhi].
      - rewrite Hd. change (inject_Z 10000) with 10000. lra.
      - rewrite Hd. change (inject_Z 10000) with 10000. lra.
      - lia. }
    rewrite Hr. reflexivity.
Qed.

Lemma score_at_most_one_witness :
  (1 <= total_records customers_result)%nat
  /\ validity_score customers_result <= 1
  /\ (issues customers_result = [] -> validity_score customers_result == 1).
Proof.
  apply (score_at_most_one cde_env "customers.csv" "cde_config.json").
  vm_compute. reflexivity.
Defined.

(** X6.  The rounding is all that separates the score from the defect
    density: for a table without a [date_of_birth] column the score is
    within 0.00005 of 1 minus violations over cells. *)
Theorem score_close_to_density (env : Env) (file_path cde_config_path : string)
    (df : DataFrame) (res : ValidationResult) :
  read_table env file_path = Ok df ->
  Pd.getitem df "date_of_birth" = None ->
  ValidatorTool_run env file_path cde_config_path = Json res ->
  let exact := 1 - defect_density (sum_invalid (issues res))
                     (Pd.len df * List.length (columns df)) in
  exact - (1 # 20000) <= validity_score res
  /\ validity_score res <= exact + (1 # 20000).
Proof.
  intros Hread Hdob H. apply validator_Json_inv in H.
  destruct H as (df0 & rules & df' & l & Hread' & _ & Hrun & Hres).
  rewrite Hread in Hread'. injection Hread' as <-.
  apply run_rules_inv in Hrun.
  destruct Hrun as (dob & _ & _ & _ & _ & Hd & _).
  apply check_dob_frame in Hd. rewrite Hdob in Hd. destruct Hd as [-> _].
  apply validation_result_inv in Hres.
  destruct Hres as (Hl & _ & _ & Hscore).
  cbn zeta. rewrite Hl, Hscore. apply round4_error.
Qed.

Lemma score_close_to_density_witness :
  1 - defect_density 3 9 - (1 # 20000) <= 6667 # 10000
  /\ 6667 # 10000 <= 1 - defect_density 3 9 + (1 # 20000).
Proof.
  apply (score_close_to_density cde_env "customers.csv" "cde_config.json"
           customers customers_result).
  - reflexivity.
  - reflexivity.
  - vm_compute. reflexivity.
Defined.

(* ------------------------------------------------------------------ *)
(** ** The validator: when it gives no result, and what changes nothing *)
(* ------------------------------------------------------------------ *)

Lemma compare_column_comparable (test : Q -> bool) (l : list cell) (mask : list bool)
    (c : cell) :
  compare_column test l = Ok mask -> In c l -> ~ not_comparable c.
Proof.
  revert mask. induction l as [| c0 l IH]; simpl; intros mask H Hin; [destruct Hin |].
  peel H as b Eb. peel H as bs Ebs.
  destruct Hin as [-> | Hin].
  - destruct c; simpl in *; try discriminate Eb; tauto.
  - apply (IH bs Ebs Hin).
Qed.

Lemma check_numeric_comparable (df : DataFrame) (name rule_id : string)
    (test : Q -> bool) (what : string) (l : list Issue) (col : Series) (c : cell) :
  check_numeric df name rule_id test what = Ok l ->
  Pd.getitem df name = Some col -> In c (values col) -> ~ not_comparable c.
Proof.
  unfold check_numeric. intros H Hcol Hin. rewrite Hcol in H.
  peel H as mask Emask. apply (compare_column_comparable _ _ _ _ Emask Hin).
Qed.

(** X7.  One text (or timestamp) among the balances or the credit scores
    and the validator gives no result at all, whatever the other rules
    found and whatever the configuration: the comparison with a number
    raises, and the tool answers with an error text. *)
Theorem uncomparable_cell_fails_validation (env : Env)
    (file_path cde_config_path : string) (df : DataFrame) (name : string)
    (col : Series) (c : cell) :
  read_table env file_path = Ok df ->
  name = "account_balance" \/ name = "credit_score" ->
  Pd.getitem df name = Some col ->
  In c (values col) -> not_comparable c ->
  exists msg, ValidatorTool_run env file_path cde_config_path = Text msg.
Proof.
  intros Hread Hname Hcol Hin Hbad.
  destruct (ValidatorTool_run env file_path cde_config_path) as [res | msg] eqn:Erun;
    [| exists msg; reflexivity].
  exfalso. apply validator_Json_inv in Erun.
  destruct Erun as (df0 & rules & df' & l & Hread' & _ & Hrun & _).
  rewrite Hread in Hread'. injection Hread' as <-.
  apply run_rules_inv in Hrun.
  destruct Hrun as (dob & balance & score & _ & _ & Hd & Hb & Hs & _).
  destruct Hname as [-> | ->].
  - apply (check_numeric_comparable _ _ _ _ _ _ col c Hb); try assumption.
    apply (check_dob_keeps_some _ _ _ _ _ _ Hd); [discriminate | exact Hcol].
  - apply (check_numeric_comparable _ _ _ _ _ _ col c Hs); try assumption.
    apply (check_dob_keeps_some _ _ _ _ _ _ Hd); [discriminate | exact Hcol].
Qed.

Lemma uncomparable_cell_fails_validation_witness :
  exists msg,
    ValidatorTool_run (sample_env (Ok text_balances) None) "customers.csv" EmptyString
    = Text msg.
Proof.
  apply (uncomparable_cell_fails_validation
           (sample_env (Ok text_balances) None) "customers.csv" EmptyString
           text_balances "account_balance"
           (mkSeries "account_balance" object [Txt "12,50"; Txt "7"]) (Txt "7")).
  - reflexivity.
  - left. reflexivity.
  - reflexivity.
  - simpl. right. left. reflexivity.
  - exact I.
Defined.

Lemma columns_after_dob (env : Env) (df df' : DataFrame) (dob : list Issue)
    (name : string) :
  check_dob env df = Ok (df', dob) ->
  Str.mem name (columns df') = true ->
  Str.mem name (columns df) = true \/ name = "dob_parsed".
Proof.
  intros H Hmem. apply getitem_mem in Hmem. destruct Hmem as [col Hcol].
  destruct (String.eqb name "dob_parsed") eqn:E.
  - right. apply String.eqb_eq. exact E.
  - left. apply String.eqb_neq in E.
    rewrite (check_dob_keeps_column _ _ _ _ name H E) in Hcol.
    clear - Hcol. unfold Str.mem, columns.
    induction df as [| s df IH]; simpl in *; [discriminate |].
    rewrite (String.eqb_sym name (label s)).
    destruct (String.eqb (label s) name); [reflexivity | apply IH; exact Hcol].
Qed.

Lemma concatM_nothing {A B} (f : A -> result (list B)) (l : list A) :
  (forall a, In a l -> f a = Ok []) -> concatM f l = Ok [].
Proof.
  unfold concatM. intros H.
  assert (Hm : mapM f l = Ok (map (fun _ => []) l)).
  { induction l as [| a l IH]; simpl; [reflexivity |].
    rewrite (H a) by (left; reflexivity). simpl.
    rewrite IH by (intros b Hb; apply H; right; exact Hb). reflexivity. }
  rewrite Hm. simpl. f_equal.
  clear. induction l as [| a l IH]; simpl; [reflexivity | exact IH].
Qed.

(** X8.  Entries of [cde_rules] whose field is no column are passed over
    without a trace: when no key of the loaded rules is a column of the
    table (nor [dob_parsed]), the validator answers exactly as it does with
    no configuration. *)
Theorem unmatched_rules_change_nothing (env : Env) (file_path cde_config_path : string)
    (df : DataFrame) (rules : dict) :
  read_table env file_path = Ok df ->
  load_cde_rules env cde_config_path = Ok rules ->
  (forall entry name,
     In entry rules -> fst entry = JStr name ->
     Str.mem name (columns df) = false /\ name <> "dob_parsed") ->
  ValidatorTool_run env file_path cde_config_path
  = ValidatorTool_run env file_path EmptyString.
Proof.
  intros Hread Hrules Hkeys. unfold ValidatorTool_run.
  rewrite Hread, Hrules. simpl.
  unfold run_rules.
  destruct (check_dob env df) as [[df' dob] | e] eqn:Edob; simpl; [| reflexivity].
  destruct (check_numeric df' "account_balance" _ _ _) as [balance | e]; simpl;
    [| reflexivity].
  destruct (check_numeric df' "credit_score" _ _ _) as [score | e]; simpl;
    [| reflexivity].
  assert (Hnone : forall entry, In entry rules -> in_columns (fst entry) df' = None).
  { intros entry Hin. unfold in_columns.
    destruct (fst entry) as [| b | q | s | l0 | kv] eqn:Ekey; try reflexivity.
    destruct (Str.mem s (columns df')) eqn:Emem; [| reflexivity].
    destruct (Hkeys entry s Hin Ekey) as [Hnot Hne].
    destruct (columns_after_dob _ _ _ _ s Edob Emem); congruence. }
  rewrite (concatM_nothing (check_not_nullable df') rules)
    by (intros entry Hin; unfold check_not_nullable; rewrite (Hnone entry Hin);
        reflexivity).
  rewrite (concatM_nothing (check_unique df') rules)
    by (intros entry Hin; unfold check_unique; rewrite (Hnone entry Hin);
        reflexivity).
  reflexivity.
Qed.

Lemma unmatched_rules_change_nothing_witness :
  ValidatorTool_run (sample_env (Ok customers) (Some (Ok iban_is_cde)))
    "customers.csv" "cde_config.json"
  = ValidatorTool_run (sample_env (Ok customers) (Some (Ok iban_is_cde)))
      "customers.csv" EmptyString.
Proof.
  apply (unmatched_rules_change_nothing
           (sample_env (Ok customers) (Some (Ok iban_is_cde)))
           "customers.csv" "cde_config.json" customers
           [ (JStr "iban",
              JObj [ ("field", JStr "iban"); ("nullable", JBool false);
                     ("unique", JBool true) ]) ]).
  - reflexivity.
  - reflexivity.
  - intros entry name [<- | []] E. simpl in E. injection E as <-.
    split; [reflexivity | discriminate].
Defined.

(* ------------------------------------------------------------------ *)
(** ** The validator: the order of the issues *)
(* ------------------------------------------------------------------ *)

Lemma subseq_app {A} (l1 m1 l2 m2 : list A) :
  subseq l1 m1 -> subseq l2 m2 -> subseq (l1 ++ l2) (m1 ++ m2).
Proof.
  intros H1 H2. induction H1; simpl.
  - exact H2.
  - apply subseq_skip. exact IHsubseq.
  - apply subseq_take. exact IHsubseq.
Qed.

Lemma subseq_length {A} (l m : list A) : subseq l m -> (List.length l <= List.length m)%nat.
Proof. intros H. induction H; simpl; lia. Qed.

Lemma check_format_key (env : Env) (df : DataFrame) (name : string)
    (pattern : Re.regex) (s : severity) (what : string) :
  subseq (map issue_key (check_format env df name pattern s what))
         [(name, "format_validation")].
Proof.
  unfold check_format.
  destruct (Pd.getitem df name) as [col |]; [| apply subseq_skip, subseq_nil].
  destruct (0 <? _)%nat; [apply subseq_take | apply subseq_skip]; apply subseq_nil.
Qed.

Lemma check_dob_key (env : Env) (df df' : DataFrame) (dob : list Issue) :
  check_dob env df = Ok (df', dob) ->
  subseq (map issue_key dob) [("date_of_birth", "future_date")].
Proof.
  unfold check_dob.
  destruct (Pd.getitem df "date_of_birth") as [col |]; intros H.
  - peel H as mask Emask. injection H as _ <-.
    destruct (0 <? _)%nat; [apply subseq_take | apply subseq_skip]; apply subseq_nil.
  - injection H as _ <-. apply subseq_skip, subseq_nil.
Qed.

Lemma check_numeric_key (df : DataFrame) (name rule_id : string) (test : Q -> bool)
    (what : string) (l : list Issue) :
  check_numeric df name rule_id test what = Ok l ->
  subseq (map issue_key l) [(name, rule_id)].
Proof.
  unfold check_numeric.
  destruct (Pd.getitem df name) as [col |]; intros H.
  - peel H as mask Emask. injection H as <-.
    destruct (0 <? _)%nat; [apply subseq_take | apply subseq_skip]; apply subseq_nil.
  - injection H as <-. apply subseq_skip, subseq_nil.
Qed.

Lemma concatM_all {A B} (P : B -> Prop) (f : A -> result (list B)) (l : list A)
    (bs : list B) :
  (forall a out b, f a = Ok out -> In b out -> P b) ->
  concatM f l = Ok bs -> Forall P bs.
Proof.
  intros HP H. apply Forall_forall. intros b Hb.
  destruct (in_concatM _ _ _ _ H Hb) as (a & out & _ & Hf & Hin).
  apply (HP a out b Hf Hin).
Qed.

(** X9.  The issues come in the order the rules run: first those of the
    catalog, at most one for each of its five lines and in the order of
    the lines, then the [cde_not_nullable] issues, then the
    [cde_uniqueness] issues. *)
Theorem issues_follow_rule_order (env : Env) (file_path cde_config_path : string)
    (res : ValidationResult) :
  ValidatorTool_run env file_path cde_config_path = Json res ->
  exists cat nulls dups,
    issues res = (cat ++ nulls ++ dups)%list
    /\ subseq (map issue_key cat) catalog_order
    /\ (List.length cat <= 5)%nat
    /\ Forall (fun i => rule i = "cde_not_nullable") nulls
    /\ Forall (fun i => rule i = "cde_uniqueness") dups.
Proof.
  intros H. apply validator_Json_inv in H.
  destruct H as (df & rules & df' & l & _ & _ & Hrun & Hres).
  apply validation_result_inv in Hres. destruct Hres as [Hl _].
  apply run_rules_inv in Hrun.
  destruct Hrun as (dob & balance & score & nulls & dups & Hd & Hb & Hs & Hn & Hu & ->).
  set (email := check_format env df "email" email_pattern HIGH "email").
  set (phone := check_format env df "phone" (phone_pattern env) MEDIUM "phone").
  assert (Hsub : subseq (map issue_key (email ++ phone ++ dob ++ balance ++ score))
                        catalog_order).
  { rewrite !map_app.
    change catalog_order
      with ([("email", "format_validation")] ++ [("phone", "format_validation")]
            ++ [("date_of_birth", "future_date")]
            ++ [("account_balance", "negative_value")]
            ++ [("credit_score", "range_validation")])%list.
    apply subseq_app; [apply check_format_key |].
    apply subseq_app; [apply check_format_key |].
    apply subseq_app; [apply (check_dob_key _ _ _ _ Hd) |].
    apply subseq_app; [apply (check_numeric_key _ _ _ _ _ _ Hb) |].
    apply (check_numeric_key _ _ _ _ _ _ Hs). }
  exists (email ++ phone ++ dob ++ balance ++ score)%list, nulls, dups.
  split; [rewrite Hl; rewrite <- !app_assoc; reflexivity |].
  split; [exact Hsub |].
  split.
  { apply subseq_length in Hsub. rewrite length_map in Hsub. exact Hsub. }
  split.
  - apply (concatM_all _ _ _ _ (fun entry out i Hf Hin =>
             proj1 (check_not_nullable_issue df' entry out i Hf Hin)) Hn).
  - apply (concatM_all _ _ _ _ (fun entry out i Hf Hin =>
             proj1 (check_unique_issue df' entry out i Hf Hin)) Hu).
Qed.

Lemma issues_follow_rule_order_witness :
  exists cat nulls dups,
    issues customers_result = (cat ++ nulls ++ dups)%list
    /\ subseq (map issue_key cat) catalog_order
    /\ (List.length cat <= 5)%nat
    /\ Forall (fun i => rule i = "cde_not_nullable") nulls
    /\ Forall (fun i => rule i = "cde_uniqueness") dups.
Proof.
  apply (issues_follow_rule_order cde_env "customers.csv" "cde_config.json").
  vm_compute. reflexivity.
Defined.

(* ------------------------------------------------------------------ *)
(** ** The validator: one entry of [cde_rules] for each field *)
(* ------------------------------------------------------------------ *)

Lemma dict_set_keys (d : dict) (k v : json) (k' : json) :
  In k' (map fst (dict_set d k v)) -> In k' (map fst d) \/ k' = k.
Proof.
  induction d as [| [k0 v0] d IH]; simpl.
  - intros [<- | []]. right. reflexivity.
  - destruct (scalar_eqb k0 k); simpl.
    + intros [<- | H]; [left; left; reflexivity | left; right; exact H].
    + intros [<- | H]; [left; left; reflexivity |].
      destruct (IH H) as [H' | ->]; [left; right; exact H' | right; reflexivity].
Qed.

Lemma dict_set_distinct (d : dict) (k v : json) :
  distinct_keys d -> distinct_keys (dict_set d k v).
Proof.
  induction d as [| [k0 v0] d IH]; simpl.
  - intros _. split; [intros k' [] | exact I].
  - intros [Hk0 Hd].
    destruct (scalar_eqb k0 k) eqn:E; simpl.
    + split; assumption.
    + split; [| apply IH; exact Hd].
      intros k' Hin. apply dict_set_keys in Hin.
      destruct Hin as [Hin | ->]; [apply Hk0; exact Hin | exact E].
Qed.

Lemma for_each_invariant {A S} (P : S -> Prop) (body : S -> A -> result S)
    (l : list A) (s s' : S) :
  (forall s0 a s1, P s0 -> body s0 a = Ok s1 -> P s1) ->
  P s -> for_each body l s = Ok s' -> P s'.
Proof.
  intros Hbody. revert s. induction l as [| a l IH]; simpl; intros s Hs H.
  - injection H as <-. exact Hs.
  - peel H as s1 E1. apply (IH s1); [apply (Hbody s a s1 Hs E1) | exact H].
Qed.

Lemma load_cde_rules_distinct (env : Env) (cde_config_path : string) (rules : dict) :
  load_cde_rules env cde_config_path = Ok rules -> distinct_keys rules.
Proof.
  unfold load_cde_rules.
  destruct (_ && _).
  - intros H. peel H as config Ec. peel H as cdes Ecdes. peel H as items Ei.
    apply (for_each_invariant distinct_keys _ _ _ _) in H; [exact H | | exact I].
    intros d cde d1 Hd Hbody. peel Hbody as key Ek.
    unfold Js.setitem in Hbody. destruct (hashable key); [| discriminate Hbody].
    injection Hbody as <-. apply dict_set_distinct. exact Hd.
  - intros H. injection H as <-. exact I.
Qed.

Lemma concatM_fields_distinct (check : json * json -> result (list Issue))
    (rules : dict) (out : list Issue) :
  (forall entry l i, check entry = Ok l -> In i l -> fst entry = JStr (field i)) ->
  (forall entry l, check entry = Ok l -> (List.length l <= 1)%nat) ->
  distinct_keys rules ->
  concatM check rules = Ok out ->
  NoDup (map field out).
Proof.
  intros Hkey Hone. revert out.
  induction rules as [| [k v] rules IH]; intros out Hd H.
  - unfold concatM in H. simpl in H. injection H as <-. constructor.
  - unfold concatM in H. simpl in H.
    peel H as ls Els. peel Els as l0 E0. peel Els as ls' Els'.
    injection Els as <-. injection H as <-. simpl.
    destruct Hd as [Hk Hd].
    assert (Hrest : concatM check rules = Ok (List.concat ls')).
    { unfold concatM. rewrite Els'. reflexivity. }
    specialize (IH _ Hd Hrest).
    pose proof (Hone _ _ E0) as Hlen.
    destruct l0 as [| i [| j l0]]; simpl in *; [exact IH | | lia].
    constructor; [| exact IH].
    intros Hin. apply in_map_iff in Hin. destruct Hin as [j [Hf Hj]].
    destruct (in_concatM _ _ _ _ Hrest Hj) as (entry & l' & Hentry & Hcheck & Hj').
    pose proof (Hkey _ _ _ E0 (or_introl eq_refl)) as Hki. simpl in Hki.
    pose proof (Hkey _ _ _ Hcheck Hj') as Hkj.
    assert (Hne : scalar_eqb k (fst entry) = false)
      by (apply Hk; apply in_map; exact Hentry).
    rewrite Hki, Hkj, Hf in Hne. simpl in Hne.
    rewrite String.eqb_refl in Hne. discriminate Hne.
Qed.

Lemma check_not_nullable_one (df : DataFrame) (entry : json * json) (l : list Issue) :
  check_not_nullable df entry = Ok l -> (List.length l <= 1)%nat.
Proof.
  unfold check_not_nullable.
  destruct (in_columns (fst entry) df); intros H.
  - peel H as nullable En. destruct (scalar_eqb nullable (JBool false)).
    + destruct (0 <? _)%nat; injection H as <-; simpl; lia.
    + injection H as <-. simpl. lia.
  - injection H as <-. simpl. lia.
Qed.

Lemma check_unique_one (df : DataFrame) (entry : json * json) (l : list Issue) :
  check_unique df entry = Ok l -> (List.length l <= 1)%nat.
Proof.
  unfold check_unique.
  destruct (in_columns (fst entry) df); intros H.
  - peel H as unique En. destruct (scalar_eqb unique (JBool true)).
    + destruct (0 <? _)%nat; injection H as <-; simpl; lia.
    + injection H as <-. simpl. lia.
  - injection H as <-. simpl. lia.
Qed.

Lemma filter_rule_app (r : string) (l m : list Issue) :
  filter (fun i => String.eqb (rule i) r) (l ++ m)
  = (filter (fun i => String.eqb (rule i) r) l
     ++ filter (fun i => String.eqb (rule i) r) m)%list.
Proof. apply filter_app. Qed.

Lemma filter_rule_all (r : string) (l : list Issue) :
  (forall i, In i l -> rule i = r) ->
  filter (fun i => String.eqb (rule i) r) l = l.
Proof.
  induction l as [| i l IH]; simpl; intros H; [reflexivity |].
  rewrite (H i) by (left; reflexivity). rewrite String.eqb_refl.
  f_equal. apply IH. intros j Hj. apply H. right. exact Hj.
Qed.

Lemma filter_rule_none (r : string) (l : list Issue) :
  (forall i, In i l -> rule i <> r) ->
  filter (fun i => String.eqb (rule i) r) l = [].
Proof.
  induction l as [| i l IH]; simpl; intros H; [reflexivity |].
  assert (Hi : rule i <> r) by (apply H; left; reflexivity).
  apply String.eqb_neq in Hi. rewrite Hi.
  apply IH. intros j Hj. apply H. right. exact Hj.
Qed.

(** X10.  A field is reported at most once by each CDE rule, however often
    the configuration declares it: [cde_rules] keeps one entry for each
    field, so the [cde_not_nullable] issues bear on distinct fields, and so
    do the [cde_uniqueness] issues. *)
Theorem cde_rules_report_a_field_once (env : Env) (file_path cde_config_path : string)
    (res : ValidationResult) :
  ValidatorTool_run env file_path cde_config_path = Json res ->
  NoDup (map field
           (filter (fun i => String.eqb (rule i) "cde_not_nullable") (issues res)))
  /\ NoDup (map field
              (filter (fun i => String.eqb (rule i) "cde_uniqueness") (issues res))).
Proof.
  intros H. apply validator_Json_inv in H.
  destruct H as (df & rules & df' & l & _ & Hload & Hrun & Hres).
  apply validation_result_inv in Hres. destruct Hres as [Hl _].
  apply load_cde_rules_distinct in Hload.
  pose proof Hrun as Hinv. apply run_rules_inv in Hinv.
  destruct Hinv as (dob & balance & score & nulls & dups & Hd & Hb & Hs & Hn & Hu & El).
  assert (Hnulls : NoDup (map field nulls)).
  { apply (concatM_fields_distinct (check_not_nullable df') rules); try assumption.
    - intros entry out i Hf Hin.
      apply (proj1 (check_not_nullable_facts df' entry out i Hf Hin)).
    - apply check_not_nullable_one. }
  assert (Hdups : NoDup (map field dups)).
  { apply (concatM_fields_distinct (check_unique df') rules); try assumption.
    - intros entry out i Hf Hin.
      apply (proj1 (check_unique_facts df' entry out i Hf Hin)).
    - apply check_unique_one. }
  assert (Hrn : forall i, In i nulls -> rule i = "cde_not_nullable").
  { intros i Hi. destruct (in_concatM _ _ _ _ Hn Hi) as (entry & out & _ & Hf & Hin).
    apply (proj1 (check_not_nullable_issue df' entry out i Hf Hin)). }
  assert (Hrd : forall i, In i dups -> rule i = "cde_uniqueness").
  { intros i Hi. destruct (in_concatM _ _ _ _ Hu Hi) as (entry & out & _ & Hf & Hin).
    apply (proj1 (check_unique_issue df' entry out i Hf Hin)). }
  rewrite Hl, El. rewrite !filter_rule_app.
  rewrite (filter_rule_none "cde_not_nullable"
             (check_format env df "email" email_pattern HIGH "email"))
    by (intros i Hi; apply check_format_facts in Hi;
        destruct Hi as (_ & -> & _); discriminate).
  rewrite (filter_rule_none "cde_not_nullable"
             (check_format env df "phone" (phone_pattern env) MEDIUM "phone"))
    by (intros i Hi; apply check_format_facts in Hi;
        destruct Hi as (_ & -> & _); discriminate).
  rewrite (filter_rule_none "cde_not_nullable" dob)
    by (intros i Hi; destruct (check_dob_facts _ _ _ _ _ Hd Hi) as (_ & -> & _);
        discriminate).
  rewrite (filter_rule_none "cde_not_nullable" balance)
    by (intros i Hi; destruct (check_numeric_facts _ _ _ _ _ _ _ Hb Hi) as (_ & -> & _);
        discriminate).
  rewrite (filter_rule_none "cde_not_nullable" score)
    by (intros i Hi; destruct (check_numeric_facts _ _ _ _ _ _ _ Hs Hi) as (_ & -> & _);
        discriminate).
  rewrite (filter_rule_all "cde_not_nullable" nulls Hrn).
  rewrite (filter_rule_none "cde_not_nullable" dups)
    by (intros i Hi; rewrite (Hrd i Hi); discriminate).
  rewrite (filter_rule_none "cde_uniqueness"
             (check_format env df "email" email_pattern HIGH "email"))
    by (intros i Hi; apply check_format_facts in Hi;
        destruct Hi as (_ & -> & _); discriminate).
  rewrite (filter_rule_none "cde_uniqueness"
             (check_format env df "phone" (phone_pattern env) MEDIUM "phone"))
    by (intros i Hi; apply check_format_facts in Hi;
        destruct Hi as (_ & -> & _); discriminate).
  rewrite (filter_rule_none "cde_uniqueness" dob)
    by (intros i Hi; destruct (check_dob_facts _ _ _ _ _ Hd Hi) as (_ & -> & _);
        discriminate).
  rewrite (filter_rule_none "cde_uniqueness" balance)
    by (intros i Hi; destruct (check_numeric_facts _ _ _ _ _ _ _ Hb Hi) as (_ & -> & _);
        discriminate).
  rewrite (filter_rule_none "cde_uniqueness" score)
    by (intros i Hi; destruct (check_numeric_facts _ _ _ _ _ _ _ Hs Hi) as (_ & -> & _);
        discriminate).
  rewrite (filter_rule_none "cde_uniqueness" nulls)
    by (intros i Hi; rewrite (Hrn i Hi); discriminate).
  rewrite (filter_rule_all "cde_uniqueness" dups Hrd).
  simpl. rewrite app_nil_r. split; assumption.
Qed.

Lemma cde_rules_report_a_field_once_witness :
  exists res,
    ValidatorTool_run (sample_env (Ok customers) (Some (Ok email_twice)))
      "customers.csv" "cde_config.json" = Json res
    /\ List.length (filter (fun i => String.eqb (rule i) "cde_not_nullable") (issues res))
       = 1%nat
    /\ NoDup (map field
                (filter (fun i => String.eqb (rule i) "cde_not_nullable") (issues res)))
    /\ NoDup (map field
                (filter (fun i => String.eqb (rule i) "cde_uniqueness") (issues res))).
Proof.
  eexists. split; [vm_compute; reflexivity |]. split; [reflexivity |].
  apply (cde_rules_report_a_field_once
           (sample_env (Ok customers) (Some (Ok email_twice)))
           "customers.csv" "cde_config.json").
  vm_compute. reflexivity.
Defined.

(* ------------------------------------------------------------------ *)
(** ** The profiler: structure of a successful run *)
(* ------------------------------------------------------------------ *)

Lemma profiler_Json_inv (env : Env) (file_path cde_fields : string) (s : ProfileSummary) :
  ProfilerTool_run env file_path cde_fields = Json s ->
  exists df,
    read_table env file_path = Ok df
    /\ df <> []
    /\ profile_summary (map (profile_column env (parse_cde_fields cde_fields)) df) = Ok s.
Proof.
  unfold ProfilerTool_run. intros H. apply try_except_Json in H.
  peel H as df Edf. peel H as s' Es. injection H as <-.
  exists df. split; [exact Edf |]. split; [| exact Es].
  intros ->. simpl in Es. discriminate Es.
Qed.

Lemma mean_completeness_Ok (ps : list ColumnProfile) :
  ps <> [] ->
  mean_completeness ps
  = Ok (round_float (float_div_nat (sum_completeness ps) (List.length ps)) 4).
Proof. destruct ps; [congruence | reflexivity]. Qed.

Lemma profile_summary_fields (profile : list ColumnProfile) (s : ProfileSummary) :
  profile_summary profile = Ok s ->
  column_profiles s = profile
  /\ total_columns s = List.length profile
  /\ cde_columns s = List.length (filter is_cde profile)
  /\ columns_with_nulls s
     = List.length (filter (fun p => (0 <? null_count p)%nat) profile)
  /\ columns_with_duplicates s
     = List.length (filter (fun p => (0 <? duplicate_count p)%Z) profile)
  /\ mean_completeness profile = Ok (overall_completeness s)
  /\ match cde_completeness s with
     | None => filter is_cde profile = []
     | Some m => filter is_cde profile <> []
                 /\ mean_completeness (filter is_cde profile) = Ok m
     end.
Proof.
  unfold profile_summary. intros H. peel H as overall Eo. peel H as cde Ec.
  injection H as <-. simpl. repeat split; try assumption.
  destruct (filter is_cde profile) as [| p ps] eqn:Ef.
  - injection Ec as <-. reflexivity.
  - peel Ec as m Em. injection Ec as <-. split; [discriminate | exact Em].
Qed.

Lemma count_notna_isna (l : list cell) :
  (count_true (map isna l) + count_true (map notna l) = List.length l)%nat.
Proof.
  rewrite !count_true_map. induction l as [| c l IH]; simpl; [reflexivity |].
  unfold isna in *. destruct (notna c); simpl; lia.
Qed.

(** X11.  The counts of a profile are consistent: missing and present
    values add up to the rows, the distinct values are no more than the
    present ones, and [duplicate_count] is their difference, never
    negative. *)
Theorem profile_counts_are_consistent (env : Env) (file_path cde_fields : string)
    (s : ProfileSummary) (p : ColumnProfile) :
  ProfilerTool_run env file_path cde_fields = Json s ->
  In p (column_profiles s) ->
  (null_count p + non_null_count p = total_rows p)%nat
  /\ (unique_count p <= non_null_count p)%nat
  /\ duplicate_count p = (Z.of_nat (non_null_count p) - Z.of_nat (unique_count p))%Z
  /\ (0 <= duplicate_count p)%Z.
Proof.
  intros H Hp. apply profiler_Json_inv in H. destruct H as (df & _ & _ & Hs).
  apply profile_summary_fields in Hs. destruct Hs as (Hprof & _).
  rewrite Hprof in Hp. apply in_map_iff in Hp. destruct Hp as [col [<- _]].
  unfold profile_column.
  cbn [null_count non_null_count total_rows unique_count duplicate_count].
  pose proof (nunique_le_non_null (values col)).
  split; [apply count_notna_isna |]. split; [assumption |]. split; [reflexivity | lia].
Qed.

(** X12.  The profiler needs a table with a column.  When it answers with
    a summary, the file was read and the table has a column; a file that
    cannot be read, and a table without columns, which makes the mean
    completeness divide by zero, are answered with an error text.  The
    list of critical fields has no part in it: the profiler answers with a
    summary for one list exactly when it does for any other. *)
Theorem profiler_needs_a_column (env : Env) (file_path cde_fields : string) :
  (forall s, ProfilerTool_run env file_path cde_fields = Json s ->
     exists df, read_table env file_path = Ok df /\ df <> [])
  /\ (forall e, read_table env file_path = Raise e ->
       ProfilerTool_run env file_path cde_fields
       = Text ("Error profiling data: " ++ exn_str e))
  /\ (read_table env file_path = Ok [] ->
       exists e, exn_cls e = ZeroDivisionError
                 /\ ProfilerTool_run env file_path cde_fields
                    = Text ("Error profiling data: " ++ exn_str e))
  /\ (forall other,
       (exists s, ProfilerTool_run env file_path cde_fields = Json s)
       <-> (exists s, ProfilerTool_run env file_path other = Json s)).
Proof.
  assert (Hiff : forall fields,
            (exists s, ProfilerTool_run env file_path fields = Json s)
            <-> (exists df, read_table env file_path = Ok df /\ df <> [])).
  { intros fields. split.
    - intros [s H]. apply profiler_Json_inv in H. destruct H as (df & Hr & Hne & _).
      exists df. split; assumption.
    - intros (df & Hr & Hne). unfold ProfilerTool_run. rewrite Hr. simpl.
      unfold profile_summary.
      set (profile := map (profile_column env (parse_cde_fields fields)) df).
      assert (Hp : profile <> []).
      { unfold profile. destruct df; [congruence | discriminate]. }
      rewrite (mean_completeness_Ok profile Hp). simpl.
      destruct (filter is_cde profile) as [| p ps] eqn:Ef; simpl;
        eexists; reflexivity. }
  split; [| split; [| split]].
  - intros s H. apply (proj1 (Hiff cde_fields)). exists s. exact H.
  - intros e Hr. unfold ProfilerTool_run. rewrite Hr. reflexivity.
  - intros Hr. unfold ProfilerTool_run. rewrite Hr. simpl.
    eexists (Exn ZeroDivisionError _). split; reflexivity.
  - intros other. rewrite (Hiff cde_fields), (Hiff other). reflexivity.
Qed.

Lemma filter_length_map {A B} (f : A -> B) (g : B -> bool) (l : list A) :
  List.length (filter g (map f l)) = List.length (filter (fun a => g (f a)) l).
Proof.
  induction l as [| a l IH]; simpl; [reflexivity |].
  destruct (g (f a)); simpl; rewrite IH; reflexivity.
Qed.

(** X13.  The summary has one profile for each column, in the order of the
    columns.  A column is critical exactly when its name is one of the
    listed names with the surrounding white space removed; [cde_columns]
    counts the columns so marked, so a listed name that matches no column
    counts for nothing, and [cde_completeness] is absent exactly when no
    column is critical. *)
Theorem profiles_follow_the_columns (env : Env) (file_path cde_fields : string)
    (df : DataFrame) (s : ProfileSummary) :
  read_table env file_path = Ok df ->
  ProfilerTool_run env file_path cde_fields = Json s ->
  map cp_column (column_profiles s) = columns df
  /\ map is_cde (column_profiles s)
     = map (fun name => Str.mem name (parse_cde_fields cde_fields)) (columns df)
  /\ total_columns s = List.length (columns df)
  /\ cde_columns s
     = List.length (filter (fun name => Str.mem name (parse_cde_fields cde_fields))
                           (columns df))
  /\ (cde_columns s <= total_columns s)%nat
  /\ (cde_completeness s = None <-> cde_columns s = O).
Proof.
  intros Hread H. apply profiler_Json_inv in H. destruct H as (df0 & Hr & _ & Hs).
  rewrite Hread in Hr. injection Hr as <-.
  apply profile_summary_fields in Hs.
  destruct Hs as (Hprof & Htot & Hcde & _ & _ & _ & Hcc).
  assert (Hiff : cde_completeness s = None <-> cde_columns s = O).
  { rewrite Hcde. destruct (cde_completeness s) as [m |].
    - destruct Hcc as [Hne _]. split; [discriminate |].
      intros H0. destruct (filter is_cde _); [congruence | discriminate H0].
    - rewrite Hcc. split; reflexivity. }
  split; [rewrite Hprof; unfold columns; rewrite map_map; reflexivity |].
  split; [rewrite Hprof; unfold columns; rewrite !map_map; reflexivity |].
  split; [rewrite Htot; unfold columns; rewrite !length_map; reflexivity |].
  split.
  { rewrite Hcde. unfold columns. rewrite !filter_length_map. reflexivity. }
  split; [| exact Hiff].
  rewrite Hcde, Htot. apply filter_length_le.
Qed.

Lemma profiles_follow_the_columns_witness :
  exists s,
    customers_profile = Json s
    /\ map cp_column (column_profiles s) = columns customers
    /\ map is_cde (column_profiles s) = [false; true; false]
    /\ cde_columns s = 1%nat.
Proof.
  eexists. split; [vm_compute; reflexivity |].
  destruct (profiles_follow_the_columns
              (sample_env (Ok customers) None) "customers.csv" "email, iban"
              customers _ eq_refl eq_refl)
    as (Hnames & Hcde & _ & Hcount & _).
  split; [exact Hnames |]. split; [exact Hcde | exact Hcount].
Defined.

Lemma profile_counts_are_consistent_witness :
  exists s p,
    customers_profile = Json s
    /\ In p (column_profiles s)
    /\ cp_column p = "email"
    /\ (null_count p + non_null_count p = total_rows p)%nat
    /\ (unique_count p <= non_null_count p)%nat
    /\ duplicate_count p = (Z.of_nat (non_null_count p) - Z.of_nat (unique_count p))%Z
    /\ (0 <= duplicate_count p)%Z.
Proof.
  eexists. eexists. split; [vm_compute; reflexivity |].
  split; [right; left; reflexivity |]. split; [reflexivity |].
  eapply (profile_counts_are_consistent
            (sample_env (Ok customers) None) "customers.csv" "email, iban").
  - vm_compute. reflexivity.
  - right. left. reflexivity.
Defined.

(* ------------------------------------------------------------------ *)
(** ** The profiler: the mean completeness figures *)
(* ------------------------------------------------------------------ *)

Lemma sum_completeness_from (ps : list ColumnProfile) (a : Q) :
  (forall p, In p ps -> float_between 0 1 (completeness p)) ->
  exists s,
    fold_left (fun acc p => float_add acc (completeness p)) ps (Fin a) = Fin s
    /\ a <= s /\ s <= a + inject_Z (Z.of_nat (List.length ps)).
Proof.
  revert a. induction ps as [| p ps IH]; intros a H.
  - exists a. simpl. change (inject_Z 0) with 0. split; [reflexivity |]. split; lra.
  - assert (Hp : float_between 0 1 (completeness p)) by (apply H; left; reflexivity).
    cbn [fold_left]. destruct (completeness p) as [c | | |]; simpl in Hp; try tauto.
    destruct Hp as [Hc0 Hc1].
    destruct (IH (a + c)) as (s & Hs & Hlo & Hhi).
    { intros q Hq. apply H. right. exact Hq. }
    exists s. simpl float_add. split; [exact Hs |].
    cbn [List.length]. rewrite Nat2Z.inj_succ. unfold Z.succ.
    rewrite inject_Z_plus. change (inject_Z 1) with 1. split; lra.
Qed.

Lemma mean_completeness_between (ps : list ColumnProfile) (m : pyfloat) :
  (forall p, In p ps -> float_between 0 1 (completeness p)) ->
  mean_completeness ps = Ok m -> float_between 0 1 m.
Proof.
  intros H Hm. destruct ps as [| p0 ps0] eqn:E; [discriminate Hm |].
  rewrite <- E in *. assert (Hne : ps <> []) by (rewrite E; discriminate).
  rewrite (mean_completeness_Ok ps Hne) in Hm. injection Hm as <-.
  unfold sum_completeness.
  destruct (sum_completeness_from ps 0 H) as (s & -> & Hlo & Hhi).
  cbn [float_div_nat round_float float_between].
  assert (Hn : 0 < inject_Z (Z.of_nat (List.length ps))).
  { change 0 with (inject_Z 0). rewrite <- Zlt_Qlt.
    rewrite E. simpl. lia. }
  apply round4_unit_interval.
  - apply Qle_shift_div_l; [exact Hn | lra].
  - apply Qle_shift_div_r; [exact Hn | lra].
Qed.

(** X14.  When every column has at least one row, the two mean figures of
    the summary lie between 0 and 1: the overall completeness, and the
    completeness of the critical columns when there is one. *)
Theorem mean_completeness_in_unit_interval (env : Env) (file_path cde_fields : string)
    (df : DataFrame) (s : ProfileSummary) :
  read_table env file_path = Ok df ->
  (forall col, In col df -> values col <> []) ->
  ProfilerTool_run env file_path cde_fields = Json s ->
  float_between 0 1 (overall_completeness s)
  /\ match cde_completeness s with
     | Some m => float_between 0 1 m
     | None => True
     end.
Proof.
  intros Hread Hrows H. apply profiler_Json_inv in H.
  destruct H as (df0 & Hr & _ & Hs).
  rewrite Hread in Hr. injection Hr as <-.
  apply profile_summary_fields in Hs.
  destruct Hs as (_ & _ & _ & _ & _ & Hoverall & Hcde).
  set (profile := map (profile_column env (parse_cde_fields cde_fields)) df) in *.
  assert (Hall : forall p, In p profile -> float_between 0 1 (completeness p)).
  { intros p Hp. unfold profile in Hp. apply in_map_iff in Hp.
    destruct Hp as [col [<- Hcol]].
    apply (profile_column_bounds env (parse_cde_fields cde_fields) col).
    apply Hrows. exact Hcol. }
  split; [apply (mean_completeness_between profile _ Hall Hoverall) |].
  destruct (cde_completeness s) as [m |]; [| exact I].
  destruct Hcde as [_ Hm].
  apply (mean_completeness_between (filter is_cde profile) m); [| exact Hm].
  intros p Hp. apply filter_In in Hp. apply Hall. tauto.
Qed.

Lemma mean_completeness_in_unit_interval_witness :
  exists s,
    customers_profile = Json s
    /\ float_between 0 1 (overall_completeness s)
    /\ match cde_completeness s with
       | Some m => float_between 0 1 m
       | None => True
       end.
Proof.
  eexists. split; [vm_compute; reflexivity |].
  apply (mean_completeness_in_unit_interval
           (sample_env (Ok customers) None) "customers.csv" "email, iban" customers).
  - reflexivity.
  - intros col Hcol. simpl in Hcol.
    destruct Hcol as [<- | [<- | [<- | []]]]; discriminate.
  - vm_compute. reflexivity.
Defined.

(* ------------------------------------------------------------------ *)
(** ** The profiler: the list of critical fields *)
(* ------------------------------------------------------------------ *)

Lemma drop_prefix_none (w s : string) :
  String.prefix w s = false -> Str.drop_prefix w s = None.
Proof.
  revert s. induction w as [| a w IH]; intros s H;
    [destruct s; simpl in H; discriminate H |].
  destruct s as [| b s]; [reflexivity |].
  simpl in *. destruct (ascii_dec a b) as [-> | Hne].
  - rewrite Ascii.eqb_refl. apply IH. exact H.
  - apply Ascii.eqb_neq in Hne. rewrite Hne. reflexivity.
Qed.

Lemma drop_any_none (ws : list string) (s : string) :
  existsb (fun w => String.prefix w s) ws = false -> Str.drop_any ws s = None.
Proof.
  induction ws as [| w ws IH]; simpl; [reflexivity |].
  intros H. apply orb_false_elim in H. destruct H as [Hw Hws].
  rewrite (drop_prefix_none w s Hw). apply IH. exact Hws.
Qed.

Lemma lstrip_of_plain (ws : list string) (steps : nat) (s : string) :
  Str.drop_any ws s = None -> Str.lstrip_of ws steps s = s.
Proof. intros H. destruct steps; simpl; [| rewrite H]; reflexivity. Qed.

Lemma lstrip_plain (s : string) : starts_blank s = false -> Str.lstrip s = s.
Proof. intros H. apply lstrip_of_plain. apply drop_any_none. exact H. Qed.

Lemma rstrip_plain (s : string) : ends_blank s = false -> Str.rstrip s = s.
Proof.
  intros H. unfold Str.rstrip. rewrite lstrip_of_plain.
  - apply rev_string_involutive.
  - apply drop_any_none. unfold ends_blank, Str.endswith in H.
    clear - H. induction Str.whitespace as [| w ws IH]; simpl in *; [reflexivity |].
    apply orb_false_elim in H. destruct H as [Hw Hws].
    rewrite Hw. apply IH. exact Hws.
Qed.

Lemma plain_name_facts (s : string) :
  plain_name s = true ->
  s <> EmptyString /\ starts_blank s = false /\ ends_blank s = false
  /\ no_comma s = true.
Proof.
  unfold plain_name. intros H.
  apply andb_prop in H. destruct H as [H Hc].
  apply andb_prop in H. destruct H as [H He].
  apply andb_prop in H. destruct H as [Hn Hs].
  apply negb_true_iff in Hn, Hs, He. apply String.eqb_neq in Hn. tauto.
Qed.

Lemma strip_plain (s : string) : plain_name s = true -> Str.strip s = s.
Proof.
  intros H. apply plain_name_facts in H. destruct H as (_ & Hs & He & _).
  unfold Str.strip. rewrite (lstrip_plain s Hs). apply rstrip_plain. exact He.
Qed.

Lemma lstrip_after_blank (a : string) :
  Str.lstrip (String " "%char a) = Str.lstrip a.
Proof. reflexivity. Qed.

(** A piece without comma runs to the next comma, or to the end. *)
Lemma split_piece_then_comma (a rest cur : string) :
  no_comma a = true ->
  Str.split_acc ","%char (a ++ String ","%char rest) cur
  = Str.rev_string (Str.rev_string a cur) EmptyString
    :: Str.split_acc ","%char rest EmptyString.
Proof.
  revert cur. induction a as [| c a IH]; intros cur H; simpl.
  - reflexivity.
  - simpl in H. apply andb_prop in H. destruct H as [Hc Ha].
    apply negb_true_iff in Hc. rewrite Hc. apply IH. exact Ha.
Qed.

Lemma split_last_piece (a cur : string) :
  no_comma a = true ->
  Str.split_acc ","%char a cur = [Str.rev_string (Str.rev_string a cur) EmptyString].
Proof.
  revert cur. induction a as [| c a IH]; intros cur H; simpl.
  - reflexivity.
  - simpl in H. apply andb_prop in H. destruct H as [Hc Ha].
    apply negb_true_iff in Hc. rewrite Hc. apply IH. exact Ha.
Qed.

Lemma strip_after_blank (a : string) (cur : string) :
  cur = EmptyString \/ cur = " " ->
  plain_name a = true ->
  Str.strip (Str.rev_string (Str.rev_string a cur) EmptyString) = a.
Proof.
  intros Hcur Ha. rewrite rev_string_twice, append_empty.
  destruct Hcur as [-> | ->].
  - simpl. apply strip_plain. exact Ha.
  - change (Str.rev_string " " a) with (String " "%char a).
    unfold Str.strip. rewrite lstrip_after_blank.
    apply strip_plain. exact Ha.
Qed.

Lemma parse_pieces (names : list string) (cur : string) :
  names <> [] ->
  forallb plain_name names = true ->
  cur = EmptyString \/ cur = " " ->
  map Str.strip (Str.split_acc ","%char (String.concat ", " names) cur) = names.
Proof.
  revert cur. induction names as [| a names IH]; intros cur Hne Hall Hcur;
    [congruence |].
  simpl in Hall. apply andb_prop in Hall. destruct Hall as [Ha Hall].
  assert (Hnc : no_comma a = true) by (apply plain_name_facts in Ha; tauto).
  destruct names as [| b names].
  - simpl. rewrite (split_last_piece a cur Hnc). simpl.
    rewrite (strip_after_blank a cur Hcur Ha). reflexivity.
  - change (String.concat ", " (a :: b :: names))
      with (a ++ String ","%char (String " "%char (String.concat ", " (b :: names)))).
    rewrite (split_piece_then_comma a _ cur Hnc).
    cbn [map]. rewrite (strip_after_blank a cur Hcur Ha). f_equal.
    change (Str.split_acc ","%char
              (String " "%char (String.concat ", " (b :: names))) EmptyString)
      with (Str.split_acc ","%char (String.concat ", " (b :: names)) " ").
    apply IH; [discriminate | exact Hall | right; reflexivity].
Qed.

(** White space beyond ASCII is removed too: a no-break space (U+00A0)
    before the name, an em space (U+2003) after it. *)
Example strip_removes_unicode_space :
  Str.strip (Str.bytes [194; 160]%nat ++ "email" ++ Str.bytes [226; 128; 131]%nat) = "email"
  /\ parse_cde_fields (Str.bytes [194; 160]%nat ++ "email, phone" ++ Str.bytes [9]%nat)
     = ["email"; "phone"].
Proof. split; reflexivity. Qed.

(** X15.  A list of plain names written with a comma and a blank between
    them is read back as those names: the white space around each piece is
    removed. *)
Theorem cde_fields_round_trip (names : list string) :
  names <> [] ->
  forallb plain_name names = true ->
  parse_cde_fields (String.concat ", " names) = names.
Proof.
  intros Hne Hall.
  pose proof (parse_pieces names EmptyString Hne Hall (or_introl eq_refl)) as H.
  unfold parse_cde_fields, Str.split.
  destruct (String.concat ", " names) as [| c s] eqn:E; [| exact H].
  exfalso. destruct names as [| a names]; [congruence |].
  simpl in Hall. apply andb_prop in Hall. destruct Hall as [Ha _].
  apply plain_name_facts in Ha. destruct Ha as [Ha _].
  destruct a as [| c a]; [congruence |].
  destruct names; simpl in E; discriminate E.
Qed.

Lemma cde_fields_round_trip_witness :
  parse_cde_fields "customer_id, email, date of birth"
  = ["customer_id"; "email"; "date of birth"].
Proof.
  apply (cde_fields_round_trip ["customer_id"; "email"; "date of birth"]).
  - discriminate.
  - reflexivity.
Defined.

(* ------------------------------------------------------------------ *)
(** ** The anomaly detector: how many values the z-score can flag *)
(* ------------------------------------------------------------------ *)

Lemma count_true_cons (b : bool) (mask : list bool) :
  count_true (b :: mask) = ((if b then 1 else 0) + count_true mask)%nat.
Proof. unfold count_true. simpl. destruct b; reflexivity. Qed.

(** The squares of the flagged deviations alone exceed 9 variances each. *)
Lemma flagged_squares (m var : Q) (l : list Q) :
  0 <= var ->
  let c := inject_Z (Z.of_nat (count_true (map (Stats.beyond_3_sigma m var) l))) in
  let total := Stats.sum (map (fun x => (x - m) * (x - m)) l) in
  9 * var * c <= total /\ (0 < c -> 9 * var * c < total).
Proof.
  intros Hvar. cbn zeta. induction l as [| x l IH].
  - simpl. unfold Stats.sum. simpl. change (inject_Z 0) with 0. split; lra.
  - cbn [map]. rewrite count_true_cons.
    change (Stats.sum ((x - m) * (x - m) :: map (fun x0 => (x0 - m) * (x0 - m)) l))
      with ((x - m) * (x - m) + Stats.sum (map (fun x0 => (x0 - m) * (x0 - m)) l)).
    rewrite Nat2Z.inj_add, inject_Z_plus.
    set (c := inject_Z (Z.of_nat (count_true (map (Stats.beyond_3_sigma m var) l)))) in *.
    set (total := Stats.sum (map (fun x0 => (x0 - m) * (x0 - m)) l)) in *.
    destruct IH as [IH1 IH2].
    assert (Hc : 0 <= c).
    { unfold c. change 0 with (inject_Z 0). rewrite <- Zle_Qle. lia. }
    pose proof (square_nonneg (x - m)) as Hsq.
    destruct (Stats.beyond_3_sigma m var x) eqn:Eflag.
    + apply (beyond_3_sigma_squares m var x Hvar) in Eflag.
      change (inject_Z (Z.of_nat 1)) with 1. split; [nra | intros _; nra].
    + change (inject_Z (Z.of_nat 0)) with 0. split; [nra |].
      intros Hpos. assert (Hpos' : 0 < c) by lra. specialize (IH2 Hpos'). nra.
Qed.

Lemma pvar_times_size (xs : list Q) :
  xs <> [] ->
  Stats.sum (map (fun x => (x - Stats.mean xs) * (x - Stats.mean xs)) xs)
  == Stats.pvar xs * Stats.size xs.
Proof.
  intros Hne. unfold Stats.pvar. pose proof (size_pos xs Hne) as Hpos.
  field. intros Hz. rewrite Hz in Hpos. apply (Qlt_irrefl 0). exact Hpos.
Qed.

Lemma outliers_z_ninth (xs : list Q) :
  (9 * Stats.outliers_z xs <= List.length xs)%nat
  /\ ((0 < Stats.outliers_z xs)%nat -> (9 * Stats.outliers_z xs < List.length xs)%nat).
Proof.
  destruct xs as [| x0 xs0] eqn:E.
  - unfold Stats.outliers_z. simpl. split; [lia | intros H; inversion H].
  - rewrite <- E. assert (Hne : xs <> []) by (rewrite E; discriminate).
    unfold Stats.outliers_z.
    pose proof (pvar_nonneg xs) as Hvar.
    destruct (flagged_squares (Stats.mean xs) (Stats.pvar xs) xs Hvar) as [_ Hstrict].
    rewrite (pvar_times_size xs Hne) in Hstrict.
    set (c := count_true (map (Stats.beyond_3_sigma (Stats.mean xs) (Stats.pvar xs)) xs))
      in *.
    assert (Hcases : c = O \/ (9 * c < List.length xs)%nat).
    { destruct c as [| c'] eqn:Ec; [left; reflexivity | right].
      rewrite <- Ec in *.
      assert (Hpos : 0 < inject_Z (Z.of_nat c)).
      { change 0 with (inject_Z 0). rewrite <- Zlt_Qlt. lia. }
      specialize (Hstrict Hpos). unfold Stats.size in Hstrict.
      set (n := inject_Z (Z.of_nat (List.length xs))) in *.
      set (q := inject_Z (Z.of_nat c)) in *.
      assert (Hn0 : 0 <= n).
      { unfold n. change 0 with (inject_Z 0). rewrite <- Zle_Qle. lia. }
      assert (Hlt : 9 * q < n).
      { apply Qnot_le_lt. intros Hle. nra. }
      unfold q, n in Hlt.
      change 9 with (inject_Z 9) in Hlt. rewrite <- inject_Z_mult in Hlt.
      rewrite <- Zlt_Qlt in Hlt. lia. }
    destruct Hcases as [-> | Hlt]; split; try lia.
Qed.

(** X16.  The z-score method flags at most one value in nine: nine
    times [outliers_zscore] is at most the number of present values.  A
    column of at most nine values is never reported for its z-scores, only
    for its quartiles. *)
Theorem zscore_flags_under_a_ninth (col : Series) (r : AnomalyReport) :
  analyze_column col = Some r ->
  let n := List.length (numbers (values col)) in
  (9 * outliers_zscore r <= n)%nat
  /\ ((n <= 9)%nat -> outliers_zscore r = O /\ (0 < outliers_iqr r)%nat).
Proof.
  intros H. cbn zeta. unfold analyze_column in H.
  destruct (_ <? 3)%nat; [discriminate H |].
  destruct (_ || _) eqn:Eany; [| discriminate H].
  injection H as <-. cbn [outliers_zscore outliers_iqr].
  destruct (outliers_z_ninth (numbers (values col))) as [Hle Hlt].
  split; [exact Hle |]. intros Hn.
  assert (Hz : Stats.outliers_z (numbers (values col)) = O).
  { destruct (Stats.outliers_z (numbers (values col))) as [| z]; [reflexivity |].
    assert (0 < S z)%nat by lia. specialize (Hlt H). lia. }
  split; [exact Hz |].
  rewrite Hz in Eany. simpl in Eany. apply Nat.ltb_lt. exact Eany.
Qed.

Lemma zscore_flags_under_a_ninth_witness :
  exists r,
    analyze_column scenario_amounts = Some r
    /\ outliers_zscore r = O /\ outliers_iqr r = 1%nat.
Proof.
  eexists. split; [vm_compute; reflexivity |].
  split; [| reflexivity].
  eapply (zscore_flags_under_a_ninth scenario_amounts).
  - vm_compute. reflexivity.
  - simpl. lia.
Defined.

(* ------------------------------------------------------------------ *)
(** ** The anomaly detector: what a result holds *)
(* ------------------------------------------------------------------ *)

Lemma anomaly_Json_inv (env : Env) (file_path : string) (res : AnomalyResult) :
  AnomalyDetectorTool_run env file_path = Json res ->
  exists df,
    read_table env file_path = Ok df
    /\ numeric_columns_analyzed res = List.length (numeric_cols df)
    /\ columns_with_anomalies res = List.length (anomalies res)
    /\ anomalies res = collect analyze_column (numeric_cols df).
Proof.
  unfold AnomalyDetectorTool_run. intros H. apply try_except_Json in H.
  peel H as df Edf. injection H as <-. exists df. simpl. repeat split. exact Edf.
Qed.

Lemma analyze_column_facts (col : Series) (r : AnomalyReport) :
  analyze_column col = Some r ->
  ar_column r = label col
  /\ (3 <= List.length (numbers (values col)))%nat
  /\ outliers_zscore r = Stats.outliers_z (numbers (values col))
  /\ outliers_iqr r = Stats.outliers_iqr (numbers (values col))
  /\ ((0 < outliers_zscore r)%nat \/ (0 < outliers_iqr r)%nat).
Proof.
  unfold analyze_column.
  destruct (_ <? 3)%nat eqn:Elen; [discriminate |].
  apply Nat.ltb_ge in Elen.
  destruct (_ || _) eqn:Eany; [| discriminate].
  intros H. injection H as <-. cbn [ar_column outliers_zscore outliers_iqr].
  repeat split; try assumption.
  apply orb_true_iff in Eany. destruct Eany as [E | E]; apply Nat.ltb_lt in E; tauto.
Qed.

(** X17.  Every report is justified: it bears the name of a column of
    numeric dtype that has at least three present values, its two counts
    are those of that column, at least one of them is positive and neither
    exceeds the number of present values. *)
Theorem anomaly_reports_are_justified (env : Env) (file_path : string)
    (df : DataFrame) (res : AnomalyResult) (r : AnomalyReport) :
  read_table env file_path = Ok df ->
  AnomalyDetectorTool_run env file_path = Json res ->
  In r (anomalies res) ->
  exists col,
    In col df
    /\ is_numeric_dtype (dt col) = true
    /\ ar_column r = label col
    /\ (3 <= List.length (numbers (values col)))%nat
    /\ ((0 < outliers_zscore r)%nat \/ (0 < outliers_iqr r)%nat)
    /\ (outliers_zscore r <= List.length (numbers (values col)))%nat
    /\ (outliers_iqr r <= List.length (numbers (values col)))%nat.
Proof.
  intros Hread H Hr. apply anomaly_Json_inv in H.
  destruct H as (df0 & Hread' & _ & _ & Hlist).
  rewrite Hread in Hread'. injection Hread' as <-.
  rewrite Hlist in Hr. apply in_collect in Hr. destruct Hr as (col & Hcol & Hsome).
  unfold numeric_cols in Hcol. apply filter_In in Hcol. destruct Hcol as [Hin Hnum].
  destruct (analyze_column_facts col r Hsome) as (Hname & Hlen & Hz & Hi & Hany).
  exists col. repeat split; try assumption.
  - rewrite Hz. unfold Stats.outliers_z.
    eapply Nat.le_trans; [apply count_true_le |]. rewrite length_map. lia.
  - rewrite Hi. unfold Stats.outliers_iqr.
    eapply Nat.le_trans; [apply count_true_le |]. rewrite length_map. lia.
Qed.

Lemma anomaly_reports_are_justified_witness :
  exists res r,
    AnomalyDetectorTool_run (sample_env (Ok mixed_table) None) "amounts.csv" = Json res
    /\ anomalies res = [r]
    /\ exists col,
         In col mixed_table
         /\ is_numeric_dtype (dt col) = true
         /\ ar_column r = label col
         /\ (3 <= List.length (numbers (values col)))%nat
         /\ ((0 < outliers_zscore r)%nat \/ (0 < outliers_iqr r)%nat)
         /\ (outliers_zscore r <= List.length (numbers (values col)))%nat
         /\ (outliers_iqr r <= List.length (numbers (values col)))%nat.
Proof.
  eexists. eexists. split; [vm_compute; reflexivity |]. split; [reflexivity |].
  eapply (anomaly_reports_are_justified
            (sample_env (Ok mixed_table) None) "amounts.csv" mixed_table).
  - reflexivity.
  - vm_compute. reflexivity.
  - left. reflexivity.
Defined.

Lemma subseq_refl {A} (l : list A) : subseq l l.
Proof. induction l; constructor; assumption. Qed.

Lemma subseq_trans {A} (l m n : list A) : subseq l m -> subseq m n -> subseq l n.
Proof.
  intros Hlm Hmn. revert l Hlm. induction Hmn; intros l0 Hlm.
  - exact Hlm.
  - apply subseq_skip. apply IHHmn. exact Hlm.
  - inversion Hlm; subst.
    + apply subseq_skip. apply IHHmn. assumption.
    + apply subseq_take. apply IHHmn. assumption.
Qed.

Lemma subseq_filter_labels (p : Series -> bool) (df : DataFrame) :
  subseq (map label (filter p df)) (map label df).
Proof.
  induction df as [| s df IH]; simpl; [constructor |].
  destruct (p s); simpl; constructor; exact IH.
Qed.

Lemma subseq_collect_labels (cols : list Series) :
  subseq (map ar_column (collect analyze_column cols)) (map label cols).
Proof.
  induction cols as [| col cols IH]; simpl; [constructor |].
  destruct (analyze_column col) as [r |] eqn:E; simpl.
  - rewrite (analyze_column_label col r E). apply subseq_take. exact IH.
  - apply subseq_skip. exact IH.
Qed.

(** X18.  The figures of a result: [numeric_columns_analyzed] counts every
    column of numeric dtype, those passed over for having fewer than three
    values included; [columns_with_anomalies] is the number of reports and
    is no larger; and the reports come in the order of the columns, one at
    most for each. *)
Theorem anomaly_figures (env : Env) (file_path : string)
    (df : DataFrame) (res : AnomalyResult) :
  read_table env file_path = Ok df ->
  AnomalyDetectorTool_run env file_path = Json res ->
  numeric_columns_analyzed res
  = List.length (filter (fun col => is_numeric_dtype (dt col)) df)
  /\ columns_with_anomalies res = List.length (anomalies res)
  /\ (columns_with_anomalies res <= numeric_columns_analyzed res)%nat
  /\ (numeric_columns_analyzed res <= List.length (columns df))%nat
  /\ subseq (map ar_column (anomalies res)) (columns df).
Proof.
  intros Hread H. apply anomaly_Json_inv in H.
  destruct H as (df0 & Hread' & Hn & Hc & Hlist).
  rewrite Hread in Hread'. injection Hread' as <-.
  assert (Hsub : subseq (map ar_column (anomalies res)) (map label (numeric_cols df))).
  { rewrite Hlist. apply subseq_collect_labels. }
  split; [exact Hn |]. split; [exact Hc |]. split; [| split].
  - rewrite Hc, Hn. apply subseq_length in Hsub. rewrite !length_map in Hsub. exact Hsub.
  - rewrite Hn. unfold columns, numeric_cols. rewrite length_map. apply filter_length_le.
  - apply (subseq_trans _ _ _ Hsub). apply subseq_filter_labels.
Qed.

Lemma anomaly_figures_witness :
  exists res,
    AnomalyDetectorTool_run (sample_env (Ok mixed_table) None) "amounts.csv" = Json res
    /\ numeric_columns_analyzed res = 2%nat
    /\ columns_with_anomalies res = 1%nat
    /\ subseq (map ar_column (anomalies res)) (columns mixed_table).
Proof.
  eexists. split; [vm_compute; reflexivity |].
  split; [reflexivity |]. split; [reflexivity |].
  eapply (anomaly_figures (sample_env (Ok mixed_table) None) "amounts.csv" mixed_table).
  - reflexivity.
  - vm_compute. reflexivity.
Defined.

(* ------------------------------------------------------------------ *)
(** ** The anomaly detector: the quartiles *)
(* ------------------------------------------------------------------ *)

Lemma insert_ascending (x : Q) (l : list Q) :
  ascending l -> ascending (Stats.insert x l).
Proof.
  induction l as [| y l IH]; simpl.
  - intros _. split; [intros z [] | exact I].
  - intros [Hy Hl]. destruct (Qle_bool x y) eqn:E; simpl.
    + apply Qle_bool_iff in E. split; [| split; assumption].
      intros z [<- | Hz]; [exact E |].
      apply Qle_trans with y; [exact E | apply Hy; exact Hz].
    + assert (Hyx : y <= x).
      { apply Qlt_le_weak. apply Qnot_le_lt. intros Hle.
        apply Qle_bool_iff in Hle. congruence. }
      split; [| apply IH; exact Hl].
      intros z Hz. apply in_insert in Hz.
      destruct Hz as [-> | Hz]; [exact Hyx | apply Hy; exact Hz].
Qed.

Lemma sort_ascending (l : list Q) : ascending (Stats.sort l).
Proof.
  unfold Stats.sort. induction l as [| x l IH]; simpl; [exact I |].
  apply insert_ascending. exact IH.
Qed.

Lemma nth_ascending (s : list Q) (i j : nat) (d d' : Q) :
  ascending s -> (i <= j)%nat -> (j < List.length s)%nat ->
  nth i s d <= nth j s d'.
Proof.
  revert i j. induction s as [| x s IH]; intros i j Hs Hij Hj; simpl in Hj; [lia |].
  destruct Hs as [Hx Hs].
  destruct i as [| i]; destruct j as [| j]; simpl; try lia.
  - apply Qle_refl.
  - apply Hx. apply nth_In. lia.
  - apply IH; [exact Hs | lia | lia].
Qed.

Lemma rank_value_monotone (s : list Q) (h1 h2 : Q) :
  ascending s ->
  0 <= h1 -> h1 <= h2 -> h2 <= inject_Z (Z.of_nat (List.length s - 1)) ->
  (0 < List.length s)%nat ->
  rank_value s h1 <= rank_value s h2.
Proof.
  intros Hs H0 H12 Hn Hlen. unfold rank_value.
  pose proof (Qfloor_le h1) as Hf1. pose proof (Qlt_floor h1) as Hc1.
  pose proof (Qfloor_le h2) as Hf2. pose proof (Qlt_floor h2) as Hc2.
  rewrite inject_Z_plus in Hc1, Hc2. change (inject_Z 1) with 1 in Hc1, Hc2.
  assert (Hz1 : (0 <= Qfloor h1)%Z).
  { apply Qfloor_resp_le in H0. exact H0. }
  assert (Hz12 : (Qfloor h1 <= Qfloor h2)%Z) by (apply Qfloor_resp_le; exact H12).
  assert (Hz2 : (Qfloor h2 <= Z.of_nat (List.length s - 1))%Z).
  { apply Qfloor_resp_le in Hn. rewrite Qfloor_Z in Hn. exact Hn. }
  set (f1 := Qfloor h1) in *. set (f2 := Qfloor h2) in *.
  set (lo1 := Z.to_nat f1). set (lo2 := Z.to_nat f2).
  assert (Hlo2 : (lo2 < List.length s)%nat) by (unfold lo2; lia).
  assert (Hlo1 : (lo1 <= lo2)%nat) by (unfold lo1, lo2; lia).
  assert (Hstep : forall lo, (lo < List.length s)%nat ->
                             nth lo s 0 <= nth (S lo) s (nth lo s 0)).
  { intros lo Hlo. destruct (Nat.lt_ge_cases (S lo) (List.length s)) as [Hin | Hout].
    - apply nth_ascending; [exact Hs | lia | exact Hin].
    - rewrite (nth_overflow s (nth lo s 0) Hout). apply Qle_refl. }
  pose proof (Hstep lo1 ltac:(lia)) as Hab1.
  pose proof (Hstep lo2 Hlo2) as Hab2.
  destruct (Z.eq_dec f1 f2) as [Ef | Ef].
  - unfold lo1, lo2 in *. rewrite <- Ef in *.
    set (a := nth (Z.to_nat f1) s 0) in *.
    set (b := nth (S (Z.to_nat f1)) s a) in *.
    nra.
  - assert (Hlt : (S lo1 <= lo2)%nat) by (unfold lo1, lo2; lia).
    assert (Hmid : nth (S lo1) s (nth lo1 s 0) <= nth lo2 s 0).
    { apply nth_ascending; [exact Hs | exact Hlt | exact Hlo2]. }
    set (a1 := nth lo1 s 0) in *. set (b1 := nth (S lo1) s a1) in *.
    set (a2 := nth lo2 s 0) in *. set (b2 := nth (S lo2) s a2) in *.
    assert (Hg1 : a1 + (h1 - inject_Z f1) * (b1 - a1) <= b1) by nra.
    assert (Hg2 : a2 <= a2 + (h2 - inject_Z f2) * (b2 - a2)) by nra.
    lra.
Qed.

Lemma quantile_monotone (xs : list Q) (p1 p2 : Q) :
  xs <> [] -> 0 <= p1 -> p1 <= p2 -> p2 <= 1 ->
  Stats.quantile xs p1 <= Stats.quantile xs p2.
Proof.
  intros Hne H0 H12 H1.
  change (Stats.quantile xs p1)
    with (rank_value (Stats.sort xs)
            (inject_Z (Z.of_nat (List.length (Stats.sort xs) - 1)) * p1)).
  change (Stats.quantile xs p2)
    with (rank_value (Stats.sort xs)
            (inject_Z (Z.of_nat (List.length (Stats.sort xs) - 1)) * p2)).
  assert (Hn : 0 <= inject_Z (Z.of_nat (List.length (Stats.sort xs) - 1))).
  { change 0 with (inject_Z 0). rewrite <- Zle_Qle. lia. }
  apply rank_value_monotone.
  - apply sort_ascending.
  - nra.
  - nra.
  - nra.
  - rewrite sort_length. destruct xs; [congruence | simpl; lia].
Qed.

Lemma round_half_even_monotone (y1 y2 : Q) :
  y1 <= y2 -> (round_half_even y1 <= round_half_even y2)%Z.
Proof.
  intros H.
  assert (Hf : (Qfloor y1 <= Qfloor y2)%Z) by (apply Qfloor_resp_le; exact H).
  destruct (Z.eq_dec (Qfloor y1) (Qfloor y2)) as [E | E].
  - unfold round_half_even. rewrite <- E.
    destruct (Qcompare_spec (y1 - inject_Z (Qfloor y1)) (1 # 2)) as [He1 | Hl1 | Hg1];
      destruct (Qcompare_spec (y2 - inject_Z (Qfloor y1)) (1 # 2)) as [He2 | Hl2 | Hg2];
      try (destruct (Z.even (Qfloor y1)); lia); try lia; exfalso; lra.
  - destruct (round_half_even_between (Qfloor y1) (Qfloor y1 + 1) y1) as [_ Hhi].
    + apply Qfloor_le.
    + apply Qlt_le_weak. apply Qlt_floor.
    + destruct (round_half_even_between (Qfloor y2) (Qfloor y2 + 1) y2) as [Hlo _].
      * apply Qfloor_le.
      * apply Qlt_le_weak. apply Qlt_floor.
      * lia.
Qed.

Lemma round2_unfold (q : Q) :
  Py.round q 2 = Qmake (round_half_even (q * inject_Z 100)) 100.
Proof. reflexivity. Qed.

Lemma round2_monotone (q1 q2 : Q) : q1 <= q2 -> Py.round q1 2 <= Py.round q2 2.
Proof.
  intros H. rewrite !round2_unfold.
  assert (Hm : (round_half_even (q1 * inject_Z 100)
                <= round_half_even (q2 * inject_Z 100))%Z).
  { apply round_half_even_monotone. change (inject_Z 100) with 100. lra. }
  unfold Qle. simpl. lia.
Qed.

Lemma round_sqrt_nonneg (v : Q) : 0 <= Py.round_sqrt v 2.
Proof.
  unfold Py.round_sqrt.
  set (f := Z.sqrt _).
  assert (Hf : (0 <= f)%Z) by apply Z.sqrt_nonneg.
  destruct (Qcompare _ _); [destruct (Z.even f) | |]; unfold Qle; simpl; lia.
Qed.

(** X19.  The statistics of a report are in order: the first quartile is at
    most the third, before and after rounding, so the reported [IQR] is
    never negative, nor is the reported [std]. *)
Theorem report_statistics_are_ordered (col : Series) (r : AnomalyReport) :
  analyze_column col = Some r ->
  Stats.quantile (numbers (values col)) (1 # 4)
  <= Stats.quantile (numbers (values col)) (3 # 4)
  /\ st_Q1 (stats r) <= st_Q3 (stats r)
  /\ 0 <= st_IQR (stats r)
  /\ 0 <= st_std (stats r).
Proof.
  unfold analyze_column.
  destruct (_ <? 3)%nat eqn:Elen; [discriminate |].
  apply Nat.ltb_ge in Elen.
  destruct (_ || _); [| discriminate].
  intros H. injection H as <-. cbn [stats st_Q1 st_Q3 st_IQR st_std].
  assert (Hne : numbers (values col) <> []).
  { intros E. rewrite E in Elen. simpl in Elen. lia. }
  assert (Hq : Stats.quantile (numbers (values col)) (1 # 4)
               <= Stats.quantile (numbers (values col)) (3 # 4)).
  { apply quantile_monotone; [exact Hne | lra | lra | lra]. }
  split; [exact Hq |]. split; [apply round2_monotone; exact Hq |].
  split; [| apply round_sqrt_nonneg].
  apply Qle_trans with (Py.round 0 2); [vm_compute; discriminate |].
  apply round2_monotone. lra.
Qed.

Lemma report_statistics_are_ordered_witness :
  st_Q1 (stats amounts_report) <= st_Q3 (stats amounts_report)
  /\ 0 <= st_IQR (stats amounts_report)
  /\ 0 <= st_std (stats amounts_report).
Proof.
  apply (report_statistics_are_ordered amounts amounts_report).
  vm_compute. reflexivity.
Defined.

(* ------------------------------------------------------------------ *)
(** ** Patterns: the matcher decides the texts a pattern denotes *)
(* ------------------------------------------------------------------ *)

Lemma append_is_empty (s1 s2 : string) :
  (s1 ++ s2)%string = EmptyString -> s1 = EmptyString /\ s2 = EmptyString.
Proof. destruct s1; simpl; [auto | discriminate]. Qed.

Lemma matches_empty_nullable (r : Re.regex) :
  matches r EmptyString <-> Re.nullable r = true.
Proof.
  split.
  - intros H. remember EmptyString as s eqn:Es.
    induction H; simpl; try reflexivity; try discriminate.
    + apply append_is_empty in Es. destruct Es as [-> ->].
      rewrite IHmatches1, IHmatches2 by reflexivity. reflexivity.
    + rewrite IHmatches by exact Es. reflexivity.
    + rewrite IHmatches by exact Es. apply orb_true_r.
  - induction r; simpl; intros H; try discriminate.
    + constructor.
    + apply andb_prop in H. destruct H as [H1 H2].
      change EmptyString with (EmptyString ++ EmptyString)%string.
      constructor; auto.
    + apply orb_prop in H. destruct H as [H | H].
      * apply matches_alt_l. auto.
      * apply matches_alt_r. auto.
    + constructor.
Qed.

Lemma matches_deriv_sound (r : Re.regex) (c : ascii) (s : string) :
  matches (Re.deriv c r) s -> matches r (String c s).
Proof.
  revert s. induction r; simpl; intros s H.
  - inversion H.
  - inversion H.
  - destruct (p c) eqn:Ep; inversion H; subst. constructor. exact Ep.
  - destruct (Re.nullable r1) eqn:En.
    + inversion H; subst.
      * match goal with Hc : matches (Re.Cat _ _) _ |- _ => inversion Hc; subst end.
        change (String c (s1 ++ s2)) with (String c s1 ++ s2)%string.
        constructor; auto.
      * change (String c s) with (EmptyString ++ String c s)%string.
        constructor; [apply matches_empty_nullable; exact En | auto].
    + inversion H; subst.
      change (String c (s1 ++ s2)) with (String c s1 ++ s2)%string.
      constructor; auto.
  - inversion H; subst; [apply matches_alt_l | apply matches_alt_r]; auto.
  - inversion H; subst.
    change (String c (s1 ++ s2)) with (String c s1 ++ s2)%string.
    constructor; auto.
Qed.

Lemma matches_deriv_complete (r : Re.regex) (t : string) :
  matches r t -> forall c s, t = String c s -> matches (Re.deriv c r) s.
Proof.
  intros H. induction H; intros c0 s0 E; simpl.
  - discriminate E.
  - injection E as -> <-. rewrite H. constructor.
  - destruct s1 as [| c1 s1]; simpl in E.
    + assert (Hn : Re.nullable r1 = true) by (apply matches_empty_nullable; exact H).
      rewrite Hn. apply matches_alt_r. apply IHmatches2. exact E.
    + injection E as -> <-.
      assert (Hc : matches (Re.Cat (Re.deriv c0 r1) r2) (s1 ++ s2)).
      { constructor; [apply IHmatches1; reflexivity | exact H0]. }
      destruct (Re.nullable r1); [apply matches_alt_l |]; exact Hc.
  - apply matches_alt_l. apply IHmatches. exact E.
  - apply matches_alt_r. apply IHmatches. exact E.
  - discriminate E.
  - destruct s1 as [| c1 s1]; simpl in E.
    + apply IHmatches2. exact E.
    + injection E as -> <-. constructor; [apply IHmatches1; reflexivity | exact H0].
Qed.

Lemma fullmatch_matches (r : Re.regex) (s : string) :
  Re.fullmatch r s = true <-> matches r s.
Proof.
  revert r. induction s as [| c s IH]; intros r; simpl.
  - symmetry. apply matches_empty_nullable.
  - rewrite IH. split.
    + apply matches_deriv_sound.
    + intros H. apply (matches_deriv_complete r _ H c s eq_refl).
Qed.

(* ------------------------------------------------------------------ *)
(** ** Patterns: runs of one class *)
(* ------------------------------------------------------------------ *)

Lemma all_chars_app (p : ascii -> bool) (s1 s2 : string) :
  all_chars p (s1 ++ s2) = all_chars p s1 && all_chars p s2.
Proof.
  induction s1 as [| c s1 IH]; simpl; [reflexivity |].
  rewrite IH. apply andb_assoc.
Qed.

Lemma has_char_app (c : ascii) (s1 s2 : string) :
  has_char c (s1 ++ s2) = has_char c s1 || has_char c s2.
Proof.
  induction s1 as [| c1 s1 IH]; simpl; [reflexivity |].
  rewrite IH. apply orb_assoc.
Qed.

Lemma all_chars_excludes (p : ascii -> bool) (c : ascii) (s : string) :
  p c = false -> all_chars p s = true -> has_char c s = false.
Proof.
  intros Hc. induction s as [| c1 s IH]; simpl; [reflexivity |].
  intros H. apply andb_prop in H. destruct H as [H1 H2].
  rewrite (IH H2). destruct (Ascii.eqb c1 c) eqn:E; [| reflexivity].
  apply Ascii.eqb_eq in E. congruence.
Qed.

Lemma matches_class_inv (p : ascii -> bool) (s : string) :
  matches (Re.Class p) s -> exists c, s = String c EmptyString /\ p c = true.
Proof. intros H. inversion H; subst. eauto. Qed.

Lemma matches_star_class (p : ascii -> bool) (s : string) :
  matches (Re.Star (Re.Class p)) s <-> all_chars p s = true.
Proof.
  split.
  - intros H. remember (Re.Star (Re.Class p)) as r eqn:Er.
    induction H; try discriminate Er.
    + reflexivity.
    + injection Er as ->. apply matches_class_inv in H.
      destruct H as (c & -> & Hc). simpl. rewrite Hc. apply IHmatches2. reflexivity.
  - induction s as [| c s IH]; simpl; intros H.
    + constructor.
    + apply andb_prop in H. destruct H as [Hc Hs].
      change (String c s) with (String c EmptyString ++ s)%string.
      constructor; [constructor; exact Hc | apply IH; exact Hs].
Qed.

Lemma matches_plus_class (p : ascii -> bool) (s : string) :
  matches (Re.Plus (Re.Class p)) s <-> s <> EmptyString /\ all_chars p s = true.
Proof.
  unfold Re.Plus. split.
  - intros H. inversion H; subst.
    match goal with Hm : matches (Re.Class _) _ |- _ =>
      apply matches_class_inv in Hm; destruct Hm as (c & -> & Hpc) end.
    match goal with Hm : matches (Re.Star _) _ |- _ =>
      apply matches_star_class in Hm; rename Hm into Hrest end.
    simpl. rewrite Hpc, Hrest. split; [discriminate | reflexivity].
  - intros [Hne H]. destruct s as [| c s]; [congruence |].
    simpl in H. apply andb_prop in H. destruct H as [Hc Hs].
    change (String c s) with (String c EmptyString ++ s)%string.
    constructor; [constructor; exact Hc | apply matches_star_class; exact Hs].
Qed.

Lemma matches_times_class (p : ascii -> bool) (n : nat) (s : string) :
  matches (Re.Times n (Re.Class p)) s <-> String.length s = n /\ all_chars p s = true.
Proof.
  revert s. induction n as [| n IH]; intros s; simpl.
  - split.
    + intros H. inversion H; subst. split; reflexivity.
    + intros [Hl _]. destruct s; [constructor | discriminate].
  - split.
    + intros H. inversion H; subst.
      match goal with Hm : matches (Re.Class _) _ |- _ =>
        apply matches_class_inv in Hm; destruct Hm as (c & -> & Hpc) end.
      match goal with Hm : matches (Re.Times _ _) _ |- _ =>
        apply IH in Hm; destruct Hm as [Hl Ha] end.
      simpl. rewrite Hpc, Ha, Hl. split; reflexivity.
    + intros [Hl Ha]. destruct s as [| c s]; [discriminate |].
      simpl in Hl, Ha. injection Hl as Hl. apply andb_prop in Ha. destruct Ha as [Hc Ha].
      change (String c s) with (String c EmptyString ++ s)%string.
      constructor; [constructor; exact Hc | apply IH; split; assumption].
Qed.

Lemma matches_char_inv (c : ascii) (s : string) :
  matches (Re.Class (Ascii.eqb c)) s <-> s = String c EmptyString.
Proof.
  split.
  - intros H. apply matches_class_inv in H. destruct H as (c' & -> & Hc).
    apply Ascii.eqb_eq in Hc. subst. reflexivity.
  - intros ->. constructor. apply Ascii.eqb_refl.
Qed.

Lemma matches_line_end (e : string) :
  matches (Re.Alt Re.Eps (Re.Class (Ascii.eqb Re.newline))) e <-> line_end e.
Proof.
  unfold line_end. split.
  - intros H. inversion H; subst.
    + match goal with He : matches Re.Eps _ |- _ => inversion He; subst end.
      left. reflexivity.
    + right. apply matches_char_inv. assumption.
  - intros [-> | ->].
    + apply matches_alt_l. constructor.
    + apply matches_alt_r. apply matches_char_inv. reflexivity.
Qed.

Lemma match_anchored_matches (r : Re.regex) (s : string) :
  Re.match_anchored r s = true
  <-> exists body e, s = (body ++ e)%string /\ matches r body /\ line_end e.
Proof.
  unfold Re.match_anchored. rewrite fullmatch_matches. split.
  - intros H. inversion H; subst. exists s1, s2.
    split; [reflexivity |]. split; [assumption | apply matches_line_end; assumption].
  - intros (body & e & -> & Hb & He). constructor; [exact Hb |].
    apply matches_line_end. exact He.
Qed.

(* ------------------------------------------------------------------ *)
(** ** Patterns: the e-mail and the phone pattern *)
(* ------------------------------------------------------------------ *)

Lemma matches_cat_inv (r1 r2 : Re.regex) (s : string) :
  matches (Re.Cat r1 r2) s
  <-> exists s1 s2, s = (s1 ++ s2)%string /\ matches r1 s1 /\ matches r2 s2.
Proof.
  split.
  - intros H. inversion H; subst. eauto.
  - intros (s1 & s2 & -> & H1 & H2). constructor; assumption.
Qed.

Lemma matches_email_body (body : string) :
  matches email_pattern body
  <-> exists local host tail,
        body = (local ++ String "@" (host ++ String "." tail))%string
        /\ (local <> EmptyString /\ all_chars email_local local = true)
        /\ (host <> EmptyString /\ all_chars email_host host = true)
        /\ (tail <> EmptyString /\ all_chars email_tail tail = true).
Proof.
  unfold email_pattern. fold email_local. fold email_host. fold email_tail.
  rewrite matches_cat_inv. split.
  - intros (local & rest & -> & Hlocal & Hrest).
    apply matches_cat_inv in Hrest. destruct Hrest as (at_ & rest1 & -> & Hat & Hrest).
    apply matches_char_inv in Hat. subst at_.
    apply matches_cat_inv in Hrest. destruct Hrest as (host & rest2 & -> & Hhost & Hrest).
    apply matches_cat_inv in Hrest. destruct Hrest as (dot & tail & -> & Hdot & Htail).
    apply matches_char_inv in Hdot. subst dot.
    apply matches_plus_class in Hlocal, Hhost, Htail.
    exists local, host, tail. repeat split; tauto.
  - intros (local & host & tail & -> & Hlocal & Hhost & Htail).
    exists local, (String "@" (host ++ String "." tail)).
    split; [reflexivity |]. split; [apply matches_plus_class; exact Hlocal |].
    apply matches_cat_inv. exists (String "@" EmptyString), (host ++ String "." tail)%string.
    split; [reflexivity |]. split; [apply matches_char_inv; reflexivity |].
    apply matches_cat_inv. exists host, (String "." tail).
    split; [reflexivity |]. split; [apply matches_plus_class; exact Hhost |].
    apply matches_cat_inv. exists (String "." EmptyString), tail.
    split; [reflexivity |]. split; [apply matches_char_inv; reflexivity |].
    apply matches_plus_class. exact Htail.
Qed.

(** X20.  What the e-mail rule accepts: a local part, an [@], a host and,
    after a dot, a tail, each not empty, made of letters, digits and
    [_ . + -] for the local part, letters, digits and [-] for the host,
    letters, digits, [-] and [.] for the tail; a final line feed is let
    through.  Hence an accepted text has exactly one [@], and a dot after
    it. *)
Theorem email_pattern_shape (s : string) :
  (Re.match_anchored email_pattern s = true
   <-> exists local host tail e,
         s = (local ++ String "@" (host ++ String "." (tail ++ e)))%string
         /\ (local <> EmptyString /\ all_chars email_local local = true)
         /\ (host <> EmptyString /\ all_chars email_host host = true)
         /\ (tail <> EmptyString /\ all_chars email_tail tail = true)
         /\ line_end e)
  /\ (Re.match_anchored email_pattern s = true ->
      exists before after,
        s = (before ++ String "@" after)%string
        /\ has_char "@" before = false
        /\ has_char "@" after = false
        /\ has_char "." after = true).
Proof.
  assert (Hshape :
    Re.match_anchored email_pattern s = true
    <-> exists local host tail e,
          s = (local ++ String "@" (host ++ String "." (tail ++ e)))%string
          /\ (local <> EmptyString /\ all_chars email_local local = true)
          /\ (host <> EmptyString /\ all_chars email_host host = true)
          /\ (tail <> EmptyString /\ all_chars email_tail tail = true)
          /\ line_end e).
  { rewrite match_anchored_matches. split.
    - intros (body & e & -> & Hbody & He).
      apply matches_email_body in Hbody.
      destruct Hbody as (local & host & tail & -> & Hl & Hh & Ht).
      exists local, host, tail, e. repeat split; try tauto.
      rewrite append_assoc_string. simpl. rewrite append_assoc_string. reflexivity.
    - intros (local & host & tail & e & -> & Hl & Hh & Ht & He).
      exists (local ++ String "@" (host ++ String "." tail))%string, e.
      split.
      + rewrite append_assoc_string. simpl. rewrite append_assoc_string. reflexivity.
      + split; [| exact He]. apply matches_email_body.
        exists local, host, tail. repeat split; tauto. }
  split; [exact Hshape |].
  intros H. apply Hshape in H.
  destruct H as (local & host & tail & e & -> & [_ Hl] & [_ Hh] & [_ Ht] & He).
  exists local, (host ++ String "." (tail ++ e))%string.
  split; [reflexivity |].
  split; [apply (all_chars_excludes email_local); [reflexivity | exact Hl] |].
  assert (Hhost : has_char "@" host = false)
    by (apply (all_chars_excludes email_host); [reflexivity | exact Hh]).
  assert (Htail : has_char "@" tail = false)
    by (apply (all_chars_excludes email_tail); [reflexivity | exact Ht]).
  assert (Hend : has_char "@" e = false) by (destruct He as [-> | ->]; reflexivity).
  split.
  - rewrite has_char_app. simpl. rewrite has_char_app. rewrite Hhost, Htail, Hend.
    reflexivity.
  - rewrite has_char_app. simpl. apply orb_true_r.
Qed.

Lemma matches_literal (w s : string) : matches (Re.literal w) s <-> s = w.
Proof.
  revert s. induction w as [| c w IH]; intros s; simpl.
  - split; [intros H; inversion H; reflexivity | intros ->; constructor].
  - rewrite matches_cat_inv. split.
    + intros (s1 & s2 & -> & H1 & H2).
      apply matches_char_inv in H1. apply IH in H2. subst. reflexivity.
    + intros ->. exists (String c EmptyString), w.
      split; [reflexivity |]. split; [apply matches_char_inv | apply IH]; reflexivity.
Qed.

Lemma matches_any_of (ws : list string) (s : string) :
  matches (Re.any_of ws) s <-> In s ws.
Proof.
  induction ws as [| w ws IH]; simpl.
  - split; [intros H; inversion H | intros []].
  - split.
    + intros H. inversion H; subst.
      * left. symmetry. apply matches_literal. assumption.
      * right. apply IH. assumption.
    + intros [<- | H].
      * apply matches_alt_l. apply matches_literal. reflexivity.
      * apply matches_alt_r. apply IH. exact H.
Qed.

Lemma matches_digit (env : Env) (d : string) :
  matches (Re.digit (decimal_digits env)) d <-> decimal_digit env d.
Proof.
  unfold Re.digit, decimal_digit. split.
  - intros H. inversion H; subst.
    + left. match goal with Hm : matches (Re.Class _) _ |- _ =>
        apply matches_class_inv in Hm; destruct Hm as (c & -> & Hc) end.
      exists c. split; [exact Hc | reflexivity].
    + right. apply matches_any_of. assumption.
  - intros [(c & Hc & ->) | H].
    + apply matches_alt_l. constructor. exact Hc.
    + apply matches_alt_r. apply matches_any_of. exact H.
Qed.

Lemma matches_times_digit (env : Env) (n : nat) (s : string) :
  matches (Re.Times n (Re.digit (decimal_digits env))) s <-> digits env n s.
Proof.
  unfold digits. revert s. induction n as [| n IH]; intros s; simpl.
  - split.
    + intros H. inversion H; subst. exists []. repeat split. constructor.
    + intros (ds & Hl & _ & ->). destruct ds; [constructor | discriminate Hl].
  - rewrite matches_cat_inv. split.
    + intros (d & rest & -> & Hd & Hrest).
      apply matches_digit in Hd. apply IH in Hrest.
      destruct Hrest as (ds & Hl & Hall & ->).
      exists (d :: ds). split; [simpl; rewrite Hl; reflexivity |].
      split; [constructor; assumption |].
      destruct ds as [| d' ds]; simpl; [apply append_empty | reflexivity].
    + intros (ds & Hl & Hall & ->). destruct ds as [| d ds]; [discriminate Hl |].
      injection Hl as Hl. inversion Hall; subst.
      exists d, (String.concat EmptyString ds).
      split; [destruct ds; simpl; [symmetry; apply append_empty | reflexivity] |].
      split; [apply matches_digit; assumption |].
      apply IH. exists ds. repeat split. assumption.
Qed.

(** A number whose last digit is the Arabic-Indic zero is accepted; one
    without dashes is not. *)
Example phone_pattern_takes_other_digits :
  Re.match_anchored (phone_pattern callers_env)
    ("555-123-456" ++ Str.bytes [217; 160]%nat) = true
  /\ Re.match_anchored (phone_pattern callers_env) "5551234567" = false.
Proof. split; vm_compute; reflexivity. Qed.

(** X21.  What the phone rule accepts: three decimal digits, a dash, three
    digits, a dash and four digits, and nothing else but a final line
    feed.  A digit is one of [0] to [9] or any other decimal digit of
    Unicode, which [\d] matches as well. *)
Theorem phone_pattern_shape (env : Env) (s : string) :
  Re.match_anchored (phone_pattern env) s = true
  <-> exists a b c e,
        s = (a ++ String "-" (b ++ String "-" (c ++ e)))%string
        /\ digits env 3 a /\ digits env 3 b /\ digits env 4 c /\ line_end e.
Proof.
  rewrite match_anchored_matches. unfold phone_pattern. split.
  - intros (body & e & -> & Hbody & He).
    apply matches_cat_inv in Hbody. destruct Hbody as (a & r1 & -> & Ha & Hr).
    apply matches_cat_inv in Hr. destruct Hr as (d1 & r2 & -> & Hd1 & Hr).
    apply matches_char_inv in Hd1. subst d1.
    apply matches_cat_inv in Hr. destruct Hr as (b & r3 & -> & Hb & Hr).
    apply matches_cat_inv in Hr. destruct Hr as (d2 & c & -> & Hd2 & Hc).
    apply matches_char_inv in Hd2. subst d2.
    apply matches_times_digit in Ha, Hb, Hc.
    exists a, b, c, e. repeat split; try assumption.
    rewrite append_assoc_string. simpl. rewrite append_assoc_string. reflexivity.
  - intros (a & b & c & e & -> & Ha & Hb & Hc & He).
    exists (a ++ String "-" (b ++ String "-" c))%string, e.
    split.
    + rewrite append_assoc_string. simpl. rewrite append_assoc_string. reflexivity.
    + split; [| exact He].
      apply matches_cat_inv. exists a, (String "-" (b ++ String "-" c)).
      split; [reflexivity |]. split; [apply matches_times_digit; exact Ha |].
      apply matches_cat_inv. exists (String "-" EmptyString), (b ++ String "-" c)%string.
      split; [reflexivity |]. split; [apply matches_char_inv; reflexivity |].
      apply matches_cat_inv. exists b, (String "-" c).
      split; [reflexivity |]. split; [apply matches_times_digit; exact Hb |].
      apply matches_cat_inv. exists (String "-" EmptyString), c.
      split; [reflexivity |]. split; [apply matches_char_inv; reflexivity |].
      apply matches_times_digit. exact Hc.
Qed.

(* ------------------------------------------------------------------ *)
(** ** The validator: what the format rules count *)
(* ------------------------------------------------------------------ *)

Lemma select_map_length (f : cell -> bool) (l : list cell) :
  List.length (select l (map f l)) = count_true (map f l).
Proof.
  rewrite count_true_map. induction l as [| c l IH]; simpl; [reflexivity |].
  destruct (f c); simpl; rewrite IH; reflexivity.
Qed.

Lemma check_format_count (env : Env) (df : DataFrame) (name : string)
    (pattern : Re.regex) (s : severity) (what : string) (i : Issue) :
  In i (check_format env df name pattern s what) ->
  invalid_count i = mismatches env pattern (column_values df name).
Proof.
  unfold check_format, column_values, mismatches, format_mask.
  destruct (Pd.getitem df name) as [col |]; [| intros []].
  destruct (0 <? _)%nat; [| intros []].
  intros [<- | []]. cbn [invalid_count]. apply select_map_length.
Qed.

Lemma check_format_emits (env : Env) (df : DataFrame) (name : string)
    (pattern : Re.regex) (s : severity) (what : string) :
  (0 < mismatches env pattern (column_values df name))%nat ->
  exists i,
    In i (check_format env df name pattern s what)
    /\ field i = name /\ rule i = "format_validation" /\ sev i = s
    /\ invalid_count i = mismatches env pattern (column_values df name).
Proof.
  unfold check_format, column_values, mismatches, format_mask.
  destruct (Pd.getitem df name) as [col |];
    [| intros Hpos; vm_compute in Hpos; lia].
  rewrite <- select_map_length. intros Hpos.
  apply Nat.ltb_lt in Hpos. rewrite Hpos.
  eexists. split; [left; reflexivity |]. repeat split.
Qed.

Lemma format_issue_origin (env : Env) (df df' : DataFrame) (rules : dict)
    (l : list Issue) (i : Issue) (name : string) :
  run_rules env df rules = Ok (df', l) -> In i l ->
  rule i = "format_validation" -> field i = name ->
  name = "email" \/ name = "phone" ->
  In i (check_format env df name
          (if String.eqb name "email" then email_pattern else phone_pattern env)
          (if String.eqb name "email" then HIGH else MEDIUM) name).
Proof.
  intros Hrun Hi Hrule Hfield Hname.
  destruct (issue_origin _ _ _ _ _ _ Hrun Hi) as
    [Hin | Hin | dob Hd Hin | b Hb Hin | s Hs Hin | entry n Hn Hin | entry u Hu Hin].
  - pose proof (check_format_facts _ _ _ _ _ _ _ Hin) as (Hf & _).
    destruct Hname as [-> | ->]; [exact Hin | congruence].
  - pose proof (check_format_facts _ _ _ _ _ _ _ Hin) as (Hf & _).
    destruct Hname as [-> | ->]; [congruence | exact Hin].
  - destruct (check_dob_facts _ _ _ _ _ Hd Hin) as (_ & E & _). congruence.
  - destruct (check_numeric_facts _ _ _ _ _ _ _ Hb Hin) as (_ & E & _). congruence.
  - destruct (check_numeric_facts _ _ _ _ _ _ _ Hs Hin) as (_ & E & _). congruence.
  - destruct (check_not_nullable_issue _ _ _ _ Hn Hin) as [E _]. congruence.
  - destruct (check_unique_issue _ _ _ _ Hu Hin) as [E _]. congruence.
Qed.

(** X22.  The format rules count mismatches of present values only.  In a
    successful run the [format_validation] issue on [email] counts the
    present cells of that column whose text is not of the e-mail pattern,
    and it is emitted as soon as there is one, at HIGH; likewise for
    [phone] at MEDIUM.  A missing cell is never a mismatch. *)
Theorem format_rules_count_mismatches (env : Env) (file_path cde_config_path : string)
    (df : DataFrame) (res : ValidationResult) :
  read_table env file_path = Ok df ->
  ValidatorTool_run env file_path cde_config_path = Json res ->
  let bad_emails := mismatches env email_pattern (column_values df "email") in
  let bad_phones := mismatches env (phone_pattern env) (column_values df "phone") in
  (forall i, In i (issues res) -> rule i = "format_validation" ->
             (field i = "email" -> invalid_count i = bad_emails)
             /\ (field i = "phone" -> invalid_count i = bad_phones))
  /\ ((0 < bad_emails)%nat ->
      exists i, In i (issues res) /\ field i = "email" /\ rule i = "format_validation"
                /\ sev i = HIGH /\ invalid_count i = bad_emails)
  /\ ((0 < bad_phones)%nat ->
      exists i, In i (issues res) /\ field i = "phone" /\ rule i = "format_validation"
                /\ sev i = MEDIUM /\ invalid_count i = bad_phones)
  /\ (forall pattern, mismatches env pattern [NA] = O).
Proof.
  intros Hread H. apply validator_Json_inv in H.
  destruct H as (df0 & rules & df' & l & Hread' & _ & Hrun & Hres).
  rewrite Hread in Hread'. injection Hread' as <-.
  apply validation_result_inv in Hres. destruct Hres as [Hl _].
  cbn zeta. rewrite Hl. split; [| split; [| split]].
  - intros i Hi Hrule. split; intros Hfield.
    + pose proof (format_issue_origin _ _ _ _ _ _ "email" Hrun Hi Hrule Hfield
                    (or_introl eq_refl)) as Hin.
      simpl in Hin. apply (check_format_count _ _ _ _ _ _ _ Hin).
    + pose proof (format_issue_origin _ _ _ _ _ _ "phone" Hrun Hi Hrule Hfield
                    (or_intror eq_refl)) as Hin.
      simpl in Hin. apply (check_format_count _ _ _ _ _ _ _ Hin).
  - intros Hpos.
    destruct (check_format_emits env df "email" email_pattern HIGH "email" Hpos)
      as (i & Hin & Hf & Hr & Hs & Hc).
    exists i. repeat split; try assumption.
    apply run_rules_inv in Hrun.
    destruct Hrun as (dob & balance & score & nulls & dups & _ & _ & _ & _ & _ & ->).
    apply in_or_app. left. exact Hin.
  - intros Hpos.
    destruct (check_format_emits env df "phone" (phone_pattern env) MEDIUM "phone" Hpos)
      as (i & Hin & Hf & Hr & Hs & Hc).
    exists i. repeat split; try assumption.
    apply run_rules_inv in Hrun.
    destruct Hrun as (dob & balance & score & nulls & dups & _ & _ & _ & _ & _ & ->).
    apply in_or_app. right. apply in_or_app. left. exact Hin.
  - intros pattern. reflexivity.
Qed.

Lemma format_rules_count_mismatches_witness :
  mismatches callers_env (phone_pattern callers_env) (column_values callers "phone")
  = 1%nat
  /\ exists i,
       In i (issues (structure_of (mkValidationResult 0 0 0 0 0 0 [])
                       (ValidatorTool_run callers_env "callers.csv" EmptyString)))
       /\ field i = "phone" /\ rule i = "format_validation" /\ sev i = MEDIUM
       /\ invalid_count i = 1%nat.
Proof.
  split; [vm_compute; reflexivity |].
  destruct (format_rules_count_mismatches callers_env "callers.csv" EmptyString
              callers
              (structure_of (mkValidationResult 0 0 0 0 0 0 [])
                 (ValidatorTool_run callers_env "callers.csv" EmptyString)))
    as (_ & _ & Hphone & _).
  - reflexivity.
  - vm_compute. reflexivity.
  - destruct Hphone as (i & Hin & Hf & Hr & Hs & Hc); [vm_compute; lia |].
    exists i. split; [exact Hin |]. split; [exact Hf |]. split; [exact Hr |].
    split; [exact Hs |]. rewrite Hc. vm_compute. reflexivity.
Defined.

(* ------------------------------------------------------------------ *)
(** ** The validator and the CDE loader on one configuration *)
(* ------------------------------------------------------------------ *)

Lemma scalar_eqb_refl (k : json) : hashable k = true -> scalar_eqb k k = true.
Proof.
  destruct k as [| b | q | s | l | kv]; simpl; try discriminate; intros _.
  - reflexivity.
  - destruct b; reflexivity.
  - apply Qeq_bool_iff. reflexivity.
  - apply String.eqb_refl.
Qed.

Lemma scalar_eqb_text (s : string) (k : json) :
  scalar_eqb (JStr s) k = true -> k = JStr s.
Proof.
  destruct k as [| b | q | t | l | kv]; simpl; try discriminate.
  intros H. apply String.eqb_eq in H. rewrite H. reflexivity.
Qed.

Lemma dict_set_entries (d : dict) (k v k' v' : json) :
  hashable k = true ->
  In (k', v') (dict_set d k v) ->
  In (k', v') d \/ (v' = v /\ scalar_eqb k' k = true).
Proof.
  intros Hk. induction d as [| [k0 v0] d IH]; simpl.
  - intros [H | []]. injection H as <- <-. right.
    split; [reflexivity | apply scalar_eqb_refl; exact Hk].
  - destruct (scalar_eqb k0 k) eqn:E; simpl.
    + intros [H | H]; [| left; right; exact H].
      injection H as <- <-. right. split; [reflexivity | exact E].
    + intros [H | H]; [left; left; exact H |].
      destruct (IH H) as [H' | H']; [left; right; exact H' | right; exact H'].
Qed.

Lemma getitem_field_or (cde : json) (key : string) (v : json) :
  Js.getitem cde key = Ok v -> field_or cde key JNull = v.
Proof.
  destruct cde as [| b | q | s | l | kv]; simpl; try discriminate.
  destruct (Js.lookup kv key); [| discriminate].
  intros H. injection H as <-. reflexivity.
Qed.

Lemma getitem_has_field (cde v : json) :
  Js.getitem cde "field" = Ok v -> has_field cde = true.
Proof.
  destruct cde as [| b | q | s | l | kv]; simpl; try discriminate.
  destruct (Js.lookup kv "field"); [reflexivity | discriminate].
Qed.

Lemma rules_from_entries (items : list json) (d rules : dict) :
  for_each (fun rules cde =>
              (key <- Js.getitem cde "field" ;; Js.setitem rules key cde)%py)
           items d = Ok rules ->
  forallb has_field items = true
  /\ forall k v, In (k, v) rules ->
       (In k (map fst d) \/ exists v0, In v0 items /\ field_or v0 "field" JNull = k)
       /\ (In (k, v) d
           \/ (In v items /\ scalar_eqb k (field_or v "field" JNull) = true)).
Proof.
  revert d. induction items as [| a items IH]; simpl; intros d H.
  - injection H as <-. split; [reflexivity |].
    intros k v Hin. split; left; [| exact Hin].
    apply (in_map fst) in Hin. exact Hin.
  - peel H as d1 E1. peel E1 as key Ek.
    unfold Js.setitem in E1. destruct (hashable key) eqn:Hk; [| discriminate E1].
    injection E1 as <-.
    destruct (IH _ H) as [Hall Hrules].
    rewrite (getitem_has_field _ _ Ek), Hall. split; [reflexivity |].
    pose proof (getitem_field_or _ _ _ Ek) as Hkey.
    intros k v Hin. destruct (Hrules k v Hin) as [Hfirst Hlast]. split.
    + destruct Hfirst as [Hfirst | (v0 & Hv0 & Ev0)].
      * apply dict_set_keys in Hfirst.
        destruct Hfirst as [Hfirst | ->]; [left; exact Hfirst |].
        right. exists a. split; [left; reflexivity | exact Hkey].
      * right. exists v0. split; [right; exact Hv0 | exact Ev0].
    + destruct Hlast as [Hlast | [Hv Hs]].
      * apply (dict_set_entries _ _ _ _ _ Hk) in Hlast.
        destruct Hlast as [Hlast | [-> Hs]]; [left; exact Hlast |].
        right. split; [left; reflexivity | rewrite Hkey; exact Hs].
      * right. split; [right; exact Hv | exact Hs].
Qed.

Lemma cde_summary_of_entries (config cdes : json) (items : list json) :
  Js.get config "critical_data_elements" (JArr []) = Ok cdes ->
  Js.iter cdes = Ok items ->
  forallb has_field items = true ->
  exists summary,
    cde_summary config = Ok summary
    /\ cs_cde_fields summary = map (fun cde => field_or cde "field" JNull) items
    /\ cs_cde_details summary = cdes
    /\ cs_cde_count summary = List.length items.
Proof.
  intros Hget Hiter Hall.
  destruct config as [| b | q | s | l | kv]; simpl in Hget; try discriminate Hget.
  injection Hget as Hc.
  unfold cde_summary. simpl. rewrite Hc, Hiter. simpl.
  rewrite (fields_of_entries items Hall). simpl.
  destruct cdes as [| b | q | s | l | kv']; simpl in Hiter; try discriminate Hiter;
    injection Hiter as <-; simpl; eexists; (split; [reflexivity |]); simpl;
    repeat split.
  - unfold Js.chars. rewrite length_map.
    clear. induction s as [| c s IH]; simpl; [reflexivity | rewrite IH; reflexivity].
  - rewrite length_map. reflexivity.
Qed.

Lemma entries_of_items (cdes : json) (items : list json) (v : json) :
  Js.iter cdes = Ok items -> In v items -> has_field v = true ->
  In v (entries_of cdes).
Proof.
  destruct cdes as [| b | q | s | l | kv]; simpl; try discriminate;
    intros H; injection H as <-; intros Hin Hv.
  - exfalso. unfold Js.chars in Hin. apply in_map_iff in Hin.
    destruct Hin as (c & <- & _). discriminate Hv.
  - exact Hin.
  - exfalso. apply in_map_iff in Hin. destruct Hin as (p & <- & _). discriminate Hv.
Qed.

Lemma check_not_nullable_flag (df : DataFrame) (entry : json * json)
    (l : list Issue) (i : Issue) :
  check_not_nullable df entry = Ok l -> In i l ->
  scalar_eqb (field_or (snd entry) "nullable" JNull) (JBool false) = true.
Proof.
  unfold check_not_nullable.
  destruct (in_columns (fst entry) df) as [name |]; intros H.
  - peel H as nullable En.
    assert (Hn : field_or (snd entry) "nullable" JNull = nullable).
    { destruct (snd entry) as [| b | q | s | l0 | kv]; simpl in En; try discriminate En.
      injection En as <-. reflexivity. }
    rewrite Hn. destruct (scalar_eqb nullable (JBool false)); [reflexivity |].
    injection H as <-. intros [].
  - injection H as <-. intros [].
Qed.

Lemma check_unique_flag (df : DataFrame) (entry : json * json)
    (l : list Issue) (i : Issue) :
  check_unique df entry = Ok l -> In i l ->
  scalar_eqb (field_or (snd entry) "unique" JNull) (JBool true) = true.
Proof.
  unfold check_unique.
  destruct (in_columns (fst entry) df) as [name |]; intros H.
  - peel H as unique En.
    assert (Hn : field_or (snd entry) "unique" JNull = unique).
    { destruct (snd entry) as [| b | q | s | l0 | kv]; simpl in En; try discriminate En.
      injection En as <-. reflexivity. }
    rewrite Hn. destruct (scalar_eqb unique (JBool true)); [reflexivity |].
    injection H as <-. intros [].
  - injection H as <-. intros [].
Qed.

(** An issue of a CDE rule comes from an entry of the rules with its field
    as key, and the entry asks for the rule. *)
Lemma cde_issue_entry (env : Env) (df df' : DataFrame) (rules : dict)
    (l : list Issue) (i : Issue) :
  run_rules env df rules = Ok (df', l) -> In i l ->
  rule i = "cde_not_nullable" \/ rule i = "cde_uniqueness" ->
  exists v, In (JStr (field i), v) rules /\ asks_for v (rule i).
Proof.
  intros Hrun Hi Hrule. apply run_rules_inv in Hrun.
  destruct Hrun as (dob & balance & score & nulls & dups
                    & Hd & Hb & Hs & Hn & Hu & ->).
  repeat (apply in_app_or in Hi; destruct Hi as [Hi | Hi]).
  - destruct (check_format_facts _ _ _ _ _ _ _ Hi) as (_ & E & _).
    rewrite E in Hrule. destruct Hrule; discriminate.
  - destruct (check_format_facts _ _ _ _ _ _ _ Hi) as (_ & E & _).
    rewrite E in Hrule. destruct Hrule; discriminate.
  - destruct (check_dob_facts _ _ _ _ _ Hd Hi) as (_ & E & _).
    rewrite E in Hrule. destruct Hrule; discriminate.
  - destruct (check_numeric_facts _ _ _ _ _ _ _ Hb Hi) as (_ & E & _).
    rewrite E in Hrule. destruct Hrule; discriminate.
  - destruct (check_numeric_facts _ _ _ _ _ _ _ Hs Hi) as (_ & E & _).
    rewrite E in Hrule. destruct Hrule; discriminate.
  - destruct (in_concatM _ _ _ _ Hn Hi) as ([k v] & l0 & Hin & Hc & Hi0).
    destruct (check_not_nullable_facts _ _ _ _ Hc Hi0) as (Ek & Er & _).
    pose proof (check_not_nullable_flag _ _ _ _ Hc Hi0) as Hflag.
    simpl in Ek, Hflag. subst k. exists v. split; [exact Hin |].
    rewrite Er. split; [intros _; exact Hflag | discriminate].
  - destruct (in_concatM _ _ _ _ Hu Hi) as ([k v] & l0 & Hin & Hc & Hi0).
    destruct (check_unique_facts _ _ _ _ Hc Hi0) as (Ek & Er & _).
    pose proof (check_unique_flag _ _ _ _ Hc Hi0) as Hflag.
    simpl in Ek, Hflag. subst k. exists v. split; [exact Hin |].
    rewrite Er. split; [discriminate | intros _; exact Hflag].
Qed.

(** X23.  The CDE issues of the validator come from the configuration the
    CDE loader shows.  When a successful run reports a [cde_not_nullable]
    or [cde_uniqueness] issue, a configuration path was given and exists,
    the CDE loader accepts the same file, the issue's field is one of the
    fields the loader lists, and among the entries the loader returns there
    is one for that field whose [nullable] is false (for the null rule) or
    whose [unique] is true (for the uniqueness rule). *)
Theorem cde_issues_come_from_the_configuration (env : Env)
    (file_path cde_config_path : string) (res : ValidationResult) (i : Issue) :
  ValidatorTool_run env file_path cde_config_path = Json res ->
  In i (issues res) ->
  rule i = "cde_not_nullable" \/ rule i = "cde_uniqueness" ->
  cde_config_path <> EmptyString
  /\ path_exists env cde_config_path = true
  /\ exists summary entry,
       CDELoaderTool_run env cde_config_path = Json summary
       /\ In (JStr (field i)) (cs_cde_fields summary)
       /\ In entry (entries_of (cs_cde_details summary))
       /\ field_or entry "field" JNull = JStr (field i)
       /\ asks_for entry (rule i).
Proof.
  intros H Hi Hrule. apply validator_Json_inv in H.
  destruct H as (df & rules & df' & l & _ & Hload & Hrun & Hres).
  apply validation_result_inv in Hres. destruct Hres as [Hl _].
  rewrite Hl in Hi.
  destruct (cde_issue_entry _ _ _ _ _ _ Hrun Hi Hrule) as (v & Hin & Hasks).
  unfold load_cde_rules in Hload.
  destruct (negb (String.eqb cde_config_path EmptyString)
            && path_exists env cde_config_path) eqn:Hguard;
    [| injection Hload as <-; destruct Hin].
  apply andb_prop in Hguard. destruct Hguard as [Hne Hex].
  split; [| split; [exact Hex |]].
  { intros ->. discriminate Hne. }
  peel Hload as config Ec. peel Hload as cdes Ecdes. peel Hload as items Ei.
  destruct (rules_from_entries _ _ _ Hload) as [Hall Hrules].
  destruct (Hrules _ _ Hin) as [Hfirst Hlast].
  destruct Hfirst as [[] | (v0 & Hv0 & Ev0)].
  destruct Hlast as [[] | [Hv Hs]].
  destruct (cde_summary_of_entries _ _ _ Ecdes Ei Hall)
    as (summary & Esum & Efields & Edetails & _).
  exists summary, v. split; [| split; [| split; [| split]]].
  - unfold CDELoaderTool_run. rewrite Ec. simpl. rewrite Esum. reflexivity.
  - rewrite Efields. apply in_map_iff. exists v0. split; assumption.
  - rewrite Edetails. apply (entries_of_items _ _ _ Ei Hv).
    rewrite forallb_forall in Hall. apply Hall. exact Hv.
  - apply scalar_eqb_text in Hs. exact Hs.
  - exact Hasks.
Qed.

Lemma cde_issues_come_from_the_configuration_witness :
  exists summary entry,
    CDELoaderTool_run cde_env "cde_config.json" = Json summary
    /\ In (JStr "email") (cs_cde_fields summary)
    /\ In entry (entries_of (cs_cde_details summary))
    /\ field_or entry "field" JNull = JStr "email"
    /\ asks_for entry "cde_not_nullable".
Proof.
  destruct (cde_issues_come_from_the_configuration cde_env "customers.csv"
              "cde_config.json" customers_result missing_email_issue)
    as (_ & _ & H).
  - vm_compute. reflexivity.
  - vm_compute. right. right. left. reflexivity.
  - left. reflexivity.
  - exact H.
Defined.

(* ------------------------------------------------------------------ *)
(** ** The validator: columns under other names *)
(* ------------------------------------------------------------------ *)

Lemma getitem_absent (df : DataFrame) (name : string) :
  Str.mem name (columns df) = false -> Pd.getitem df name = None.
Proof.
  unfold Str.mem, columns. induction df as [| s df IH]; simpl; [reflexivity |].
  rewrite (String.eqb_sym name (label s)).
  destruct (String.eqb (label s) name); simpl; [discriminate | exact IH].
Qed.

Lemma load_cde_rules_without_file (env : Env) (cde_config_path : string) :
  cde_config_path = EmptyString \/ path_exists env cde_config_path = false ->
  load_cde_rules env cde_config_path = Ok [].
Proof.
  unfold load_cde_rules. intros [-> | ->]; [reflexivity |].
  rewrite andb_false_r. reflexivity.
Qed.

(** X24.  Columns under other names are not validated.  Without a
    configuration file, a table that has at least one row and none of the
    five columns the fixed rules look for passes whatever its cells hold:
    the run succeeds with no issue and a validity score of 1. *)
Theorem other_columns_are_not_validated (env : Env)
    (file_path cde_config_path : string) (df : DataFrame) :
  read_table env file_path = Ok df ->
  cde_config_path = EmptyString \/ path_exists env cde_config_path = false ->
  (forall name, In name catalog_columns -> Str.mem name (columns df) = false) ->
  (0 < Pd.len df)%nat ->
  exists res,
    ValidatorTool_run env file_path cde_config_path = Json res
    /\ issues res = []
    /\ total_issues res = O
    /\ total_records res = Pd.len df
    /\ validity_score res == 1.
Proof.
  intros Hread Hcfg Hnone Hrows.
  assert (Hcol : forall name, In name catalog_columns -> Pd.getitem df name = None).
  { intros name Hin. apply getitem_absent. apply Hnone. exact Hin. }
  assert (Hrun : run_rules env df [] = Ok (df, [])).
  { unfold run_rules, check_format, check_dob, check_numeric.
    rewrite (Hcol "email"), (Hcol "phone"), (Hcol "date_of_birth");
      try (simpl; tauto).
    simpl. rewrite (Hcol "account_balance"), (Hcol "credit_score");
      [reflexivity | simpl; tauto | simpl; tauto]. }
  unfold ValidatorTool_run.
  rewrite Hread, (load_cde_rules_without_file _ _ Hcfg). simpl.
  rewrite Hrun. simpl.
  destruct (validation_result df []) as [res | e] eqn:Eres.
  - exists res. split; [reflexivity |].
    destruct (validation_result_fields _ _ _ Eres) as (Htotal & _).
    destruct (validation_result_inv _ _ _ Eres) as (Hl & Hrec & Hcells & Hscore).
    split; [exact Hl |]. split; [exact Htotal |]. split; [exact Hrec |].
    rewrite Hscore, round4_unfold.
    set (cells := (Pd.len df * List.length (columns df))%nat) in *.
    assert (Hone : 1 - defect_density (sum_invalid []) cells == 1).
    { unfold defect_density, Qdiv. simpl sum_invalid.
      change (inject_Z (Z.of_nat 0)) with 0. rewrite Qmult_0_l. reflexivity. }
    destruct (round_half_even_between 10000 10000
                ((1 - defect_density (sum_invalid []) cells) * inject_Z 10000))
      as [Hlo Hhi].
    + rewrite Hone, Qmult_1_l. apply Qle_refl.
    + rewrite Hone, Qmult_1_l. apply Qle_refl.
    + set (r := round_half_even _) in *. unfold Qeq. cbn [Qnum Qden]. lia.
  - exfalso. unfold validation_result, int_truediv in Eres.
    destruct (Pd.len df * List.length (columns df))%nat as [| cells] eqn:Ecells;
      [| discriminate Eres].
    destruct df as [| s df']; [simpl in Hrows; lia |].
    unfold columns in Ecells. simpl in Ecells. simpl in Hrows. lia.
Qed.

Lemma other_columns_are_not_validated_witness :
  exists res,
    ValidatorTool_run (sample_env (Ok [amounts]) None) "amounts.csv" EmptyString
    = Json res
    /\ issues res = [] /\ total_issues res = O
    /\ total_records res = Pd.len [amounts]
    /\ validity_score res == 1.
Proof.
  apply (other_columns_are_not_validated (sample_env (Ok [amounts]) None)
           "amounts.csv" EmptyString [amounts]).
  - reflexivity.
  - left. reflexivity.
  - intros name Hin. simpl in Hin.
    repeat (destruct Hin as [<- | Hin]; [reflexivity |]). destruct Hin.
  - vm_compute. lia.
Defined.

(* ------------------------------------------------------------------ *)
(** ** The profiler: the statistics of a column *)
(* ------------------------------------------------------------------ *)

Lemma min_from_spec (l : list Q) (x : Q) :
  In (Stats.min_from x l) (x :: l)
  /\ forall v, In v (x :: l) -> Stats.min_from x l <= v.
Proof.
  revert x. induction l as [| y l IH]; intros x.
  - split; [left; reflexivity |]. intros v [<- | []]. apply Qle_refl.
  - change (Stats.min_from x (y :: l))
      with (Stats.min_from (if Qle_bool y x then y else x) l).
    destruct (IH (if Qle_bool y x then y else x)) as [Hin Hle].
    assert (Hxy : (if Qle_bool y x then y else x) <= x
                  /\ (if Qle_bool y x then y else x) <= y).
    { destruct (Qle_bool y x) eqn:E.
      - apply Qle_bool_iff in E. split; [exact E | apply Qle_refl].
      - split; [apply Qle_refl |].
        destruct (Qlt_le_dec x y) as [Hlt | Hge]; [apply Qlt_le_weak; exact Hlt |].
        apply Qle_bool_iff in Hge. congruence. }
    split.
    + destruct Hin as [Hin | Hin]; [| right; right; exact Hin].
      rewrite <- Hin. destruct (Qle_bool y x); [right; left | left]; reflexivity.
    + pose proof (Hle _ (or_introl eq_refl)) as H0.
      intros v [<- | [<- | Hv]].
      * apply Qle_trans with (1 := H0). apply Hxy.
      * apply Qle_trans with (1 := H0). apply Hxy.
      * apply Hle. right. exact Hv.
Qed.

Lemma max_from_spec (l : list Q) (x : Q) :
  In (Stats.max_from x l) (x :: l)
  /\ forall v, In v (x :: l) -> v <= Stats.max_from x l.
Proof.
  revert x. induction l as [| y l IH]; intros x.
  - split; [left; reflexivity |]. intros v [<- | []]. apply Qle_refl.
  - change (Stats.max_from x (y :: l))
      with (Stats.max_from (if Qle_bool x y then y else x) l).
    destruct (IH (if Qle_bool x y then y else x)) as [Hin Hle].
    assert (Hxy : x <= (if Qle_bool x y then y else x)
                  /\ y <= (if Qle_bool x y then y else x)).
    { destruct (Qle_bool x y) eqn:E.
      - apply Qle_bool_iff in E. split; [exact E | apply Qle_refl].
      - split; [apply Qle_refl |].
        destruct (Qlt_le_dec y x) as [Hlt | Hge]; [apply Qlt_le_weak; exact Hlt |].
        apply Qle_bool_iff in Hge. congruence. }
    split.
    + destruct Hin as [Hin | Hin]; [| right; right; exact Hin].
      rewrite <- Hin. destruct (Qle_bool x y); [right; left | left]; reflexivity.
    + pose proof (Hle _ (or_introl eq_refl)) as H0.
      intros v [<- | [<- | Hv]].
      * apply Qle_trans with (2 := H0). apply Hxy.
      * apply Qle_trans with (2 := H0). apply Hxy.
      * apply Hle. right. exact Hv.
Qed.

Lemma numeric_stats_describe (l : list cell) :
  describes_numbers (numeric_stats_of l) (numbers l).
Proof.
  unfold numeric_stats_of, describes_numbers.
  destruct (numbers l) as [| x xs]; cbn [ns_min ns_max ns_mean ns_std]; [reflexivity |].
  destruct (min_from_spec xs x) as [Hmin_in Hmin].
  destruct (max_from_spec xs x) as [Hmax_in Hmax].
  split; [exact Hmin_in |]. split; [exact Hmax_in |].
  split; [intros v Hv; split; [apply Hmin | apply Hmax]; exact Hv |].
  destruct xs as [| y ys]; [reflexivity |].
  split; [simpl; lia | apply round_sqrt_nonneg].
Qed.

Lemma fold_min_spec (ns : list nat) (n : nat) :
  In (fold_left Nat.min ns n) (n :: ns)
  /\ forall m, In m (n :: ns) -> (fold_left Nat.min ns n <= m)%nat.
Proof.
  revert n. induction ns as [| k ns IH]; intros n.
  - split; [left; reflexivity |]. intros m [<- | []]. simpl. lia.
  - cbn [fold_left]. destruct (IH (Nat.min n k)) as [Hin Hle]. split.
    + destruct Hin as [Hin | Hin]; [| right; right; exact Hin].
      rewrite <- Hin. destruct (Nat.min_spec n k) as [[_ ->] | [_ ->]];
        [left | right; left]; reflexivity.
    + pose proof (Hle _ (or_introl eq_refl)) as H0.
      intros m [<- | [<- | Hm]]; [lia | lia | apply Hle; right; exact Hm].
Qed.

Lemma fold_max_spec (ns : list nat) (n : nat) :
  In (fold_left Nat.max ns n) (n :: ns)
  /\ forall m, In m (n :: ns) -> (m <= fold_left Nat.max ns n)%nat.
Proof.
  revert n. induction ns as [| k ns IH]; intros n.
  - split; [left; reflexivity |]. intros m [<- | []]. simpl. lia.
  - cbn [fold_left]. destruct (IH (Nat.max n k)) as [Hin Hle]. split.
    + destruct Hin as [Hin | Hin]; [| right; right; exact Hin].
      rewrite <- Hin. destruct (Nat.max_spec n k) as [[_ ->] | [_ ->]];
        [right; left | left]; reflexivity.
    + pose proof (Hle _ (or_introl eq_refl)) as H0.
      intros m [<- | [<- | Hm]]; [lia | lia | apply Hle; right; exact Hm].
Qed.

Lemma text_stats_describe (env : Env) (l : list cell) :
  describes_texts (text_stats_of env l) (map (astype_str env) (dropna l)).
Proof.
  unfold text_stats_of, describes_texts.
  set (texts := map (astype_str env) (dropna l)).
  assert (Hlen : (List.length (firstn 3 texts) <= 3)%nat) by apply firstn_le_length.
  destruct (map Str.len texts) as [| n ns] eqn:E;
    cbn [min_length max_length sample_values].
  - split; [reflexivity |]. split; [exact Hlen |].
    destruct texts; [reflexivity | discriminate E].
  - split; [reflexivity |]. split; [exact Hlen |].
    destruct (fold_min_spec ns n) as [Hmin_in Hmin].
    destruct (fold_max_spec ns n) as [Hmax_in Hmax].
    rewrite <- E in Hmin_in, Hmin, Hmax_in, Hmax.
    split; [| split].
    + intros t Ht. apply (in_map Str.len) in Ht.
      split; [apply Hmin | apply Hmax]; exact Ht.
    + apply in_map_iff in Hmin_in. destruct Hmin_in as (t & Et & Ht).
      exists t. split; assumption.
    + apply in_map_iff in Hmax_in. destruct Hmax_in as (t & Et & Ht).
      exists t. split; assumption.
Qed.

Lemma profile_of_column (env : Env) (file_path cde_fields : string)
    (df : DataFrame) (s : ProfileSummary) (p : ColumnProfile) :
  read_table env file_path = Ok df ->
  ProfilerTool_run env file_path cde_fields = Json s ->
  In p (column_profiles s) ->
  exists col, In col df /\ p = profile_column env (parse_cde_fields cde_fields) col.
Proof.
  intros Hread H Hp. apply profiler_Json_inv in H. destruct H as (df0 & Hr & _ & Hs).
  rewrite Hread in Hr. injection Hr as <-.
  apply profile_summary_fields in Hs. destruct Hs as (Hprof & _).
  rewrite Hprof in Hp. apply in_map_iff in Hp. destruct Hp as (col & <- & Hcol).
  exists col. split; [exact Hcol | reflexivity].
Qed.



(** X26.  The text figures of a profile belong to a column of dtype
    [object] and describe the texts of its present cells: [sample_values]
    are the first three of them at most, [min_length] and [max_length] are
    lengths of two of them and bound the length of every other, and both
    are absent exactly when the column has no present cell. *)
Theorem text_statistics_describe_the_column (env : Env)
    (file_path cde_fields : string) (df : DataFrame) (s : ProfileSummary)
    (p : ColumnProfile) (st : TextStats) :
  read_table env file_path = Ok df ->
  ProfilerTool_run env file_path cde_fields = Json s ->
  In p (column_profiles s) ->
  text_stats p = Some st ->
  exists col,
    In col df /\ cp_column p = label col /\ dt col = object
    /\ describes_texts st (map (astype_str env) (dropna (values col))).
Proof.
  intros Hread H Hp Hst.
  destruct (profile_of_column _ _ _ _ _ _ Hread H Hp) as (col & Hcol & ->).
  exists col. split; [exact Hcol |]. split; [reflexivity |].
  unfold profile_column in Hst. cbn [text_stats] in Hst.
  destruct (dt col); try discriminate Hst.
  injection Hst as <-. split; [reflexivity | apply text_stats_describe].
Qed.

Lemma text_statistics_describe_the_column_witness :
  Str.len ("Jos" ++ Str.bytes [195; 169]%nat) = 4%nat
  /\ exists col,
       In col patrons /\ "name" = label col /\ dt col = object
       /\ describes_texts
            {| min_length := Some 3%nat; max_length := Some 4%nat;
               sample_values := [("Jos" ++ Str.bytes [195; 169]%nat)%string; "Ann"] |}
            (map (astype_str patrons_env) (dropna (values col))).
Proof.
  split; [reflexivity |].
  destruct (text_statistics_describe_the_column
              patrons_env "patrons.json" EmptyString patrons
              (structure_of (mkProfileSummary 0 0 NaN None 0 0 [])
                 (ProfilerTool_run patrons_env "patrons.json" EmptyString))
              (profile_column patrons_env []
                 (mkSeries "name" object
                    [ Txt ("Jos" ++ Str.bytes [195; 169]%nat); Txt "Ann"; NA ]))
              {| min_length := Some 3%nat; max_length := Some 4%nat;
                 sample_values := [("Jos" ++ Str.bytes [195; 169]%nat)%string; "Ann"] |})
    as (col & H).
  - reflexivity.
  - vm_compute. reflexivity.
  - vm_compute. left. reflexivity.
  - vm_compute. reflexivity.
  - exists col. exact H.
Defined.

(* ------------------------------------------------------------------ *)
(** ** The extension of the file, tool by tool *)
(* ------------------------------------------------------------------ *)

Lemma profiler_text (env : Env) (file_path cde_fields text : string) :
  ProfilerTool_run env file_path cde_fields = Text text ->
  exists e, text = ("Error profiling data: " ++ exn_str e)%string.
Proof.
  unfold ProfilerTool_run.
  destruct (read_table env file_path) as [df | e]; simpl.
  - destruct (profile_summary _) as [s | e]; simpl; intros H; [discriminate H |].
    injection H as <-. exists e. reflexivity.
  - intros H. injection H as <-. exists e. reflexivity.
Qed.

Lemma validator_text (env : Env) (file_path cde_config_path text : string) :
  ValidatorTool_run env file_path cde_config_path = Text text ->
  exists e, text = ("Error validating data: " ++ exn_str e)%string.
Proof.
  unfold ValidatorTool_run.
  destruct (read_table env file_path) as [df | e]; simpl;
    [| intros H; injection H as <-; exists e; reflexivity].
  destruct (load_cde_rules env cde_config_path) as [rules | e]; simpl;
    [| intros H; injection H as <-; exists e; reflexivity].
  destruct (run_rules env df rules) as [r | e]; simpl;
    [| intros H; injection H as <-; exists e; reflexivity].
  destruct (validation_result (fst r) (snd r)) as [res | e]; simpl;
    intros H; [discriminate H |].
  injection H as <-. exists e. reflexivity.
Qed.

(** X27.  Only the loader checks the extension of the file.  When the
    loader returns a structure, the other tools read the very table it
    describes.  A path that ends in neither [.csv] nor [.json] is refused
    by the loader with the unsupported-format text, but the validator, the
    profiler and the anomaly detector hand it to the JSON reader and never
    answer with that text: on such a path the detector returns a result
    whenever that reader returns a table. *)
Theorem only_the_loader_checks_the_extension (env : Env) (file_path : string)
    (df : DataFrame) :
  (forall info, DataLoaderTool_run env file_path = Json info ->
     exists table, read_table env file_path = Ok table
                   /\ info = load_info env file_path table)
  /\ (Str.endswith file_path ".csv" = false ->
      Str.endswith file_path ".json" = false ->
      read_json env file_path = Ok df ->
      DataLoaderTool_run env file_path = Text unsupported_format
      /\ read_table env file_path = Ok df
      /\ (exists r, AnomalyDetectorTool_run env file_path = Json r
                    /\ numeric_columns_analyzed r = List.length (numeric_cols df))
      /\ (forall cde_fields,
            ProfilerTool_run env file_path cde_fields <> Text unsupported_format)
      /\ (forall cde_config_path,
            ValidatorTool_run env file_path cde_config_path
            <> Text unsupported_format)).
Proof.
  split.
  - unfold DataLoaderTool_run, read_table. intros info H.
    destruct (Str.endswith file_path ".csv").
    + destruct (read_csv env file_path) as [table | e]; simpl in H; [| discriminate H].
      injection H as <-. exists table. split; reflexivity.
    + destruct (Str.endswith file_path ".json"); simpl in H; [| discriminate H].
      destruct (read_json env file_path) as [table | e]; simpl in H; [| discriminate H].
      injection H as <-. exists table. split; reflexivity.
  - intros Hcsv Hjson Hread.
    assert (Htable : read_table env file_path = Ok df).
    { unfold read_table. rewrite Hcsv. exact Hread. }
    split; [| split; [exact Htable | split; [| split]]].
    + unfold DataLoaderTool_run. rewrite Hcsv, Hjson. reflexivity.
    + unfold AnomalyDetectorTool_run. rewrite Htable. simpl.
      eexists. split; reflexivity.
    + intros cde_fields H. apply profiler_text in H. destruct H as [e H].
      discriminate H.
    + intros cde_config_path H. apply validator_text in H. destruct H as [e H].
      discriminate H.
Qed.

Lemma only_the_loader_checks_the_extension_witness :
  DataLoaderTool_run (sample_env (Ok customers) None) "customers.txt"
  = Text unsupported_format
  /\ exists r, AnomalyDetectorTool_run (sample_env (Ok customers) None) "customers.txt"
               = Json r
               /\ numeric_columns_analyzed r = 2%nat.
Proof.
  destruct (only_the_loader_checks_the_extension
              (sample_env (Ok customers) None) "customers.txt" customers)
    as (_ & H).
  destruct H as (Hload & _ & Hr & _); [reflexivity | reflexivity | reflexivity |].
  split; [exact Hload | exact Hr].
Defined.

(* ------------------------------------------------------------------ *)
(** ** The profiler: a table without missing cells *)
(* ------------------------------------------------------------------ *)

Lemma count_notna_complete (l : list cell) :
  forallb notna l = true -> count_true (map notna l) = List.length l.
Proof.
  rewrite count_true_map. induction l as [| c l IH]; simpl; [reflexivity |].
  destruct (notna c); simpl; [| discriminate]. intros H. rewrite (IH H). reflexivity.
Qed.

Lemma round4_one (q : Q) : q == 1 -> Py.round q 4 == 1.
Proof.
  intros H. rewrite round4_unfold.
  destruct (round_half_even_between 10000 10000 (q * inject_Z 10000)) as [Hlo Hhi].
  - rewrite H, Qmult_1_l. apply Qle_refl.
  - rewrite H, Qmult_1_l. apply Qle_refl.
  - set (r := round_half_even _) in *. unfold Qeq. cbn [Qnum Qden]. lia.
Qed.

Lemma complete_column_profile (env : Env) (cde_list : list string) (col : Series) :
  complete col ->
  null_count (profile_column env cde_list col) = O
  /\ float_between 1 1 (completeness (profile_column env cde_list col)).
Proof.
  intros [Hne Hall]. unfold profile_column. cbn [null_count completeness].
  pose proof (count_notna_isna (values col)) as Hsum.
  rewrite (count_notna_complete _ Hall) in *.
  split; [lia |].
  destruct (values col) as [| c l]; [congruence |].
  set (n := List.length (c :: l)) in *.
  assert (Hn : n = S (List.length l)) by reflexivity.
  rewrite Hn. unfold np_truediv. cbn [round_float float_between].
  assert (Hone : inject_Z (Z.of_nat (S (List.length l)))
                 / inject_Z (Z.of_nat (S (List.length l))) == 1).
  { assert (Hpos : 0 < inject_Z (Z.of_nat (S (List.length l)))).
    { change 0 with (inject_Z 0). rewrite <- Zlt_Qlt. lia. }
    field. lra. }
  pose proof (round4_one _ Hone) as Hr. split; lra.
Qed.

Lemma sum_completeness_ones (ps : list ColumnProfile) (a : Q) :
  (forall p, In p ps -> float_between 1 1 (completeness p)) ->
  exists s,
    fold_left (fun acc p => float_add acc (completeness p)) ps (Fin a) = Fin s
    /\ s == a + inject_Z (Z.of_nat (List.length ps)).
Proof.
  revert a. induction ps as [| p ps IH]; intros a H.
  - exists a. simpl. change (inject_Z 0) with 0. split; [reflexivity | lra].
  - assert (Hp : float_between 1 1 (completeness p)) by (apply H; left; reflexivity).
    cbn [fold_left]. destruct (completeness p) as [c | | |]; simpl in Hp; try tauto.
    destruct Hp as [Hc0 Hc1].
    destruct (IH (a + c)) as (s & Hs & Heq).
    { intros q Hq. apply H. right. exact Hq. }
    exists s. simpl float_add. split; [exact Hs |].
    cbn [List.length]. rewrite Nat2Z.inj_succ. unfold Z.succ.
    rewrite inject_Z_plus. change (inject_Z 1) with 1. lra.
Qed.

Lemma mean_completeness_ones (ps : list ColumnProfile) (m : pyfloat) :
  (forall p, In p ps -> float_between 1 1 (completeness p)) ->
  mean_completeness ps = Ok m -> float_between 1 1 m.
Proof.
  intros H Hm. destruct ps as [| p0 ps0] eqn:E; [discriminate Hm |].
  rewrite <- E in *. assert (Hne : ps <> []) by (rewrite E; discriminate).
  rewrite (mean_completeness_Ok ps Hne) in Hm. injection Hm as <-.
  unfold sum_completeness.
  destruct (sum_completeness_ones ps 0 H) as (s & -> & Heq).
  cbn [float_div_nat round_float float_between].
  assert (Hn : 0 < inject_Z (Z.of_nat (List.length ps))).
  { change 0 with (inject_Z 0). rewrite <- Zlt_Qlt. rewrite E. simpl. lia. }
  assert (Hone : s / inject_Z (Z.of_nat (List.length ps)) == 1).
  { rewrite Heq. field. lra. }
  pose proof (round4_one _ Hone) as Hr. split; lra.
Qed.

(** X28.  A table without missing cells is complete to the figure.  When
    every column has a row and no missing cell, the profiler reports no
    column with nulls, a completeness of exactly 1 for every column and an
    overall completeness of exactly 1; the completeness of the critical
    columns, when there is one, is exactly 1 as well. *)
Theorem complete_table_is_fully_complete (env : Env) (file_path cde_fields : string)
    (df : DataFrame) (s : ProfileSummary) :
  read_table env file_path = Ok df ->
  (forall col, In col df -> complete col) ->
  ProfilerTool_run env file_path cde_fields = Json s ->
  columns_with_nulls s = O
  /\ (forall p, In p (column_profiles s) ->
        null_count p = O /\ float_between 1 1 (completeness p))
  /\ float_between 1 1 (overall_completeness s)
  /\ match cde_completeness s with
     | Some m => float_between 1 1 m
     | None => True
     end.
Proof.
  intros Hread Hfull H. apply profiler_Json_inv in H.
  destruct H as (df0 & Hr & _ & Hs).
  rewrite Hread in Hr. injection Hr as <-.
  apply profile_summary_fields in Hs.
  destruct Hs as (Hprof & _ & _ & Hnulls & _ & Hoverall & Hcde).
  set (profile := map (profile_column env (parse_cde_fields cde_fields)) df) in *.
  assert (Hall : forall p, In p profile ->
                   null_count p = O /\ float_between 1 1 (completeness p)).
  { intros p Hp. unfold profile in Hp. apply in_map_iff in Hp.
    destruct Hp as [col [<- Hcol]].
    apply complete_column_profile. apply Hfull. exact Hcol. }
  split; [| split; [| split]].
  - rewrite Hnulls.
    assert (Hnone : filter (fun p => (0 <? null_count p)%nat) profile = []).
    { clear - Hall. induction profile as [| p ps IH]; [reflexivity |].
      simpl. destruct (Hall p (or_introl eq_refl)) as [-> _]. simpl.
      apply IH. intros q Hq. apply Hall. right. exact Hq. }
    rewrite Hnone. reflexivity.
  - rewrite Hprof. exact Hall.
  - apply (mean_completeness_ones profile _); [| exact Hoverall].
    intros p Hp. apply Hall. exact Hp.
  - destruct (cde_completeness s) as [m |]; [| exact I].
    destruct Hcde as [_ Hm].
    apply (mean_completeness_ones (filter is_cde profile) m); [| exact Hm].
    intros p Hp. apply filter_In in Hp. apply Hall. tauto.
Qed.

Lemma complete_table_is_fully_complete_witness :
  exists s,
    ProfilerTool_run (sample_env (Ok newborns) None) "newborns.csv" "customer_id"
    = Json s
    /\ columns_with_nulls s = O
    /\ float_between 1 1 (overall_completeness s).
Proof.
  destruct (complete_table_is_fully_complete
              (sample_env (Ok newborns) None) "newborns.csv" "customer_id" newborns
              (match ProfilerTool_run (sample_env (Ok newborns) None)
                       "newborns.csv" "customer_id" with
               | Json s => s
               | Text _ => mkProfileSummary 0 0 NaN None 0 0 []
               end))
    as (Hn & _ & Ho & _).
  - reflexivity.
  - intros col Hin. simpl in Hin.
    repeat (destruct Hin as [<- | Hin]; [split; [discriminate | reflexivity] |]).
    destruct Hin.
  - vm_compute. reflexivity.
  - eexists. split; [vm_compute; reflexivity |].
    split; [exact Hn | exact Ho].
Defined.
